(** * Lottie frame renderer: the per-animation frame ring and its counter protocol

    A shallow embedding of [Telegram/SourceFiles/lottie/lottie_frame_renderer.cpp].

    Conventions.
    - [int] (32 bits) and [crl::time] (64 bits) are signed; their values are
      held in [Z].  The arithmetic of the timeline ([start],
      [countFrameDisplayTime], [addTimelineDelay]) is reduced to the width of
      its type after every operation, which is what the build does on an
      overflow the language leaves undefined.  A result that gives a time as
      a formula over the integers carries the hypothesis that nothing
      overflows.  The running frame index is counted in [Z]: [++_frameIndex]
      leaves [int] only after 2^31 - 1 decodes of one animation.
    - C++ [/] and [%] truncate towards zero: they are [Z.quot] and [Z.rem].
    - [Expects], [Assert] and [Unexpected] terminate the program; an
      operation that can hit one returns a [Result], whose [Fatal] case
      records which kind of check fired.
    - The member functions of [SharedState] become functions on a [State]
      record.  A [Frame*] into [_frames] is the slot number it points to.
    - One call of a public operation is one atomic step.  The producer only
      writes slots the consumer does not read in the same counter phase, so
      operation-level interleaving is the granularity used here. *)

From Stdlib Require Import ZArith QArith Qround List Bool Lia.
Import ListNotations.
Local Open Scope Z_scope.

(** ** Fatal checks *)

Inductive Failure : Type :=
| ExpectsFailed      (* Expects(...) *)
| AssertFailed       (* Assert(...) *)
| UnexpectedValue    (* Unexpected("Value n in ...") on an explicit case *)
| UnexpectedCounter. (* Unexpected("Counter value in ...") after the switch *)

Inductive Result (A : Type) : Type :=
| Ok (a : A)
| Fatal (f : Failure).
Arguments Ok {A} a.
Arguments Fatal {A} f.

Definition bind {A B} (m : Result A) (k : A -> Result B) : Result B :=
  match m with
  | Ok a => k a
  | Fatal f => Fatal f
  end.

Definition check (f : Failure) (b : bool) : Result unit :=
  if b then Ok tt else Fatal f.

Declare Scope result_scope.
Delimit Scope result_scope with result.
Notation "x <- m ;; k" := (bind m (fun x => k))
  (at level 61, m at next level, right associativity) : result_scope.
Notation "'Expects' b ;; k" := (bind (check ExpectsFailed b) (fun _ => k))
  (at level 61, b at next level, right associativity) : result_scope.
Notation "'Assert' b ;; k" := (bind (check AssertFailed b) (fun _ => k))
  (at level 61, b at next level, right associativity) : result_scope.
Local Open Scope result_scope.

(** ** Machine integers

    A signed integer of [bits] bits holds the values from [- 2^(bits-1)] to
    [2^(bits-1) - 1]; [wrap] reduces an integer to that range, two's
    complement. *)

Definition wrap (bits : Z) (z : Z) : Z :=
  (z + 2 ^ (bits - 1)) mod 2 ^ bits - 2 ^ (bits - 1).

(** [int] *)
Definition asInt (z : Z) : Z := wrap 32 z.

(** [crl::time], which is [int64] *)
Definition asTime (z : Z) : Z := wrap 64 z.

Definition fitsInt (z : Z) : Prop := - 2 ^ 31 <= z < 2 ^ 31.

Definition fitsTime (z : Z) : Prop := - 2 ^ 63 <= z < 2 ^ 63.

(** ** Qt value types *)

Record QSize : Type := mkQSize { width : Z; height : Z }.

(** [QSize::isEmpty]: either side is [<= 0]. *)
Definition isEmpty (s : QSize) : bool := (width s <=? 0) || (height s <=? 0).

Definition QSize_eqb (a b : QSize) : bool :=
  (width a =? width b) && (height a =? height b).

(** A colour is its ARGB value. *)
Definition QColor : Type := Z.

Inductive Format : Type :=
| Format_ARGB32_Premultiplied
| Format_Other.

Definition Format_eqb (a b : Format) : bool :=
  match a, b with
  | Format_ARGB32_Premultiplied, Format_ARGB32_Premultiplied => true
  | Format_Other, Format_Other => true
  | _, _ => false
  end.

Definition kImageFormat : Format := Format_ARGB32_Premultiplied.

(** [Lottie::FrameRequest]: a target box and an optional recolouring. *)
Record FrameRequest : Type := mkRequest {
  box : QSize;
  colored : option QColor
}.

(** A player is known by its address only. *)
Definition Player : Type := Z.

(** ** Images

    A [QImage] is either null or a buffer with a format, a size, a flag
    telling whether the buffer is unshared, and its pixel data.  The pixel
    type is left open: what is drawn into a buffer is decided by rlottie,
    the cache and the painter. *)

Record ImageData (Px : Type) : Type := mkImage {
  format : Format;
  size : QSize;
  isDetached : bool;
  bits : Px
}.
Arguments mkImage {Px} _ _ _ _.
Arguments format {Px} _.
Arguments size {Px} _.
Arguments isDetached {Px} _.
Arguments bits {Px} _.

Definition QImageOf (Px : Type) : Type := option (ImageData Px).

Definition isNull {Px} (image : QImageOf Px) : bool :=
  match image with
  | None => true
  | Some _ => false
  end.

(** [QImage::size] of a null image is [QSize(0, 0)]. *)
Definition imageSize {Px} (image : QImageOf Px) : QSize :=
  match image with
  | None => mkQSize 0 0
  | Some d => size d
  end.

(** [Lottie::Information]. *)
Record Information : Type := mkInformation {
  info_size : QSize;
  info_frameRate : Z;
  info_framesCount : Z
}.

(** ** What the file takes from elsewhere

    The header of this file, [lottie_common], [lottie_cache], rlottie and the
    painting code are not part of the sources at hand.  Their constants and
    functions are the fields of [Collaborators]; nothing is assumed about them
    here, and every result below that needs a property of one of them states
    it as a hypothesis. *)

Class Collaborators : Type := {
  (** pixel data of an image buffer and the drawing primitives *)
  Pixels : Type;
  px_fresh : Pixels;                        (* storage just allocated *)
  px_transparent : Pixels;                  (* after fill(Qt::transparent) *)
  px_drawImage : QSize -> QImageOf Pixels -> Pixels;
                                            (* QPainter::drawImage on a
                                               transparent target *)
  prepareColored : QColor -> QImageOf Pixels -> QImageOf Pixels;
                                            (* Images::prepareColored *)
  (** sentinels of [crl::time] and the limits of [calculateProperties] *)
  kTimeUnknown : Z;
  kFrameDisplayTimeAlreadyDone : Z;
  kCounterUninitialized : Z;
  kMaxSize : Z;
  kMaxFrameRate : Z;
  kMaxFramesCount : Z;
  (** [Information()], the value-initialised struct *)
  Information_empty : Information;
  (** [FrameRequest::size] *)
  request_size : FrameRequest -> QSize -> QSize;
  (** rlottie::Animation *)
  Animation : Type;
  Content : Type;                           (* QByteArray with the source *)
  CreateFromContent : Content -> Animation; (* details::CreateFromContent *)
  anim_size : Animation -> Z * Z;           (* size(width, height), size_t *)
  anim_frameRate : Animation -> Q;          (* double *)
  anim_totalFrame : Animation -> Z;         (* size_t *)
  px_renderSync : Animation -> Z -> QSize -> Pixels;
  (** Lottie::Cache; every call may change the cache *)
  Cache : Type;
  cache_originalSize : Cache -> QSize;
  cache_frameRate : Cache -> Z;
  cache_framesCount : Cache -> Z;
  cache_framesReady : Cache -> Z;
  cache_takeFirstFrame : Cache -> QImageOf Pixels * Cache;
  cache_init : Cache -> QSize -> Z -> Z -> FrameRequest -> Cache;
  cache_renderFrame :
    Cache -> QImageOf Pixels -> FrameRequest -> Z ->
    bool * QImageOf Pixels * Cache;          (* served?, the image, the cache *)
  cache_appendFrame : Cache -> QImageOf Pixels -> FrameRequest -> Z -> Cache
}.

(** The ring has four slots.

    Modelled from the spec: [kFramesCount] is declared in the header, which is
    not among the sources.  The spec gives N = 4 ("N small, e.g. 4", slot
    sequence 1,2,2,3,3,0,0,1 "over 4 slots"), and the eight cases of every
    switch over the counter and the slot numbers 0..3 passed to [getFrame]
    agree with it. *)
Definition kFramesCount : Z := 4.

Section SharedState.

Context {ext : Collaborators}.

Definition QImage : Type := QImageOf Pixels.

(** ** Frame slots *)

Record Frame : Type := mkFrame {
  original : QImage;
  displayed : Z;
  display : Z;
  index : Z;
  request : FrameRequest;
  prepared : QImage
}.

Definition set_original (f : Frame) (v : QImage) : Frame :=
  mkFrame v (displayed f) (display f) (index f) (request f) (prepared f).
Definition set_displayed (f : Frame) (v : Z) : Frame :=
  mkFrame (original f) v (display f) (index f) (request f) (prepared f).
Definition set_display (f : Frame) (v : Z) : Frame :=
  mkFrame (original f) (displayed f) v (index f) (request f) (prepared f).
Definition set_index (f : Frame) (v : Z) : Frame :=
  mkFrame (original f) (displayed f) (display f) v (request f) (prepared f).
Definition set_request (f : Frame) (v : FrameRequest) : Frame :=
  mkFrame (original f) (displayed f) (display f) (index f) v (prepared f).
Definition set_prepared (f : Frame) (v : QImage) : Frame :=
  mkFrame (original f) (displayed f) (display f) (index f) (request f) v.

(** [std::array<Frame, kFramesCount>] *)
Record Frames : Type := mkFrames {
  slot0 : Frame;
  slot1 : Frame;
  slot2 : Frame;
  slot3 : Frame
}.

(** ** The animation state *)

Record State : Type := mkState {
  _content : Content;
  _animation : option Animation;
  _cache : option Cache;
  _frames : Frames;
  _counter : Z;
  _owner : option Player;
  _started : Z;
  _delay : Z;
  _skippedFrames : Z;
  _frameIndex : Z;
  _framesCount : Z;
  _frameRate : Z;
  _size : QSize
}.

Definition set_animation (s : State) (v : option Animation) : State :=
  mkState (_content s) v (_cache s) (_frames s) (_counter s) (_owner s)
    (_started s) (_delay s) (_skippedFrames s) (_frameIndex s)
    (_framesCount s) (_frameRate s) (_size s).
Definition set_cache (s : State) (v : option Cache) : State :=
  mkState (_content s) (_animation s) v (_frames s) (_counter s) (_owner s)
    (_started s) (_delay s) (_skippedFrames s) (_frameIndex s)
    (_framesCount s) (_frameRate s) (_size s).
Definition set_frames (s : State) (v : Frames) : State :=
  mkState (_content s) (_animation s) (_cache s) v (_counter s) (_owner s)
    (_started s) (_delay s) (_skippedFrames s) (_frameIndex s)
    (_framesCount s) (_frameRate s) (_size s).
Definition set_counter (s : State) (v : Z) : State :=
  mkState (_content s) (_animation s) (_cache s) (_frames s) v (_owner s)
    (_started s) (_delay s) (_skippedFrames s) (_frameIndex s)
    (_framesCount s) (_frameRate s) (_size s).
Definition set_timeline (s : State) (d : Z) (k : Z) : State :=
  mkState (_content s) (_animation s) (_cache s) (_frames s) (_counter s)
    (_owner s) (_started s) d k (_frameIndex s)
    (_framesCount s) (_frameRate s) (_size s).
Definition set_frameIndex (s : State) (v : Z) : State :=
  mkState (_content s) (_animation s) (_cache s) (_frames s) (_counter s)
    (_owner s) (_started s) (_delay s) (_skippedFrames s) v
    (_framesCount s) (_frameRate s) (_size s).
Definition set_properties (s : State) (sz : QSize) (rate count : Z) : State :=
  mkState (_content s) (_animation s) (_cache s) (_frames s) (_counter s)
    (_owner s) (_started s) (_delay s) (_skippedFrames s) (_frameIndex s)
    count rate sz.

(** ** Image storage *)

Definition GoodStorageForFrame (storage : QImage) (sz : QSize) : bool :=
  match storage with
  | None => false
  | Some d =>
      Format_eqb (format d) kImageFormat
      && QSize_eqb (size d) sz
      && isDetached d
  end.

(** [QImage(size, kImageFormat)]: Qt gives a null image for an empty size. *)
Definition CreateFrameStorage (sz : QSize) : QImage :=
  if isEmpty sz then None
  else Some (mkImage kImageFormat sz true px_fresh).

(** Writing the pixels of an image detaches it; a null image has no buffer
    to write and stays null. *)
Definition paint (image : QImage) (px : Pixels) : QImage :=
  match image with
  | None => None
  | Some d => Some (mkImage (format d) (size d) true px)
  end.

(** ** Applying a frame request *)

Definition GoodForRequest (image : QImage) (req : FrameRequest) : bool :=
  if isEmpty (box req) then true
  else match colored req with
       | Some _ => false
       | None =>
           let sz := imageSize image in
           (width (box req) =? width sz) || (height (box req) =? height sz)
       end.

Definition PrepareByRequest
    (orig : QImage) (req : FrameRequest) (storage : QImage) : Result QImage :=
  Expects (negb (isEmpty (box req))) ;;
  let sz := request_size req (imageSize orig) in
  let storage :=
    if GoodStorageForFrame storage sz then storage
    else CreateFrameStorage sz in
  let storage := paint storage px_transparent in
  let storage := paint storage (px_drawImage sz orig) in
  match colored req with
  | Some c => Ok (prepareColored c storage)
  | None => Ok storage
  end.

(** ** Shared buffers

    A [QImage] is a handle on a buffer that counts its handles.  Copying a
    [QImage] makes one more handle on the same buffer: no pixel is copied
    and nothing is allocated, and as long as both handles live neither of
    them [isDetached()].  This file copies an image in one place only, the
    [return] statements of [PrepareFrameByRequest], which return a member of
    the frame by value; everywhere else images are moved or passed by
    reference. *)

(** The two images of a frame. *)
Inductive Member : Type :=
| TheOriginal    (* frame->original *)
| ThePrepared.   (* frame->prepared *)

Definition member (frame : Frame) (m : Member) : QImage :=
  match m with
  | TheOriginal => original frame
  | ThePrepared => prepared frame
  end.

(** A handle on a buffer that has another handle as well. *)
Definition shared (image : QImage) : QImage :=
  match image with
  | None => None
  | Some d => Some (mkImage (format d) (size d) false (bits d))
  end.

(** The copy of the member [m] a caller is handed: one more handle on the
    buffer of that member. *)
Definition copyOf (frame : Frame) (m : Member) : QImage :=
  shared (member frame m).

(** The frame as long as the caller keeps that copy. *)
Definition lent (frame : Frame) (m : Member) : Frame :=
  match m with
  | TheOriginal => set_original frame (shared (original frame))
  | ThePrepared => set_prepared frame (shared (prepared frame))
  end.

(** Returns the frame, whose [prepared] field may have been filled, and the
    member the returned [QImage] is a copy of.  The caller holds
    [copyOf frame m]; while it does the frame is [lent frame m], and once
    the copy is gone the frame is as returned here. *)
Definition PrepareFrameByRequest
    (frame : Frame) (useExistingPrepared : bool) : Result (Frame * Member) :=
  Expects (negb (isNull (original frame))) ;;
  if GoodForRequest (original frame) (request frame) then
    Ok (frame, TheOriginal)
  else if isNull (prepared frame) || negb useExistingPrepared then
    p <- PrepareByRequest (original frame) (request frame) (prepared frame) ;;
    Ok (set_prepared frame p, ThePrepared)
  else
    Ok (frame, ThePrepared).

(** ** [SharedState]: properties and rendering of one frame *)

(** The test [rate >= 1. && rate <= kMaxFrameRate] and the conversion
    [int(rate)] on a rate given as a rational. *)
Definition rateToInt (rate : Q) : Z :=
  if Qle_bool 1 rate && Qle_bool rate (inject_Z kMaxFrameRate)
  then Qfloor rate else 0.

(** What the decode handle, or else the cache, reports. *)
Definition reportedSize (s : State) : Z * Z :=
  match _animation s, _cache s with
  | Some a, _ => anim_size a
  | None, Some c =>
      (width (cache_originalSize c), height (cache_originalSize c))
  | None, None => (0, 0)
  end.

Definition reportedRate (s : State) : Q :=
  match _animation s, _cache s with
  | Some a, _ => anim_frameRate a
  | None, Some c => inject_Z (cache_frameRate c)
  | None, None => 0%Q
  end.

Definition reportedCount (s : State) : Z :=
  match _animation s, _cache s with
  | Some a, _ => anim_totalFrame a
  | None, Some c => cache_framesCount c
  | None, None => 0
  end.

Definition calculateProperties (s : State) : Result State :=
  Expects (match _animation s, _cache s with
           | None, None => false
           | _, _ => true
           end) ;;
  let '(w, h) := reportedSize s in
  let rate := reportedRate s in
  let count := reportedCount s in
  Ok (set_properties s
        (mkQSize (if (0 <? w) && (w <? kMaxSize) then w else 0)
                 (if (0 <? h) && (h <? kMaxSize) then h else 0))
        (rateToInt rate)
        (if (0 <? count) && (count <=? kMaxFramesCount) then count else 0)).

Definition isValid (s : State) : bool :=
  (0 <? _framesCount s) && (0 <? _frameRate s) && negb (isEmpty (_size s)).

(** [renderFrame(image, request, index)]: the state afterwards (the cache and
    the animation handle may change) and the image afterwards. *)
Definition renderFrame
    (s : State) (image : QImage) (req : FrameRequest) (idx : Z)
    : State * QImage :=
  if negb (isValid s) then (s, image)
  else
    let sz :=
      if isEmpty (box req) then _size s else request_size req (_size s) in
    let image :=
      if GoodStorageForFrame image sz then image
      else CreateFrameStorage sz in
    let '(served, image, cache) :=
      match _cache s with
      | Some c =>
          let '(ok, image', c') := cache_renderFrame c image req idx in
          (ok, image', Some c')
      | None => (false, image, None)
      end in
    let s := set_cache s cache in
    if served then (s, image)
    else
      let animation :=
        match _animation s with
        | Some a => a
        | None => CreateFromContent (_content s)
        end in
      let s := set_animation s (Some animation) in
      let image := paint image px_transparent in
      let image :=
        paint image (px_renderSync animation idx (imageSize image)) in
      match cache with
      | Some c =>
          let c := cache_appendFrame c image req idx in
          let s := set_cache s (Some c) in
          if cache_framesReady c =? cache_framesCount c
          then (set_animation s None, image)
          else (s, image)
      | None => (s, image)
      end.

Definition counter (s : State) : Z := _counter s.

Definition initialized (s : State) : bool :=
  negb (counter s =? kCounterUninitialized).

Definition getFrame (s : State) (i : Z) : Result Frame :=
  Expects ((0 <=? i) && (i <? kFramesCount)) ;;
  match i with
  | 0 => Ok (slot0 (_frames s))
  | 1 => Ok (slot1 (_frames s))
  | 2 => Ok (slot2 (_frames s))
  | _ => Ok (slot3 (_frames s))
  end.

(** Writing through the pointer [getFrame(i)] returned. *)
Definition setFrame (s : State) (i : Z) (f : Frame) : State :=
  let fs := _frames s in
  match i with
  | 0 => set_frames s (mkFrames f (slot1 fs) (slot2 fs) (slot3 fs))
  | 1 => set_frames s (mkFrames (slot0 fs) f (slot2 fs) (slot3 fs))
  | 2 => set_frames s (mkFrames (slot0 fs) (slot1 fs) f (slot3 fs))
  | 3 => set_frames s (mkFrames (slot0 fs) (slot1 fs) (slot2 fs) f)
  | _ => s
  end.

Definition init (s : State) (cover : QImage) (req : FrameRequest)
    : Result State :=
  Expects (negb (initialized s)) ;;
  Ok (setFrame s 0
        (set_original (set_request (slot0 (_frames s)) req) cover)).

(** [construct], run by both constructors on the object whose members hold
    their initial values and the handles given to the constructor. *)
Definition construct (s : State) (req : FrameRequest) : Result State :=
  s <- calculateProperties s ;;
  if negb (isValid s) then Ok s
  else
    let '(cover, s) :=
      match _cache s with
      | Some c =>
          let '(img, c') := cache_takeFirstFrame c in
          (img, set_cache s (Some c'))
      | None => (None, s)
      end in
    if negb (isNull cover) then init s cover req
    else
      let s :=
        match _cache s with
        | Some c =>
            set_cache s
              (Some (cache_init c (_size s) (_frameRate s) (_framesCount s)
                       req))
        | None => s
        end in
      let '(s, cover) := renderFrame s cover req 0 in
      init s cover req.

(** The parameters are [crl::time started], [crl::time delay] and
    [int skippedFrames]: the members get the arguments as values of these
    types. *)
Definition start
    (s : State) (owner : Player) (started delay : Z) (skippedFrames : Z)
    : State :=
  mkState (_content s) (_animation s) (_cache s) (_frames s)
    0 (Some owner) (asTime started) (asTime delay) (asInt skippedFrames)
    (_frameIndex s) (_framesCount s) (_frameRate s) (_size s).

Definition IsRendered (frame : Frame) : bool :=
  displayed frame =? kTimeUnknown.

(** [_started + _delay + crl::time(1000) * (_skippedFrames + index)
    / _frameRate]: the sum in the brackets is an [int], everything else a
    [crl::time]. *)
Definition countFrameDisplayTime (s : State) (idx : Z) : Z :=
  asTime (asTime (_started s + _delay s)
          + asTime (1000 * asInt (_skippedFrames s + idx)) ÷ _frameRate s).

(** [renderNextFrame(frame, request)] on the slot [i]. *)
Definition renderNextFrameInto (s : State) (i : Z) (req : FrameRequest)
    : Result State :=
  frame <- getFrame s i ;;
  Expects (0 <? _framesCount s) ;;
  let s := set_frameIndex s (_frameIndex s + 1) in
  let '(s, image) :=
    renderFrame s (original frame) req
      (Z.rem (_frameIndex s) (_framesCount s)) in
  let frame := set_original frame image in
  let frame := set_request frame req in
  r <- PrepareFrameByRequest frame false ;;   (* the copy is dropped at once *)
  let frame := fst r in
  let frame := set_index frame (_frameIndex s) in
  let frame := set_displayed frame kTimeUnknown in
  Ok (setFrame s i frame).

Record RenderResult : Type := mkRenderResult {
  rendered : bool;
  notify : option Player
}.

Definition prerender (s : State) (req : FrameRequest) (i : Z)
    : Result (State * RenderResult) :=
  frame <- getFrame s i ;;
  next <- getFrame s (Z.rem (i + 1) kFramesCount) ;;
  if negb (IsRendered frame) then
    s <- renderNextFrameInto s i req ;;
    Ok (s, mkRenderResult true None)
  else if negb (IsRendered next) then
    s <- renderNextFrameInto s (Z.rem (i + 1) kFramesCount) req ;;
    Ok (s, mkRenderResult true None)
  else
    Ok (s, mkRenderResult false None).

Definition present (s : State) (req : FrameRequest) (c i : Z)
    : Result (State * RenderResult) :=
  frame <- getFrame s i ;;
  s <- (if negb (IsRendered frame) then renderNextFrameInto s i req
        else Ok s) ;;
  frame <- getFrame s i ;;
  let s := setFrame s i
             (set_display frame (countFrameDisplayTime s (index frame))) in
  let s := set_counter s (Z.rem (c + 1) (2 * kFramesCount)) in
  Ok (s, mkRenderResult true (_owner s)).

Definition renderNextFrame (s : State) (req : FrameRequest)
    : Result (State * RenderResult) :=
  match counter s with
  | 0 => present s req 0 1
  | 1 => prerender s req 2
  | 2 => present s req 2 2
  | 3 => prerender s req 3
  | 4 => present s req 4 3
  | 5 => prerender s req 0
  | 6 => present s req 6 0
  | 7 => prerender s req 1
  | _ => Fatal UnexpectedCounter
  end.

Definition information (s : State) : Information :=
  if negb (isValid s) then Information_empty
  else mkInformation (_size s) (_frameRate s) (_framesCount s).

(** ** [SharedState]: the consumer side *)

(** The slot a pointer designates is returned with the frame. *)
Definition frameForPaint (s : State) : Result (Z * Frame) :=
  result <- getFrame s (counter s ÷ 2) ;;
  Assert (negb (isNull (original result))) ;;
  Assert (negb (displayed result =? kTimeUnknown)) ;;
  Ok (counter s ÷ 2, result).

(** The slot every consumer operation computes from the counter value. *)
Definition nextIndex (c : Z) : Z := (Z.rem (c + 1) (2 * kFramesCount)) ÷ 2.

Definition frameDisplayTime (s : State) (c : Z) : Result Z :=
  frame <- getFrame s (nextIndex c) ;;
  if negb (displayed frame =? kTimeUnknown) then
    Ok kFrameDisplayTimeAlreadyDone
  else
    Assert (IsRendered frame) ;;
    Assert (negb (display frame =? kTimeUnknown)) ;;
    Ok (display frame).

Definition nextFrameDisplayTime (s : State) : Result Z :=
  match counter s with
  | 0 => Ok kTimeUnknown
  | 1 => frameDisplayTime s 1
  | 2 => Ok kTimeUnknown
  | 3 => frameDisplayTime s 3
  | 4 => Ok kTimeUnknown
  | 5 => frameDisplayTime s 5
  | 6 => Ok kTimeUnknown
  | 7 => frameDisplayTime s 7
  | _ => Fatal UnexpectedCounter
  end.

Definition recountCurrentFrame
    (s : State) (delayed skippedFrames : Z) (c : Z) : Result State :=
  let s := set_timeline s (asTime (_delay s + delayed))
             (asInt (_skippedFrames s + skippedFrames)) in
  frame <- getFrame s (nextIndex c) ;;
  if negb (displayed frame =? kTimeUnknown) then Ok s
  else
    Assert (IsRendered frame) ;;
    Assert (negb (display frame =? kTimeUnknown)) ;;
    Ok (setFrame s (nextIndex c)
          (set_display frame (countFrameDisplayTime s (index frame)))).

Definition addTimelineDelay (s : State) (delayed skippedFrames : Z)
    : Result State :=
  if (delayed =? 0) && (skippedFrames =? 0) then Ok s
  else
    match counter s with
    | 0 => Fatal UnexpectedValue
    | 1 => recountCurrentFrame s delayed skippedFrames 1
    | 2 => Fatal UnexpectedValue
    | 3 => recountCurrentFrame s delayed skippedFrames 3
    | 4 => Fatal UnexpectedValue
    | 5 => recountCurrentFrame s delayed skippedFrames 5
    | 6 => Fatal UnexpectedValue
    | 7 => recountCurrentFrame s delayed skippedFrames 7
    | _ => Fatal UnexpectedCounter
    end.

Definition mark (s : State) (now : Z) (c : Z) : Result State :=
  frame <- getFrame s (nextIndex c) ;;
  if displayed frame =? kTimeUnknown then
    Ok (setFrame s (nextIndex c) (set_displayed frame now))
  else Ok s.

Definition markFrameDisplayed (s : State) (now : Z) : Result State :=
  match counter s with
  | 0 => Fatal UnexpectedValue
  | 1 => mark s now 1
  | 2 => Fatal UnexpectedValue
  | 3 => mark s now 3
  | 4 => Fatal UnexpectedValue
  | 5 => mark s now 5
  | 6 => Fatal UnexpectedValue
  | 7 => mark s now 7
  | _ => Fatal UnexpectedCounter
  end.

Definition jump (s : State) (c : Z) : Result (State * bool) :=
  frame <- getFrame s (nextIndex c) ;;
  if displayed frame =? kTimeUnknown then Ok (s, false)
  else Ok (set_counter s (Z.rem (c + 1) (2 * kFramesCount)), true).

Definition markFrameShown (s : State) : Result (State * bool) :=
  match counter s with
  | 0 => Ok (s, false)
  | 1 => jump s 1
  | 2 => Ok (s, false)
  | 3 => jump s 3
  | 4 => Ok (s, false)
  | 5 => jump s 5
  | 6 => Ok (s, false)
  | 7 => jump s 7
  | _ => Fatal UnexpectedCounter
  end.

(** ** The scheduler's list of entries *)

Record Entry : Type := mkEntry {
  entry_state : State;
  entry_request : FrameRequest
}.

Record FrameRendererObject : Type := mkRenderer {
  _entries : list Entry;
  _queued : bool
}.

(** [queueGenerateFrames] posts one pass unless one is already posted. *)
Definition queueGenerateFrames (r : FrameRendererObject)
    : FrameRendererObject :=
  if _queued r then r else mkRenderer (_entries r) true.

Definition append (r : FrameRendererObject) (state : State)
    : Result FrameRendererObject :=
  painted <- frameForPaint state ;;
  let entry := mkEntry state (request (snd painted)) in
  Ok (queueGenerateFrames (mkRenderer (_entries r ++ [entry]) (_queued r))).

(** [frameShown]: a consumer freed a slot, so a pass is posted. *)
Definition frameShown (r : FrameRendererObject) : FrameRendererObject :=
  queueGenerateFrames r.

(** [base::flat_map::emplace] on the keys of [players]: the keys are kept in
    increasing order, and a key already there is left alone. *)
Fixpoint emplace (player : Player) (players : list Player) : list Player :=
  match players with
  | [] => [player]
  | q :: rest =>
      if player <? q then player :: players
      else if player =? q then players
      else q :: emplace player rest
  end.

(** The lambda [renderOne] of [generateFrames]: the entry afterwards, the
    players collected so far, and whether the entry rendered. *)
Definition renderOne (entry : Entry) (players : list Player)
    : Result (Entry * list Player * bool) :=
  result <- renderNextFrame (entry_state entry) (entry_request entry) ;;
  let players :=
    match notify (snd result) with
    | Some player => emplace player players
    | None => players
    end in
  Ok (mkEntry (fst result) (entry_request entry), players,
      rendered (snd result)).

(** [ranges::count_if(_entries, renderOne)]: every entry is visited once, in
    order. *)
Fixpoint renderEntries (entries : list Entry) (players : list Player)
    : Result (list Entry * list Player * Z) :=
  match entries with
  | [] => Ok ([], players, 0)
  | entry :: rest =>
      one <- renderOne entry players ;;
      more <- renderEntries rest (snd (fst one)) ;;
      Ok (fst (fst one) :: fst (fst more), snd (fst more),
          if snd one then snd more + 1 else snd more)
  end.

(** [generateFrames]: the renderer afterwards and the players handed to the
    main thread for [checkStep], in the order of the map. *)
Definition generateFrames (r : FrameRendererObject)
    : Result (FrameRendererObject * list Player) :=
  pass <- renderEntries (_entries r) [] ;;
  let r := mkRenderer (fst (fst pass)) (_queued r) in
  if negb (snd pass =? 0) then Ok (queueGenerateFrames r, snd (fst pass))
  else Ok (r, []).

(** The closure [queueGenerateFrames] posts: it clears [_queued] and runs
    one pass. *)
Definition generateQueued (r : FrameRendererObject)
    : Result (FrameRendererObject * list Player) :=
  generateFrames (mkRenderer (_entries r) false).

End SharedState.

(** ** Call sequences *)

Section Protocol.

Context {ext : Collaborators}.

(** The operations that change the state after [start]: one producer step,
    and the three consumer operations. *)
Inductive Op : Type :=
| OpRender (req : FrameRequest)             (* renderNextFrame(request) *)
| OpDisplayed (now : Z)                     (* markFrameDisplayed(now) *)
| OpShown                                   (* markFrameShown() *)
| OpDelay (delayed skippedFrames : Z).      (* addTimelineDelay(...) *)

Definition exec (op : Op) (s : State) : Result State :=
  match op with
  | OpRender req => r <- renderNextFrame s req ;; Ok (fst r)
  | OpDisplayed now => markFrameDisplayed s now
  | OpShown => r <- markFrameShown s ;; Ok (fst r)
  | OpDelay delayed skippedFrames => addTimelineDelay s delayed skippedFrames
  end.

(** A call sequence runs as long as no call is fatal. *)
Fixpoint run (ops : list Op) (s : State) : Result State :=
  match ops with
  | [] => Ok s
  | op :: rest => s' <- exec op s ;; run rest s'
  end.

Definition isDelay (op : Op) : bool :=
  match op with
  | OpDelay _ _ => true
  | _ => false
  end.

(** The object before [construct] runs: every slot still holds the value the
    header gives [Frame::displayed], and that value is not [kTimeUnknown]
    (a slot whose [displayed] is [kTimeUnknown] counts as rendered). *)
Definition FreshSlots (s : State) : Prop :=
  displayed (slot0 (_frames s)) <> kTimeUnknown
  /\ displayed (slot1 (_frames s)) <> kTimeUnknown
  /\ displayed (slot2 (_frames s)) <> kTimeUnknown
  /\ displayed (slot3 (_frames s)) <> kTimeUnknown.

(** A valid animation state right after [start]. *)
Inductive Started (s : State) : Prop :=
| Started_intro (blank s0 : State) (req : FrameRequest)
    (owner : Player) (started delay skippedFrames : Z) :
    FreshSlots blank ->
    construct blank req = Ok s0 ->
    isValid s0 = true ->
    s = start s0 owner started delay skippedFrames ->
    Started s.

Definition Reachable (s : State) : Prop :=
  exists s1 ops, Started s1 /\ run ops s1 = Ok s.

(** What the results on image buffers need from the collaborators:
    [FrameRequest::size] of a non-empty box is a non-empty size, and the
    cache never replaces an image by a null one. *)
Definition SizeContract : Prop :=
  forall req sz,
    isEmpty (box req) = false -> isEmpty sz = false ->
    isEmpty (request_size req sz) = false.

Definition CacheContract : Prop :=
  (forall c image req idx,
     isNull image = false ->
     isNull (snd (fst (cache_renderFrame c image req idx))) = false).

(** ** The ring invariant

    The slots are named from the one being painted: [a] is painted, [b] is
    the next to be presented, [c] and [d] follow.  With [images = true] the
    invariant also says which slots hold a decoded image. *)

Definition hasImage (images : bool) (f : Frame) : Prop :=
  images = true -> isNull (original f) = false.
Definition waiting (f : Frame) : Prop := displayed f = kTimeUnknown.
Definition shown (f : Frame) : Prop := displayed f <> kTimeUnknown.

Definition Queue (images : bool) (s : State) (x y : Frame) : Prop :=
  (waiting x -> hasImage images x /\ index x <= _frameIndex s)
  /\ (waiting y ->
      waiting x /\ hasImage images y
      /\ index x < index y <= _frameIndex s).

Definition RingInv
    (images : bool) (s : State) (odd : bool) (a b c d : Frame) : Prop :=
  shown a /\ hasImage images a /\
  if odd then
    hasImage images b /\ index b <= _frameIndex s
    /\ (waiting b -> display b = countFrameDisplayTime s (index b))
    /\ Queue images s c d
    /\ (waiting c -> index b < index c)
  else
    shown d /\ Queue images s b c.

Definition Inv (images : bool) (s : State) : Prop :=
  isValid s = true /\
  let fs := _frames s in
  let ring := RingInv images s in
  match counter s with
  | 0 => ring false (slot0 fs) (slot1 fs) (slot2 fs) (slot3 fs)
  | 1 => ring true (slot0 fs) (slot1 fs) (slot2 fs) (slot3 fs)
  | 2 => ring false (slot1 fs) (slot2 fs) (slot3 fs) (slot0 fs)
  | 3 => ring true (slot1 fs) (slot2 fs) (slot3 fs) (slot0 fs)
  | 4 => ring false (slot2 fs) (slot3 fs) (slot0 fs) (slot1 fs)
  | 5 => ring true (slot2 fs) (slot3 fs) (slot0 fs) (slot1 fs)
  | 6 => ring false (slot3 fs) (slot0 fs) (slot1 fs) (slot2 fs)
  | 7 => ring true (slot3 fs) (slot0 fs) (slot1 fs) (slot2 fs)
  | _ => False
  end.

(** The frame in slot [i], for [i] in range. *)
Definition frameAt (s : State) (i : Z) : Frame :=
  match i with
  | 0 => slot0 (_frames s)
  | 1 => slot1 (_frames s)
  | 2 => slot2 (_frames s)
  | _ => slot3 (_frames s)
  end.

(** The frame the consumer operations look at: slot [nextIndex (counter s)]. *)
Definition pendingFrame (s : State) : Frame :=
  frameAt s (nextIndex (counter s)).

(** [m] is below the index of every frame presented from [s] on.  In an odd
    phase the pending frame is the last one presented; in an even phase the
    next one presented is in the slot that will be pending one step later,
    and it is either waiting there already or still to be decoded. *)
Definition Bound (s : State) (m : Z) : Prop :=
  if Z.odd (counter s) then m <= index (pendingFrame s)
  else
    let upcoming := frameAt s (nextIndex (counter s + 1)) in
    m <= _frameIndex s + 1 /\ (waiting upcoming -> m <= index upcoming).

(** The fields [countFrameDisplayTime] reads besides the index. *)
Definition sameTimeline (s s' : State) : Prop :=
  _started s' = _started s /\ _delay s' = _delay s
  /\ _skippedFrames s' = _skippedFrames s /\ _frameRate s' = _frameRate s.

(** No operation of [countFrameDisplayTime s idx] leaves its type: the sum
    of the skipped frames and the index is an [int], the sum of the start
    and the delay and the time computed are [crl::time]s. *)
Definition noOverflow (s : State) (idx : Z) : Prop :=
  fitsInt (_skippedFrames s + idx)
  /\ fitsTime (_started s + _delay s)
  /\ fitsTime (_started s + _delay s
               + (1000 * (_skippedFrames s + idx)) ÷ _frameRate s).

(** The timeline members hold values of their types. *)
Definition Typed (s : State) : Prop :=
  fitsTime (_started s) /\ fitsTime (_delay s) /\ fitsInt (_skippedFrames s).


(** A call that ended in the default branch of a switch over the counter. *)
Definition defaulted {A} (r : Result A) : Prop := r = Fatal UnexpectedCounter.

(** A producer and a consumer in lockstep: present a frame, mark it
    displayed at [now], show it, and record the index and the display time of
    the frame then painted. *)
Fixpoint pump (n : nat) (req : FrameRequest) (now : Z) (s : State)
    : Result (list (Z * Z)) :=
  match n with
  | O => Ok []
  | S n' =>
      r <- renderNextFrame s req ;;
      s <- markFrameDisplayed (fst r) now ;;
      r <- markFrameShown s ;;
      painted <- frameForPaint (fst r) ;;
      rest <- pump n' req now (fst r) ;;
      Ok ((index (snd painted), display (snd painted)) :: rest)
  end.

(** The frames that wait in the ring carry the last indices decoded, in
    the order of the slots. *)
Definition Lined (s : State) (x y : Frame) : Prop :=
  (waiting x -> ~ waiting y -> index x = _frameIndex s)
  /\ (waiting y -> index x = _frameIndex s - 1 /\ index y = _frameIndex s).

Definition RingLine (s : State) (odd : bool) (b c d : Frame) : Prop :=
  if odd then
    (~ waiting c -> index b = _frameIndex s)
    /\ (waiting c -> ~ waiting d ->
        index b = _frameIndex s - 1 /\ index c = _frameIndex s)
    /\ (waiting d ->
        index b = _frameIndex s - 2 /\ index c = _frameIndex s - 1
        /\ index d = _frameIndex s)
  else Lined s b c.

Definition Line (s : State) : Prop :=
  let fs := _frames s in
  match counter s with
  | 0 => RingLine s false (slot1 fs) (slot2 fs) (slot3 fs)
  | 1 => RingLine s true (slot1 fs) (slot2 fs) (slot3 fs)
  | 2 => RingLine s false (slot2 fs) (slot3 fs) (slot0 fs)
  | 3 => RingLine s true (slot2 fs) (slot3 fs) (slot0 fs)
  | 4 => RingLine s false (slot3 fs) (slot0 fs) (slot1 fs)
  | 5 => RingLine s true (slot3 fs) (slot0 fs) (slot1 fs)
  | 6 => RingLine s false (slot0 fs) (slot1 fs) (slot2 fs)
  | 7 => RingLine s true (slot0 fs) (slot1 fs) (slot2 fs)
  | _ => False
  end.

(** The two slots the producer may decode ahead into during an odd phase,
    and how many of them are still free. *)
Definition aheadFree (s : State) : Z :=
  let free i := if IsRendered (frameAt s i) then 0 else 1 in
  free (Z.rem (nextIndex (counter s) + 1) kFramesCount)
  + free (Z.rem (nextIndex (counter s) + 2) kFramesCount).

(** The players are in strictly increasing order. *)
Fixpoint increasing (players : list Player) : Prop :=
  match players with
  | [] => True
  | p :: rest =>
      match rest with
      | [] => True
      | q :: _ => p < q
      end /\ increasing rest
  end.

(** The producer has nothing to do in [s]: an odd phase with both slots
    ahead already decoded. *)
Definition idle (s : State) : bool :=
  (0 <=? counter s) && (counter s <? 2 * kFramesCount)
  && Z.odd (counter s) && (aheadFree s =? 0).

(** The entry [e'] is [e] after one [renderNextFrame] with its own
    request. *)
Definition advanced (e e' : Entry) : Prop :=
  entry_request e' = entry_request e
  /\ exists result,
       renderNextFrame (entry_state e) (entry_request e)
       = Ok (entry_state e', result).

(** Passes of the scheduler with nothing else in between. *)
Fixpoint passes (n : nat) (r : FrameRendererObject)
    : Result FrameRendererObject :=
  match n with
  | O => Ok r
  | S n' => p <- generateQueued r ;; passes n' (fst p)
  end.

End Protocol.

(** ** A concrete set of collaborators

    Pixel data is kept symbolically, so that two buffers are equal only if
    they were produced by the same drawing steps.  There is no cache.  The
    sentinels are the two ends of a 64-bit [crl::time], and a fresh slot
    carries [displayed = -1]. *)

Module Reference.

Inductive Px : Type :=
| Fresh
| Transparent
| Decoded (frame : Z) (sz : QSize)
| Drawn (sz : QSize) (source : Px)
| Tinted (c : QColor) (p : Px).

Record Anim : Type := mkAnim {
  a_size : Z * Z;
  a_rate : Q;
  a_frames : Z
}.

Definition tint (c : QColor) (image : QImageOf Px) : QImageOf Px :=
  match image with
  | None => None
  | Some d => Some (mkImage (format d) (size d) true (Tinted c (bits d)))
  end.

#[export] Instance collaborators : Collaborators := {|
  Pixels := Px;
  px_fresh := Fresh;
  px_transparent := Transparent;
  px_drawImage := fun sz image =>
    match image with
    | None => Transparent
    | Some d => Drawn sz (bits d)
    end;
  prepareColored := tint;
  kTimeUnknown := - 2 ^ 63;
  kFrameDisplayTimeAlreadyDone := 2 ^ 63 - 1;
  kCounterUninitialized := -1;
  kMaxSize := 4096;
  kMaxFrameRate := 120;
  kMaxFramesCount := 600;
  Information_empty := mkInformation (mkQSize (-1) (-1)) 0 0;
  request_size := fun req _ => box req;
  Animation := Anim;
  Content := Anim;
  CreateFromContent := fun a => a;
  anim_size := a_size;
  anim_frameRate := a_rate;
  anim_totalFrame := a_frames;
  px_renderSync := fun _ idx sz => Decoded idx sz;
  Cache := unit;
  cache_originalSize := fun _ => mkQSize 0 0;
  cache_frameRate := fun _ => 0;
  cache_framesCount := fun _ => 0;
  cache_framesReady := fun _ => 0;
  cache_takeFirstFrame := fun c => (None, c);
  cache_init := fun c _ _ _ _ => c;
  cache_renderFrame := fun c image _ _ => (false, image, c);
  cache_appendFrame := fun c _ _ _ => c
|}.

Definition emptyRequest : FrameRequest := mkRequest (mkQSize 0 0) None.

Definition blankFrame : Frame :=
  mkFrame None (-1) kTimeUnknown 0 (mkRequest (mkQSize (-1) (-1)) None) None.

(** The object a constructor hands to [construct]. *)
Definition blank (a : Anim) : State :=
  mkState a (Some a) None
    (mkFrames blankFrame blankFrame blankFrame blankFrame)
    kCounterUninitialized None kTimeUnknown kTimeUnknown 0 0 0 0
    (mkQSize (-1) (-1)).

(** An animation of [count] frames at [rate] frames per second, 512 x 512,
    constructed for [req] and started at time 0 with no delay. *)
Definition playing (count rate : Z) (req : FrameRequest) : Result State :=
  s <- construct (blank (mkAnim (512, 512) (inject_Z rate) count)) req ;;
  Ok (start s 1 0 0 0).

(** A source that reports no frames. *)
Definition broken : Result State :=
  construct (blank (mkAnim (512, 512) 30%Q 0)) emptyRequest.

(** The state a run ends in; the blank object stands for a fatal run. *)
Definition final (r : Result State) : State :=
  match r with
  | Ok s => s
  | Fatal _ => blank (mkAnim (0, 0) 0%Q 0)
  end.

Definition constructed (count rate : Z) (req : FrameRequest) : State :=
  final (construct (blank (mkAnim (512, 512) (inject_Z rate) count)) req).

(** The state of [playing count rate req] after the calls [ops]. *)
Definition after (count rate : Z) (req : FrameRequest) (ops : list Op)
    : State :=
  final (s <- playing count rate req ;; run ops s).

(** A 512 x 512 frame already decoded, asked to be recoloured in a box of
    its own size. *)
Definition tintedFrame : Frame :=
  mkFrame
    (Some (mkImage kImageFormat (mkQSize 512 512) true
             (Decoded 1 (mkQSize 512 512))))
    kTimeUnknown kTimeUnknown 1
    (mkRequest (mkQSize 512 512) (Some 255)) None.

End Reference.

(** * Facts about the operations *)

Section Facts.
Context {ext : Collaborators}.

(** *** Machine integers *)

Ltac widths :=
  unfold asInt, asTime, fitsInt, fitsTime, wrap in *;
  change (32 - 1) with 31 in *; change (64 - 1) with 63 in *;
  let a := eval vm_compute in (2 ^ 31) in change (2 ^ 31) with a in *;
  let b := eval vm_compute in (2 ^ 32) in change (2 ^ 32) with b in *;
  let c := eval vm_compute in (2 ^ 63) in change (2 ^ 63) with c in *;
  let d := eval vm_compute in (2 ^ 64) in change (2 ^ 64) with d in *.

Lemma asInt_fits z : fitsInt z -> asInt z = z.
Proof. widths. intros H. rewrite Z.mod_small by lia. lia. Qed.

Lemma asTime_fits z : fitsTime z -> asTime z = z.
Proof. widths. intros H. rewrite Z.mod_small by lia. lia. Qed.

Lemma fitsInt_asInt z : fitsInt (asInt z).
Proof.
  widths. pose proof (Z.mod_pos_bound (z + 2147483648) 4294967296). lia.
Qed.

Lemma fitsTime_asTime z : fitsTime (asTime z).
Proof.
  widths.
  pose proof (Z.mod_pos_bound (z + 9223372036854775808)
                18446744073709551616).
  lia.
Qed.

Lemma asInt_add a b : asInt (asInt a + b) = asInt (a + b).
Proof.
  widths. f_equal.
  replace ((a + 2147483648) mod 4294967296 - 2147483648 + b + 2147483648)
    with ((a + 2147483648) mod 4294967296 + b) by lia.
  replace (a + b + 2147483648) with (a + 2147483648 + b) by lia.
  apply Z.add_mod_idemp_l. lia.
Qed.

Lemma asTime_add a b : asTime (asTime a + b) = asTime (a + b).
Proof.
  widths. f_equal.
  replace ((a + 9223372036854775808) mod 18446744073709551616
           - 9223372036854775808 + b + 9223372036854775808)
    with ((a + 9223372036854775808) mod 18446744073709551616 + b) by lia.
  replace (a + b + 9223372036854775808)
    with (a + 9223372036854775808 + b) by lia.
  apply Z.add_mod_idemp_l. lia.
Qed.

Lemma quot_0_r z : z ÷ 0 = 0.
Proof. destruct z; reflexivity. Qed.

Lemma quot_abs_le a b : Z.abs (a ÷ b) <= Z.abs a.
Proof.
  destruct (Z.eq_dec b 0) as [->|Hb]; [rewrite quot_0_r; lia|].
  rewrite <- Z.quot_abs by exact Hb.
  destruct (Z.eq_dec (Z.abs a) 0) as [E|E];
    [rewrite E, Z.quot_0_l by lia; lia|].
  destruct (Z.eq_dec (Z.abs b) 1) as [E1|E1];
    [rewrite E1, Z.quot_1_r; lia|].
  apply Z.lt_le_incl, Z.quot_lt; lia.
Qed.

Lemma fitsTime_scaled z r :
  fitsInt z -> fitsTime (1000 * z) /\ fitsTime ((1000 * z) ÷ r).
Proof.
  intros H. pose proof (quot_abs_le (1000 * z) r). widths. lia.
Qed.

(** Without overflow [countFrameDisplayTime] is the formula over the
    integers. *)
Lemma countFrameDisplayTime_exact s idx :
  noOverflow s idx ->
  countFrameDisplayTime s idx
  = _started s + _delay s
    + (1000 * (_skippedFrames s + idx)) ÷ _frameRate s.
Proof.
  intros (Hi & Hsum & Hall). unfold countFrameDisplayTime.
  rewrite (asInt_fits _ Hi).
  destruct (fitsTime_scaled _ (_frameRate s) Hi) as [Hm _].
  rewrite (asTime_fits _ Hm), (asTime_fits _ Hsum).
  apply asTime_fits. exact Hall.
Qed.

Lemma fitsTime_countFrameDisplayTime s idx :
  fitsTime (countFrameDisplayTime s idx).
Proof. apply fitsTime_asTime. Qed.

(** *** Results *)

Lemma bind_Ok {A B} (m : Result A) (k : A -> Result B) (b : B) :
  bind m k = Ok b -> exists a, m = Ok a /\ k a = Ok b.
Proof. destruct m as [a|f]; simpl; intros H; [eauto | discriminate]. Qed.

Lemma check_Ok (f : Failure) (b : bool) : check f b = Ok tt -> b = true.
Proof. destruct b; simpl; [reflexivity | discriminate]. Qed.

(** [renderFrame] only touches the cache and the animation handle. *)
Lemma renderFrame_state s image req idx :
  exists a c,
    fst (renderFrame s image req idx) = set_animation (set_cache s c) a.
Proof.
  destruct s as [ct an ca fs cn ow st de sk fi fc fr sz].
  unfold renderFrame.
  destruct (negb (isValid _)).
  { exists an, ca. reflexivity. }
  cbn [_cache _size _animation _content].
  destruct ca as [c|].
  - destruct (cache_renderFrame c _ req idx) as [[ok image'] c'].
    destruct ok.
    + exists an, (Some c'). reflexivity.
    + cbn.
      match goal with |- context [if ?b then _ else _] => destruct b end;
        eexists; eexists; reflexivity.
  - cbn. eexists; exists None; reflexivity.
Qed.

Lemma paint_isNull (image : QImage) px :
  isNull (paint image px) = isNull image.
Proof. destruct image; reflexivity. Qed.

Lemma CreateFrameStorage_isNull sz :
  isEmpty sz = false -> isNull (CreateFrameStorage sz) = false.
Proof. unfold CreateFrameStorage. intros ->. reflexivity. Qed.

Lemma GoodStorageForFrame_isNull (image : QImage) sz :
  GoodStorageForFrame image sz = true -> isNull image = false.
Proof. destruct image; simpl; [reflexivity | discriminate]. Qed.

Lemma isValid_true s :
  isValid s = true <->
  0 < _framesCount s /\ 0 < _frameRate s /\ isEmpty (_size s) = false.
Proof.
  unfold isValid.
  rewrite !andb_true_iff, negb_true_iff, !Z.ltb_lt. tauto.
Qed.

(** In a valid state, with collaborators that keep their contracts,
    [renderFrame] leaves a non-null image. *)
Lemma renderFrame_image s image req idx :
  SizeContract -> CacheContract -> isValid s = true ->
  isNull (snd (renderFrame s image req idx)) = false.
Proof.
  intros Hsize Hcache Hv.
  unfold renderFrame. rewrite Hv. cbn [negb].
  apply isValid_true in Hv. destruct Hv as (_ & _ & Hsz).
  set (sz := if isEmpty (box req) then _size s
             else request_size req (_size s)).
  assert (Hne : isEmpty sz = false).
  { subst sz. destruct (isEmpty (box req)) eqn:E; [assumption|].
    apply Hsize; assumption. }
  set (st := if GoodStorageForFrame image sz then image
             else CreateFrameStorage sz).
  assert (Hst : isNull st = false).
  { subst st. destruct (GoodStorageForFrame image sz) eqn:E.
    - eapply GoodStorageForFrame_isNull; eassumption.
    - apply CreateFrameStorage_isNull; assumption. }
  clearbody st. clear Hne. clearbody sz.
  destruct (_cache s) as [c|].
  - pose proof (Hcache c st req idx Hst) as Hc.
    destruct (cache_renderFrame c st req idx) as [[ok image'] c'].
    cbn in Hc. destruct ok; cbn.
    + assumption.
    + match goal with |- context [if ?b then _ else _] => destruct b end;
        cbn; rewrite !paint_isNull; assumption.
  - cbn. rewrite !paint_isNull. assumption.
Qed.

(** *** Decoding into a slot *)

Lemma PrepareFrameByRequest_frame frame use r :
  PrepareFrameByRequest frame use = Ok r ->
  isNull (original frame) = false
  /\ original (fst r) = original frame
  /\ displayed (fst r) = displayed frame
  /\ display (fst r) = display frame
  /\ index (fst r) = index frame
  /\ request (fst r) = request frame.
Proof.
  unfold PrepareFrameByRequest. intros H.
  apply bind_Ok in H. destruct H as ([] & Hc & H).
  apply check_Ok in Hc. apply negb_true_iff in Hc.
  split; [assumption|].
  destruct (GoodForRequest _ _).
  { inversion H; subst; cbn; repeat split. }
  destruct (isNull (prepared frame) || negb use).
  - apply bind_Ok in H. destruct H as (p & _ & H).
    inversion H; subst; cbn; repeat split.
  - inversion H; subst; cbn; repeat split.
Qed.

Lemma renderNextFrameInto_spec s i req s' :
  renderNextFrameInto s i req = Ok s' ->
  exists old a c f,
    getFrame s i = Ok old
    /\ s' = setFrame
              (set_frameIndex (set_animation (set_cache s c) a)
                 (_frameIndex s + 1)) i f
    /\ isNull (original f) = false
    /\ displayed f = kTimeUnknown
    /\ index f = _frameIndex s + 1
    /\ display f = display old
    /\ request f = req
    /\ original f =
       snd (renderFrame (set_frameIndex s (_frameIndex s + 1)) (original old)
              req (Z.rem (_frameIndex s + 1) (_framesCount s))).
Proof.
  unfold renderNextFrameInto. intros H.
  apply bind_Ok in H. destruct H as (old & Hold & H).
  apply bind_Ok in H. destruct H as ([] & _ & H).
  replace (_frameIndex (set_frameIndex s (_frameIndex s + 1)))
    with (_frameIndex s + 1) in H by (destruct s; reflexivity).
  replace (_framesCount (set_frameIndex s (_frameIndex s + 1)))
    with (_framesCount s) in H by (destruct s; reflexivity).
  destruct (renderFrame_state (set_frameIndex s (_frameIndex s + 1))
              (original old) req
              (Z.rem (_frameIndex s + 1) (_framesCount s)))
    as (a & c & Hst).
  destruct (renderFrame (set_frameIndex s (_frameIndex s + 1)) (original old)
              req (Z.rem (_frameIndex s + 1) (_framesCount s)))
    as [s1 image] eqn:Erf.
  cbn [fst] in Hst. subst s1.
  apply bind_Ok in H. destruct H as (r & Hr & H).
  apply PrepareFrameByRequest_frame in Hr.
  destruct Hr as (Hn & Ho & _ & Hd & _ & Hq).
  cbn in Hn, Ho, Hd, Hq.
  inversion H; subst s'; clear H.
  exists old, a, c.
  exists (set_displayed (set_index (fst r) (_frameIndex s + 1)) kTimeUnknown).
  split; [exact Hold|]. split.
  { destruct s; reflexivity. }
  cbn. rewrite Ho, Hd, Hq, Erf. repeat split; assumption.
Qed.

(** *** The ring invariant is kept by every call

    The proofs go through the eight counter values; for each the call is
    unfolded down to the slots it reads and writes. *)

Ltac counter_cases c :=
  destruct c as [|c|c]; try contradiction;
  [ | destruct c as [[[c|c|]|[c|c|]|]|[[c|c|]|[c|c|]|]|]; try contradiction ].

Ltac run_step :=
  match goal with
  | H : bind _ _ = Ok _ |- _ =>
      apply bind_Ok in H; let x := fresh "x" in destruct H as (x & ? & H)
  | H : getFrame _ _ = Ok _ |- _ =>
      cbn in H; inversion H; clear H; subst
  | H : Ok _ = Ok _ |- _ => inversion H; clear H; subst
  | H : (if negb (IsRendered ?f) then _ else _) = Ok _ |- _ =>
      let R := fresh "R" in
      destruct (IsRendered f) eqn:R; cbn [negb] in H
  | H : renderNextFrameInto _ _ _ = Ok _ |- _ =>
      apply renderNextFrameInto_spec in H;
      destruct H as (? & ? & ? & ? & ? & ? & ? & ? & ? & ? & ? & ?)
  end.

Ltac rendered_facts :=
  repeat match goal with
  | H : IsRendered _ = true |- _ => apply Z.eqb_eq in H
  | H : IsRendered _ = false |- _ => apply Z.eqb_neq in H
  | H : (_ =? _) = true |- _ => apply Z.eqb_eq in H
  | H : (_ =? _) = false |- _ => apply Z.eqb_neq in H
  end.

Ltac ring_solve :=
  unfold RingInv, Queue, waiting, shown, hasImage, countFrameDisplayTime in *;
  cbn in *;
  intuition (try congruence; try lia).

Lemma Inv_render images s req s' r :
  Inv images s -> renderNextFrame s req = Ok (s', r) -> Inv images s'.
Proof.
  intros [Hv H] E.
  destruct s as [ct an ca [f0 f1 f2 f3] cn ow st de sk fi fc fr sz].
  unfold Inv, renderNextFrame, counter in *.
  cbn [_counter _frames slot0 slot1 slot2 slot3] in *.
  counter_cases cn; unfold present, prerender in E;
    repeat run_step; rendered_facts;
    (split; [exact Hv|]); cbn.
  all: try ring_solve.
Qed.


Ltac split_if H :=
  match type of H with
  | context [if ?b then _ else _] =>
      let R := fresh "R" in destruct b eqn:R; cbn [negb] in H
  end.

Lemma Inv_displayed images s now s' :
  Inv images s -> markFrameDisplayed s now = Ok s' -> Inv images s'.
Proof.
  intros [Hv H] E.
  destruct s as [ct an ca [f0 f1 f2 f3] cn ow st de sk fi fc fr sz].
  unfold Inv, markFrameDisplayed, counter in *.
  cbn [_counter _frames slot0 slot1 slot2 slot3] in *.
  counter_cases cn; try discriminate; unfold mark in E;
    repeat run_step; split_if E; repeat run_step; rendered_facts;
    (split; [exact Hv|]); cbn; ring_solve.
Qed.

Lemma Inv_shown images s s' r :
  Inv images s -> markFrameShown s = Ok (s', r) -> Inv images s'.
Proof.
  intros [Hv H] E.
  destruct s as [ct an ca [f0 f1 f2 f3] cn ow st de sk fi fc fr sz].
  unfold Inv, markFrameShown, counter in *.
  cbn [_counter _frames slot0 slot1 slot2 slot3] in *.
  counter_cases cn; unfold jump in E;
    repeat run_step; try split_if E; repeat run_step; rendered_facts;
    (split; [exact Hv|]); cbn; ring_solve.
Qed.

Lemma Inv_delay images s d k s' :
  Inv images s -> addTimelineDelay s d k = Ok s' -> Inv images s'.
Proof.
  intros [Hv H] E.
  destruct s as [ct an ca [f0 f1 f2 f3] cn ow st de sk fi fc fr sz].
  unfold Inv, addTimelineDelay, counter in *.
  cbn [_counter _frames slot0 slot1 slot2 slot3] in *.
  split_if E; [inversion E; subst; split; assumption|].
  counter_cases cn; try discriminate; unfold recountCurrentFrame in E;
    repeat run_step; split_if E; repeat run_step; rendered_facts;
    (split; [exact Hv|]); cbn; ring_solve.
Qed.

Lemma Inv_exec images op s s' :
  Inv images s -> exec op s = Ok s' -> Inv images s'.
Proof.
  destruct op as [req|now| |d k]; cbn; intros HI E.
  - apply bind_Ok in E. destruct E as ([s1 r] & E & E'). inversion E'; subst.
    eapply Inv_render; eassumption.
  - eapply Inv_displayed; eassumption.
  - apply bind_Ok in E. destruct E as ([s1 r] & E & E'). inversion E'; subst.
    eapply Inv_shown; eassumption.
  - eapply Inv_delay; eassumption.
Qed.

Lemma Inv_run images ops : forall s s',
  Inv images s -> run ops s = Ok s' -> Inv images s'.
Proof.
  induction ops as [|op ops IH]; cbn; intros s s' HI E.
  - inversion E; subst; assumption.
  - apply bind_Ok in E. destruct E as (s1 & E1 & E).
    eapply IH; [eapply Inv_exec|]; eassumption.
Qed.


(** *** The state after [construct] and [start] *)

Lemma init_spec s cover req s' :
  init s cover req = Ok s' ->
  s' = setFrame s 0 (set_original (set_request (slot0 (_frames s)) req) cover).
Proof.
  unfold init. intros H. apply bind_Ok in H. destruct H as (? & _ & H).
  inversion H; reflexivity.
Qed.

Lemma calculateProperties_frames s s' :
  calculateProperties s = Ok s' -> _frames s' = _frames s.
Proof.
  unfold calculateProperties. intros H.
  apply bind_Ok in H. destruct H as (? & _ & H).
  destruct (reportedSize s) as [w h]. inversion H; subst. reflexivity.
Qed.

(** A valid state comes out of [construct] with the [displayed] fields the
    object had before and, if the collaborators keep their contracts, with a
    cover in slot 0. *)
Lemma construct_spec blank req s0 :
  construct blank req = Ok s0 -> isValid s0 = true ->
  (SizeContract -> CacheContract ->
   isNull (original (slot0 (_frames s0))) = false)
  /\ displayed (slot0 (_frames s0)) = displayed (slot0 (_frames blank))
  /\ displayed (slot1 (_frames s0)) = displayed (slot1 (_frames blank))
  /\ displayed (slot2 (_frames s0)) = displayed (slot2 (_frames blank))
  /\ displayed (slot3 (_frames s0)) = displayed (slot3 (_frames blank)).
Proof.
  intros H Hv0. unfold construct in H.
  apply bind_Ok in H. destruct H as (s1 & Hcalc & H).
  apply calculateProperties_frames in Hcalc. rewrite <- Hcalc.
  clear Hcalc blank.
  destruct (isValid s1) eqn:Hv1; cbn [negb] in H.
  2:{ inversion H; subst. congruence. }
  set (taken := match _cache s1 with
                | Some c => let '(img, c') := cache_takeFirstFrame c in
                            (img, set_cache s1 (Some c'))
                | None => (None, s1)
                end) in H.
  assert (Ht : isValid (snd taken) = true /\ _frames (snd taken) = _frames s1).
  { subst taken. destruct (_cache s1) as [c|]; [|auto].
    destruct (cache_takeFirstFrame c) as [img c'].
    destruct s1; cbn in *; auto. }
  destruct taken as [cover s2]. cbn [snd] in Ht. destruct Ht as [Hv2 Hf2].
  rewrite <- Hf2. clear Hf2 Hv1 s1.
  destruct (isNull cover) eqn:Hcover; cbn [negb] in H.
  - set (s3 := match _cache s2 with
               | Some c => set_cache s2 (Some (cache_init c (_size s2)
                             (_frameRate s2) (_framesCount s2) req))
               | None => s2
               end) in H.
    assert (Hs3 : isValid s3 = true /\ _frames s3 = _frames s2).
    { subst s3. destruct (_cache s2); [|auto]. destruct s2; cbn in *; auto. }
    destruct Hs3 as [Hv3 Hf3]. rewrite <- Hf3. clearbody s3. clear Hf3 Hv2 s2.
    pose proof (fun Hs Hc => renderFrame_image s3 cover req 0 Hs Hc Hv3)
      as Himg.
    destruct (renderFrame_state s3 cover req 0) as (a & c & Hst).
    destruct (renderFrame s3 cover req 0) as [s4 cover'].
    cbn [fst snd] in *. subst s4.
    apply init_spec in H. subst s0.
    destruct s3 as [? ? ? [f0 f1 f2 f3] ? ? ? ? ? ? ? ? ?]; cbn.
    auto.
  - apply init_spec in H. subst s0.
    destruct s2 as [? ? ? [f0 f1 f2 f3] ? ? ? ? ? ? ? ? ?]; cbn.
    auto.
Qed.

Lemma Inv_Started images s :
  (images = true -> SizeContract /\ CacheContract) -> Started s ->
  Inv images s.
Proof.
  intros Hcontract
    [blank s0 req owner started delay skipped Hfresh Hc Hv ->].
  destruct (construct_spec _ _ _ Hc Hv) as (Hi & H0 & H1 & H2 & H3).
  destruct Hfresh as (F0 & F1 & F2 & F3).
  rewrite <- H0 in F0. rewrite <- H1 in F1.
  rewrite <- H2 in F2. rewrite <- H3 in F3.
  destruct s0 as [? ? ? [f0 f1 f2 f3] ? ? ? ? ? ? ? ? ?].
  split; [exact Hv|]. cbn in *.
  unfold RingInv, Queue, waiting, shown, hasImage in *. tauto.
Qed.

Lemma Inv_Reachable images s :
  (images = true -> SizeContract /\ CacheContract) -> Reachable s ->
  Inv images s.
Proof.
  intros Hcontract (s1 & ops & Hs & Hr).
  eapply Inv_run; [apply Inv_Started|]; eassumption.
Qed.

Lemma Inv_counter images s : Inv images s -> 0 <= counter s < 2 * kFramesCount.
Proof.
  intros [_ H]. cbv zeta in H. unfold kFramesCount.
  destruct (counter s) as [|c|c]; try contradiction; [lia|].
  destruct c as [[[c|c|]|[c|c|]|]|[[c|c|]|[c|c|]|]|]; try contradiction; lia.
Qed.

(** *** Indices of presented frames never go down *)

Lemma Bound_exec images op s s' m :
  Inv images s -> isDelay op = false -> exec op s = Ok s' ->
  Bound s m -> Bound s' m /\ sameTimeline s s'.
Proof.
  intros [Hv H] Hop E HB.
  destruct s as [ct an ca [f0 f1 f2 f3] cn ow st de sk fi fc fr sz].
  destruct op as [req|now| |d k]; try discriminate; cbn [exec] in E.
  - apply bind_Ok in E. destruct E as ([s1 r] & E & E'). inversion E'; subst.
    clear E'. cbn [fst].
    unfold Inv, Bound, sameTimeline, renderNextFrame, counter in *.
    cbn [_counter _frames slot0 slot1 slot2 slot3] in *.
    counter_cases cn; unfold present, prerender in E;
      repeat run_step; rendered_facts; cbn in *; ring_solve.
  - unfold Inv, Bound, sameTimeline, markFrameDisplayed, counter in *.
    cbn [_counter _frames slot0 slot1 slot2 slot3] in *.
    counter_cases cn; try discriminate; unfold mark in E;
      repeat run_step; split_if E; repeat run_step; rendered_facts;
      cbn in *; ring_solve.
  - apply bind_Ok in E. destruct E as ([s1 r] & E & E'). inversion E'; subst.
    clear E'. cbn [fst].
    unfold Inv, Bound, sameTimeline, markFrameShown, counter in *.
    cbn [_counter _frames slot0 slot1 slot2 slot3] in *.
    counter_cases cn; unfold jump in E;
      repeat run_step; try split_if E; repeat run_step; rendered_facts;
      cbn in *; ring_solve.
Qed.


(** * The claims *)

(** C10.  [isValid()] holds exactly when [framesCount > 0], [frameRate > 0]
    and the size is not empty.  While it does not hold, [renderFrame] returns
    at once with the state and the target image as they were, and
    [information()] is the empty [Information] value; both are total
    functions, so nothing is raised.  A handle that reports a width, height,
    frame rate or frame count that is zero or out of range leaves the state
    invalid after [calculateProperties]. *)
Theorem isValid_iff_and_invalid_is_inert (s : State) :
  (isValid s = true <->
   0 < _framesCount s /\ 0 < _frameRate s /\ isEmpty (_size s) = false)
  /\ (isValid s = false ->
      (forall image req idx, renderFrame s image req idx = (s, image))
      /\ information s = Information_empty)
  /\ (forall s',
        calculateProperties s = Ok s' ->
        fst (reportedSize s) <= 0 \/ kMaxSize <= fst (reportedSize s)
        \/ snd (reportedSize s) <= 0 \/ kMaxSize <= snd (reportedSize s)
        \/ (reportedRate s < 1)%Q
        \/ (inject_Z kMaxFrameRate < reportedRate s)%Q
        \/ reportedCount s <= 0 \/ kMaxFramesCount < reportedCount s ->
        isValid s' = false).
Proof.
  split; [apply isValid_true|]. split.
  - intros Hv. unfold renderFrame, information. rewrite Hv. cbn [negb].
    split; reflexivity.
  - intros s' Hcalc Hbad. unfold calculateProperties in Hcalc.
    apply bind_Ok in Hcalc. destruct Hcalc as (? & _ & Hcalc).
    destruct (reportedSize s) as [w h]. cbn [fst snd] in Hbad.
    inversion Hcalc; subst s'; clear Hcalc.
    destruct (isValid _) eqn:Hv; [|reflexivity]. exfalso.
    apply isValid_true in Hv. destruct s. cbn in Hv.
    destruct Hv as (Hcount & Hrate & Hsize).
    unfold isEmpty in Hsize. cbn in Hsize.
    apply orb_false_iff in Hsize. destruct Hsize as [Hw Hh].
    apply Z.leb_gt in Hw, Hh.
    unfold rateToInt in Hrate.
    destruct (Qle_bool 1 (reportedRate _)) eqn:R1; [|cbn in Hrate; lia].
    destruct (Qle_bool (reportedRate _) _) eqn:R2; [|cbn in Hrate; lia].
    apply Qle_bool_iff in R1, R2.
    destruct ((0 <? w) && (w <? kMaxSize)) eqn:W; [|lia].
    destruct ((0 <? h) && (h <? kMaxSize)) eqn:Hh'; [|lia].
    destruct ((0 <? reportedCount _) && (reportedCount _ <=? kMaxFramesCount))
      eqn:C; [|lia].
    apply andb_true_iff in W, Hh', C.
    destruct W as [W1 W2], Hh' as [H1 H2], C as [C1 C2].
    apply Z.ltb_lt in W1, W2, H1, H2, C1. apply Z.leb_le in C2.
    destruct Hbad as [B|[B|[B|[B|[B|[B|[B|B]]]]]]]; try lia.
    + apply Qlt_not_le in B. contradiction.
    + apply Qlt_not_le in B. contradiction.
Qed.

(** C8, as the code has it.  [GoodForRequest] holds exactly when the box is
    empty, or there is no recolouring and the box has the width or the height
    of the original image.  Then [PrepareFrameByRequest] returns the frame's
    original image itself and leaves the frame as it was: the image handed
    to the caller is one more handle on the buffer of [original], with the
    format, the size and the pixels of the original, nothing is drawn and
    no storage is created, and as long as the caller keeps it neither handle
    is detached, so that no decode reuses the buffer as storage.  Otherwise
    the image returned is a handle on the frame's [prepared] field: the one
    already there when the caller asks for it and it is not null, else one
    made by [PrepareByRequest] and stored in the frame. *)
Theorem PrepareFrameByRequest_spec
    (frame : Frame) (useExistingPrepared : bool) :
  isNull (original frame) = false ->
  (GoodForRequest (original frame) (request frame) = true <->
   isEmpty (box (request frame)) = true
   \/ (colored (request frame) = None
       /\ (width (box (request frame)) = width (imageSize (original frame))
           \/ height (box (request frame))
              = height (imageSize (original frame)))))
  /\ (GoodForRequest (original frame) (request frame) = true ->
      PrepareFrameByRequest frame useExistingPrepared
      = Ok (frame, TheOriginal)
      /\ (exists d,
            original frame = Some d
            /\ copyOf frame TheOriginal
               = Some (mkImage (format d) (size d) false (bits d))
            /\ lent frame TheOriginal
               = set_original frame (copyOf frame TheOriginal))
      /\ (forall sz,
            GoodStorageForFrame (original (lent frame TheOriginal)) sz
            = false))
  /\ (GoodForRequest (original frame) (request frame) = false ->
      if isNull (prepared frame) || negb useExistingPrepared then
        exists p,
          PrepareByRequest (original frame) (request frame) (prepared frame)
          = Ok p
          /\ PrepareFrameByRequest frame useExistingPrepared
             = Ok (set_prepared frame p, ThePrepared)
      else
        PrepareFrameByRequest frame useExistingPrepared
        = Ok (frame, ThePrepared)).
Proof.
  intros Hn. split; [|split].
  - unfold GoodForRequest.
    destruct (isEmpty (box (request frame))); [intuition|].
    destruct (colored (request frame)).
    + split; [discriminate|]. intros [H|[H _]]; discriminate.
    + rewrite orb_true_iff, !Z.eqb_eq. split; [auto|].
      intros [H|[_ H]]; [discriminate | exact H].
  - intros Hg. split; [|split].
    + unfold PrepareFrameByRequest. rewrite Hn, Hg. reflexivity.
    + destruct (original frame) as [d|] eqn:Ho; [|discriminate].
      exists d. unfold copyOf, lent, member, shared. rewrite Ho.
      repeat split.
    + intros sz. unfold lent, shared.
      destruct (original frame) as [d|]; [|discriminate].
      cbn. apply andb_false_r.
  - intros Hg. unfold PrepareFrameByRequest. rewrite Hn, Hg. cbn.
    destruct (isNull (prepared frame) || negb useExistingPrepared);
      [|reflexivity].
    assert (Hbox : isEmpty (box (request frame)) = false).
    { unfold GoodForRequest in Hg.
      destruct (isEmpty (box (request frame))); [discriminate|reflexivity]. }
    unfold PrepareByRequest. rewrite Hbox. cbn.
    destruct (colored (request frame)); eexists; split; reflexivity.
Qed.

Lemma frameAt_getFrame s i :
  0 <= i < kFramesCount -> getFrame s i = Ok (frameAt s i).
Proof.
  unfold kFramesCount. intros Hi.
  assert (i = 0 \/ i = 1 \/ i = 2 \/ i = 3) as [->|[->|[->| ->]]] by lia;
    reflexivity.
Qed.

Lemma counter_eight c :
  0 <= c < 2 * kFramesCount ->
  c = 0 \/ c = 1 \/ c = 2 \/ c = 3 \/ c = 4 \/ c = 5 \/ c = 6 \/ c = 7.
Proof. unfold kFramesCount. lia. Qed.

Ltac eight H :=
  apply counter_eight in H;
  destruct H as [H|[H|[H|[H|[H|[H|[H|H]]]]]]].

(** C5, as the code has it.  In the odd phases [markFrameShown] looks at the
    slot [((counter + 1) mod 2N) / 2]: if that frame is displayed it stores
    [(counter + 1) mod 2N] and returns true, else it returns false and
    changes nothing.  In the even phases it returns false and changes
    nothing, whatever the slots hold. *)
Theorem markFrameShown_spec (s : State) :
  0 <= counter s < 2 * kFramesCount ->
  markFrameShown s =
    if Z.odd (counter s)
       && negb (displayed (pendingFrame s) =? kTimeUnknown)
    then Ok (set_counter s (Z.rem (counter s + 1) (2 * kFramesCount)), true)
    else Ok (s, false).
Proof.
  intros Hc. unfold markFrameShown, pendingFrame.
  eight Hc; rewrite Hc; cbn; try reflexivity;
    unfold jump; cbn;
    match goal with |- context [?a =? ?b] => destruct (a =? b) end;
    reflexivity.
Qed.


(** *** The counter *)

Lemma counter_exec op s s' :
  0 <= counter s < 2 * kFramesCount -> exec op s = Ok s' ->
  counter s' = counter s
  \/ counter s' = Z.rem (counter s + 1) (2 * kFramesCount).
Proof.
  intros Hc E.
  destruct s as [ct an ca [f0 f1 f2 f3] cn ow st de sk fi fc fr sz].
  unfold counter in *. cbn [_counter] in *.
  destruct op as [req|now| |d k]; cbn [exec] in E.
  - apply bind_Ok in E. destruct E as ([s1 r] & E & E'). inversion E'; subst.
    clear E'. cbn [fst]. unfold renderNextFrame, counter in E.
    cbn [_counter] in E.
    eight Hc; subst cn; unfold present, prerender in E;
      repeat run_step; cbn; auto.
  - unfold markFrameDisplayed, counter in E. cbn [_counter] in E.
    eight Hc; subst cn; try discriminate; unfold mark in E;
      repeat run_step; split_if E; repeat run_step; cbn; auto.
  - apply bind_Ok in E. destruct E as ([s1 r] & E & E'). inversion E'; subst.
    clear E'. cbn [fst]. unfold markFrameShown, counter in E.
    cbn [_counter] in E.
    eight Hc; subst cn; unfold jump in E;
      repeat run_step; try split_if E; repeat run_step; cbn; auto.
  - unfold addTimelineDelay, counter in E. cbn [_counter] in E.
    split_if E; [inversion E; subst; auto|].
    eight Hc; subst cn; try discriminate; unfold recountCurrentFrame in E;
      repeat run_step; split_if E; repeat run_step; cbn; auto.
Qed.

Lemma counter_run ops : forall s s',
  0 <= counter s < 2 * kFramesCount -> run ops s = Ok s' ->
  0 <= counter s' < 2 * kFramesCount.
Proof.
  induction ops as [|op ops IH]; cbn; intros s s' Hc E.
  - inversion E; subst; assumption.
  - apply bind_Ok in E. destruct E as (s1 & E1 & E).
    apply (IH s1 s'); [|assumption].
    destruct (counter_exec _ _ _ Hc E1) as [-> | ->]; [assumption|].
    unfold kFramesCount in *. eight Hc; rewrite Hc; cbn; lia.
Qed.

Lemma bind_defaulted {A B} (m : Result A) (k : A -> Result B) :
  ~ defaulted m -> (forall a, ~ defaulted (k a)) -> ~ defaulted (bind m k).
Proof.
  destruct m as [a|f]; cbn; intros Hm Hk; [apply Hk|].
  unfold defaulted in *. intros E. apply Hm. inversion E. reflexivity.
Qed.

Ltac no_default_step :=
  match goal with
  | |- ~ defaulted (bind _ _) => apply bind_defaulted; [|intros ?]
  | |- ~ defaulted (Ok _) => discriminate
  | |- ~ defaulted (Fatal _) => discriminate
  | |- ~ defaulted (check _ ?b) => destruct b; discriminate
  | |- ~ defaulted (if ?b then _ else _) => destruct b
  | |- ~ defaulted (match ?x with Some _ => _ | None => _ end) => destruct x
  | |- ~ defaulted (let '(_, _) := ?x in _) => destruct x
  | |- ~ defaulted (let _ := _ in _) => cbv zeta
  end.

Lemma getFrame_defaulted s i : ~ defaulted (getFrame s i).
Proof.
  unfold getFrame. repeat no_default_step.
  destruct i as [|[[]|[]|]|]; discriminate.
Qed.

Lemma PrepareFrameByRequest_defaulted frame use :
  ~ defaulted (PrepareFrameByRequest frame use).
Proof.
  unfold PrepareFrameByRequest. repeat no_default_step.
  unfold PrepareByRequest. repeat no_default_step.
Qed.

Lemma renderNextFrameInto_defaulted s i req :
  ~ defaulted (renderNextFrameInto s i req).
Proof.
  unfold renderNextFrameInto.
  apply bind_defaulted; [apply getFrame_defaulted|]. intros frame.
  apply bind_defaulted; [destruct (0 <? _); discriminate|]. intros _.
  cbv zeta. destruct (renderFrame _ _ _ _) as [s1 image].
  apply bind_defaulted; [apply PrepareFrameByRequest_defaulted|].
  intros r. discriminate.
Qed.

Ltac no_default :=
  repeat match goal with
  | |- ~ defaulted (getFrame _ _) => apply getFrame_defaulted
  | |- ~ defaulted (renderNextFrameInto _ _ _) =>
      apply renderNextFrameInto_defaulted
  | _ => no_default_step
  end.

Lemma exec_defaulted op s :
  0 <= counter s < 2 * kFramesCount -> ~ defaulted (exec op s).
Proof.
  intros Hc.
  destruct op as [req|now| |d k]; cbn [exec].
  - apply bind_defaulted; [|intros; discriminate].
    unfold renderNextFrame.
    eight Hc; rewrite Hc; unfold present, prerender; no_default.
  - unfold markFrameDisplayed.
    eight Hc; rewrite Hc; try discriminate; unfold mark; no_default.
  - apply bind_defaulted; [|intros; discriminate].
    unfold markFrameShown.
    eight Hc; rewrite Hc; try discriminate; unfold jump; no_default.
  - unfold addTimelineDelay. destruct (_ && _); [discriminate|].
    eight Hc; rewrite Hc; try discriminate; unfold recountCurrentFrame;
      no_default.
Qed.

Lemma nextFrameDisplayTime_defaulted s :
  0 <= counter s < 2 * kFramesCount -> ~ defaulted (nextFrameDisplayTime s).
Proof.
  intros Hc. unfold nextFrameDisplayTime.
  eight Hc; rewrite Hc; try discriminate; unfold frameDisplayTime; no_default.
Qed.

(** C3.  [start] stores 0.  From then on every call leaves the counter as it
    is or stores [(counter + 1) mod 2N], N = 4, so the counter stays in
    [0, 2N), and no operation ends in the default branch of its switch. *)
Theorem counter_in_range_after_start
    (s0 : State) (owner : Player) (started delay skippedFrames : Z)
    (ops : list Op) (s : State) :
  run ops (start s0 owner started delay skippedFrames) = Ok s ->
  counter (start s0 owner started delay skippedFrames) = 0
  /\ 0 <= counter s < 2 * kFramesCount
  /\ (forall op s',
        exec op s = Ok s' ->
        counter s' = counter s
        \/ counter s' = Z.rem (counter s + 1) (2 * kFramesCount))
  /\ (forall op, exec op s <> Fatal UnexpectedCounter)
  /\ nextFrameDisplayTime s <> Fatal UnexpectedCounter.
Proof.
  intros Hrun.
  assert (Hc : 0 <= counter s < 2 * kFramesCount).
  { eapply counter_run; [|exact Hrun]. cbn. lia. }
  split; [reflexivity|]. split; [exact Hc|]. split; [|split].
  - intros op s'. apply counter_exec. exact Hc.
  - intros op. apply exec_defaulted. exact Hc.
  - apply nextFrameDisplayTime_defaulted. exact Hc.
Qed.


(** C4.  In every state a valid, started animation state reaches by any
    sequence of producer and consumer calls, [frameForPaint] passes both
    assertions: the frame it returns has a non-null original image and a
    [displayed] time that is not [kTimeUnknown].  So the read of
    [frameForPaint] in the scheduler's [append] succeeds as well. *)
Theorem frameForPaint_asserts_hold (s : State) :
  SizeContract -> CacheContract -> Reachable s ->
  exists i frame,
    frameForPaint s = Ok (i, frame)
    /\ isNull (original frame) = false
    /\ displayed frame <> kTimeUnknown
    /\ forall r, exists r', append r s = Ok r'.
Proof.
  intros Hsize Hcache Hreach.
  assert (HI : Inv true s) by (apply Inv_Reachable; auto).
  exists (counter s ÷ 2), (frameAt s (counter s ÷ 2)).
  assert (Hpaint :
    frameForPaint s = Ok (counter s ÷ 2, frameAt s (counter s ÷ 2))
    /\ isNull (original (frameAt s (counter s ÷ 2))) = false
    /\ displayed (frameAt s (counter s ÷ 2)) <> kTimeUnknown).
  { destruct HI as [_ H]. clear Hreach.
    destruct s as [ct an ca [f0 f1 f2 f3] cn ow st de sk fi fc fr sz].
    unfold frameForPaint, counter in *.
    cbn [_counter _frames slot0 slot1 slot2 slot3] in *.
    counter_cases cn; cbn;
      unfold RingInv, shown, hasImage in H;
      destruct H as (Hs & Hi & _); specialize (Hi eq_refl);
      rewrite Hi; cbn;
      match goal with
      | |- context [displayed ?f =? kTimeUnknown] =>
          destruct (Z.eqb_spec (displayed f) kTimeUnknown) as [E|E];
          [contradiction|]
      end; cbn; auto. }
  destruct Hpaint as (Hp & Hn & Hd).
  repeat split; try assumption.
  intros r. unfold append. rewrite Hp. cbn. eexists; reflexivity.
Qed.

(** *** Polls *)

Lemma nextFrameDisplayTime_cases s :
  0 <= counter s < 2 * kFramesCount ->
  nextFrameDisplayTime s =
    if Z.even (counter s) then Ok kTimeUnknown
    else if negb (displayed (pendingFrame s) =? kTimeUnknown) then
      Ok kFrameDisplayTimeAlreadyDone
    else if display (pendingFrame s) =? kTimeUnknown then Fatal AssertFailed
    else Ok (display (pendingFrame s)).
Proof.
  intros Hc. unfold nextFrameDisplayTime, pendingFrame.
  eight Hc; rewrite Hc; cbn; try reflexivity;
    unfold frameDisplayTime, IsRendered; cbn;
    destruct (displayed _ =? kTimeUnknown); cbn; try reflexivity;
    destruct (display _ =? kTimeUnknown); reflexivity.
Qed.

Lemma Inv_pending images s :
  Inv images s -> Z.odd (counter s) = true ->
  displayed (pendingFrame s) = kTimeUnknown ->
  display (pendingFrame s)
  = countFrameDisplayTime s (index (pendingFrame s)).
Proof.
  intros [_ H] Hodd Hw.
  destruct s as [ct an ca [f0 f1 f2 f3] cn ow st de sk fi fc fr sz].
  unfold pendingFrame, counter in *.
  cbn [_counter _frames slot0 slot1 slot2 slot3] in *.
  counter_cases cn; try discriminate; cbn in *;
    unfold RingInv, waiting in H; tauto.
Qed.

(** C6, as the code has it.  In a reachable state [nextFrameDisplayTime]
    returns [kTimeUnknown] in the even phases.  In the odd phases it returns
    the sentinel [kFrameDisplayTimeAlreadyDone] when the pending frame is
    already displayed, and otherwise the display time scheduled for the
    pending frame, which is what [countFrameDisplayTime] computes for its
    index in the arithmetic of [int] and [crl::time]; the assertion on that
    time fails should it equal [kTimeUnknown].  When nothing overflows the
    scheduled time is [started + delay + 1000 (skipped + index) / rate]. *)
Theorem nextFrameDisplayTime_spec (s : State) :
  Reachable s ->
  nextFrameDisplayTime s
  = (if Z.even (counter s) then Ok kTimeUnknown
     else if negb (displayed (pendingFrame s) =? kTimeUnknown) then
       Ok kFrameDisplayTimeAlreadyDone
     else if countFrameDisplayTime s (index (pendingFrame s))
             =? kTimeUnknown
     then Fatal AssertFailed
     else Ok (countFrameDisplayTime s (index (pendingFrame s))))
  /\ (noOverflow s (index (pendingFrame s)) ->
      countFrameDisplayTime s (index (pendingFrame s))
      = _started s + _delay s
        + (1000 * (_skippedFrames s + index (pendingFrame s)))
          ÷ _frameRate s).
Proof.
  intros Hreach. split; [|apply countFrameDisplayTime_exact].
  assert (HI : Inv false s) by (apply Inv_Reachable; [discriminate|assumption]).
  rewrite nextFrameDisplayTime_cases by (eapply Inv_counter; eassumption).
  destruct (Z.even (counter s)) eqn:He; [reflexivity|].
  destruct (Z.eqb_spec (displayed (pendingFrame s)) kTimeUnknown) as [Hw|Hw];
    [|reflexivity].
  cbn [negb]. rewrite (Inv_pending false s HI); [reflexivity| |exact Hw].
  rewrite <- Z.negb_even, He. reflexivity.
Qed.

(** A poll that returns a time which is neither sentinel comes from an odd
    phase whose pending frame is not displayed yet. *)
Lemma poll_scheduled images s t :
  Inv images s -> nextFrameDisplayTime s = Ok t ->
  t <> kTimeUnknown -> t <> kFrameDisplayTimeAlreadyDone ->
  Z.odd (counter s) = true
  /\ displayed (pendingFrame s) = kTimeUnknown
  /\ display (pendingFrame s) = t
  /\ t = countFrameDisplayTime s (index (pendingFrame s)).
Proof.
  intros HI Hp Hu Hd.
  rewrite nextFrameDisplayTime_cases in Hp by (eapply Inv_counter; eassumption).
  destruct (Z.even (counter s)) eqn:He; [congruence|].
  assert (Hodd : Z.odd (counter s) = true)
    by (rewrite <- Z.negb_even, He; reflexivity).
  destruct (Z.eqb_spec (displayed (pendingFrame s)) kTimeUnknown) as [Hw|Hw];
    cbn [negb] in Hp; [|congruence].
  destruct (display (pendingFrame s) =? kTimeUnknown); [discriminate|].
  inversion Hp; subst t.
  repeat split; try assumption.
  eapply Inv_pending; eassumption.
Qed.


Lemma nextIndex_range c :
  0 <= c < 2 * kFramesCount -> 0 <= nextIndex c < kFramesCount.
Proof. intros Hc. eight Hc; subst c; unfold kFramesCount; cbn; lia. Qed.

Lemma frameAt_setFrame s i f :
  0 <= i < kFramesCount -> frameAt (setFrame s i f) i = f.
Proof.
  unfold kFramesCount. intros Hi.
  assert (i = 0 \/ i = 1 \/ i = 2 \/ i = 3) as [->|[->|[->| ->]]] by lia;
    destruct s; reflexivity.
Qed.

Lemma counter_setFrame s i f : counter (setFrame s i f) = counter s.
Proof.
  destruct s. destruct i as [|[[]|[]|]|]; reflexivity.
Qed.

Lemma frameAt_set_timeline s a b i :
  frameAt (set_timeline s a b) i = frameAt s i.
Proof. destruct s; reflexivity. Qed.

Lemma addTimelineDelay_odd s d k :
  (d =? 0) && (k =? 0) = false ->
  0 <= counter s < 2 * kFramesCount -> Z.odd (counter s) = true ->
  addTimelineDelay s d k = recountCurrentFrame s d k (counter s).
Proof.
  intros Hz Hc Hodd. unfold addTimelineDelay. rewrite Hz.
  eight Hc; rewrite Hc in *; try discriminate; reflexivity.
Qed.

Lemma addTimelineDelay_poll images s d k T :
  Inv images s ->
  nextFrameDisplayTime s = Ok T ->
  T <> kTimeUnknown -> T <> kFrameDisplayTimeAlreadyDone ->
  (d =? 0) && (k =? 0) = false ->
  countFrameDisplayTime
    (set_timeline s (asTime (_delay s + d))
       (asInt (_skippedFrames s + k)))
    (index (pendingFrame s)) <> kTimeUnknown ->
  exists s',
    addTimelineDelay s d k = Ok s'
    /\ nextFrameDisplayTime s'
       = Ok (countFrameDisplayTime
               (set_timeline s (asTime (_delay s + d))
       (asInt (_skippedFrames s + k)))
               (index (pendingFrame s))).
Proof.
  intros HI Hpoll Hu Hd Hzero Hnew.
  destruct (poll_scheduled images s T HI Hpoll Hu Hd)
    as (Hodd & Hw & Hdisp & _).
  pose proof (Inv_counter images s HI) as Hc.
  pose proof (nextIndex_range _ Hc) as Hi.
  rewrite addTimelineDelay_odd by assumption.
  unfold recountCurrentFrame.
  rewrite frameAt_getFrame by assumption. cbn [bind].
  rewrite frameAt_set_timeline. fold (pendingFrame s).
  unfold IsRendered. rewrite Hw, Z.eqb_refl. cbn [negb bind check].
  rewrite Hdisp.
  destruct (Z.eqb_spec T kTimeUnknown) as [E|_]; [contradiction|].
  cbn [negb bind check].
  eexists. split; [reflexivity|].
  rewrite nextFrameDisplayTime_cases;
    rewrite counter_setFrame;
    replace (counter (set_timeline s (asTime (_delay s + d))
       (asInt (_skippedFrames s + k))))
      with (counter s) by (destruct s; reflexivity);
    [|assumption].
  rewrite <- Z.negb_odd, Hodd. cbn [negb].
  assert (Hp : forall f,
    pendingFrame
      (setFrame (set_timeline s (asTime (_delay s + d))
       (asInt (_skippedFrames s + k)))
         (nextIndex (counter s)) f) = f).
  { intros f. unfold pendingFrame. rewrite counter_setFrame.
    replace (counter (set_timeline s (asTime (_delay s + d))
       (asInt (_skippedFrames s + k))))
      with (counter s) by (destruct s; reflexivity).
    apply frameAt_setFrame. assumption. }
  rewrite !Hp. cbn [displayed display set_display].
  rewrite Hw, Z.eqb_refl. cbn [negb].
  match goal with
  | |- context [?a =? kTimeUnknown] =>
      destruct (Z.eqb_spec a kTimeUnknown) as [E'|E']; [contradiction|]
  end.
  reflexivity.
Qed.

(** C7, as the code has it.  When a poll returns the scheduled time [T] of
    a frame not yet displayed and no addition overflows, before or after,
    [addTimelineDelay(d, k)] succeeds and the next poll returns the time
    recomputed from the shifted timeline,
    [started + (delay + d) + 1000 (skipped + k + index) / rate]
    (provided that number is not the sentinel [kTimeUnknown]).  For [k = 0]
    this is [T + d]. *)
Theorem addTimelineDelay_then_poll (s : State) (d k T : Z) :
  Reachable s ->
  nextFrameDisplayTime s = Ok T ->
  T <> kTimeUnknown -> T <> kFrameDisplayTimeAlreadyDone ->
  noOverflow s (index (pendingFrame s)) ->
  fitsTime (_delay s + d) -> fitsInt (_skippedFrames s + k) ->
  noOverflow (set_timeline s (_delay s + d) (_skippedFrames s + k))
    (index (pendingFrame s)) ->
  _started s + (_delay s + d)
  + (1000 * (_skippedFrames s + k + index (pendingFrame s))) ÷ _frameRate s
  <> kTimeUnknown ->
  exists s',
    addTimelineDelay s d k = Ok s'
    /\ nextFrameDisplayTime s'
       = Ok (_started s + (_delay s + d)
             + (1000 * (_skippedFrames s + k + index (pendingFrame s)))
               ÷ _frameRate s)
    /\ (k = 0 ->
        _started s + (_delay s + d)
        + (1000 * (_skippedFrames s + k + index (pendingFrame s)))
          ÷ _frameRate s
        = T + d).
Proof.
  intros Hreach Hpoll Hu Hd Hold Hfd Hfk Hexact Hnew.
  assert (HI : Inv false s) by (apply Inv_Reachable; [discriminate|assumption]).
  destruct (poll_scheduled false s T HI Hpoll Hu Hd)
    as (Hodd & Hw & Hdisp & HT).
  rewrite (countFrameDisplayTime_exact _ _ Hold) in HT.
  assert (Hshift : k = 0 ->
    _started s + (_delay s + d)
    + (1000 * (_skippedFrames s + k + index (pendingFrame s))) ÷ _frameRate s
    = T + d).
  { intros ->. rewrite HT, Z.add_0_r. lia. }
  destruct ((d =? 0) && (k =? 0)) eqn:Hzero.
  { apply andb_true_iff in Hzero. destruct Hzero as [Hd0 Hk0].
    apply Z.eqb_eq in Hd0, Hk0. subst d k.
    exists s. unfold addTimelineDelay. cbn [Z.eqb andb].
    split; [reflexivity|]. split; [|exact Hshift].
    rewrite Hpoll. f_equal. rewrite Hshift by reflexivity. lia. }
  assert (Heq :
    countFrameDisplayTime
      (set_timeline s (asTime (_delay s + d))
         (asInt (_skippedFrames s + k)))
      (index (pendingFrame s))
    = _started s + (_delay s + d)
      + (1000 * (_skippedFrames s + k + index (pendingFrame s)))
        ÷ _frameRate s).
  { rewrite (asTime_fits _ Hfd), (asInt_fits _ Hfk).
    rewrite (countFrameDisplayTime_exact _ _ Hexact).
    destruct s; reflexivity. }
  rewrite <- Heq in Hnew |- *.
  destruct (addTimelineDelay_poll false s d k T HI Hpoll Hu Hd Hzero Hnew)
    as (s' & Hs' & Hp').
  exists s'. split; [exact Hs'|]. split; [exact Hp'|].
  rewrite Heq. exact Hshift.
Qed.


Lemma Bound_run images m ops : forall s s',
  Inv images s -> existsb isDelay ops = false -> run ops s = Ok s' ->
  Bound s m -> Bound s' m /\ sameTimeline s s' /\ Inv images s'.
Proof.
  induction ops as [|op ops IH]; cbn [run existsb]; intros s s' HI Hops E HB.
  - inversion E; subst. split; [exact HB|]. split; [repeat split | exact HI].
  - apply orb_false_iff in Hops. destruct Hops as [Hop Hops].
    apply bind_Ok in E. destruct E as (s1 & E1 & E).
    destruct (Bound_exec images op s s1 m HI Hop E1 HB) as [HB1 HT1].
    pose proof (Inv_exec images op s s1 HI E1) as HI1.
    destruct (IH s1 s' HI1 Hops E HB1) as (HB' & HT' & HI').
    split; [exact HB'|]. split; [|exact HI'].
    unfold sameTimeline in *. intuition congruence.
Qed.

Lemma countFrameDisplayTime_mono s s' i j :
  sameTimeline s s' -> 0 < _frameRate s -> i <= j ->
  noOverflow s i -> noOverflow s' j ->
  countFrameDisplayTime s i <= countFrameDisplayTime s' j.
Proof.
  intros (Hst & Hde & Hsk & Hfr) Hrate Hij Hi Hj.
  rewrite (countFrameDisplayTime_exact _ _ Hi),
    (countFrameDisplayTime_exact _ _ Hj).
  rewrite Hst, Hde, Hsk, Hfr.
  assert ((1000 * (_skippedFrames s + i)) ÷ _frameRate s
          <= (1000 * (_skippedFrames s + j)) ÷ _frameRate s).
  { apply Z.quot_le_mono; lia. }
  lia.
Qed.

(** C9, as the code has it.  With no [addTimelineDelay] among the calls,
    the polls that return a scheduled time (a value that is neither
    [kTimeUnknown] nor [kFrameDisplayTimeAlreadyDone]) never go down, as
    long as computing the two times does not overflow. *)
Theorem scheduled_polls_never_decrease
    (s s' : State) (ops : list Op) (t t' : Z) :
  Reachable s ->
  existsb isDelay ops = false ->
  run ops s = Ok s' ->
  nextFrameDisplayTime s = Ok t ->
  nextFrameDisplayTime s' = Ok t' ->
  t <> kTimeUnknown -> t <> kFrameDisplayTimeAlreadyDone ->
  t' <> kTimeUnknown -> t' <> kFrameDisplayTimeAlreadyDone ->
  noOverflow s (index (pendingFrame s)) ->
  noOverflow s' (index (pendingFrame s')) ->
  t <= t'.
Proof.
  intros Hreach Hops Hrun Hp Hp' Hu Hd Hu' Hd' Hex Hex'.
  assert (HI : Inv false s) by (apply Inv_Reachable; [discriminate|assumption]).
  destruct (poll_scheduled false s t HI Hp Hu Hd) as (Hodd & _ & _ & Ht).
  assert (HB : Bound s (index (pendingFrame s))).
  { unfold Bound. rewrite Hodd. lia. }
  destruct (Bound_run false _ ops s s' HI Hops Hrun HB) as (HB' & HT & HI').
  destruct (poll_scheduled false s' t' HI' Hp' Hu' Hd')
    as (Hodd' & _ & _ & Ht').
  unfold Bound in HB'. rewrite Hodd' in HB'.
  rewrite Ht, Ht'. apply countFrameDisplayTime_mono; try assumption.
  destruct HI as [Hv _]. apply isValid_true in Hv. tauto.
Qed.





(** C2, as the code has it.  A call of [renderNextFrame] in an even phase
    presents the frame that is pending afterwards: it stores [counter + 1],
    reports the owner, and stamps the frame with the time
    [countFrameDisplayTime] computes for the frame's running index.  When
    nothing overflows in that computation the stamp is
    [display = started + delay + 1000 (skipped + index) / rate], the division
    truncating.  At 30 frames per second, started at 0 with no delay and
    nothing skipped, the indices 0..29 give 0, 33, 66, ..., 966, and index
    30, the first frame of the second cycle, gives 1000. *)
Theorem present_stamps_display_time
    (s : State) (req : FrameRequest) (s' : State) (r : RenderResult) :
  (Z.even (counter s) = true ->
   renderNextFrame s req = Ok (s', r) ->
   counter s' = counter s + 1
   /\ rendered r = true
   /\ notify r = _owner s
   /\ display (pendingFrame s')
      = countFrameDisplayTime s (index (pendingFrame s'))
   /\ (noOverflow s (index (pendingFrame s')) ->
       display (pendingFrame s')
       = _started s + _delay s
         + (1000 * (_skippedFrames s + index (pendingFrame s')))
           ÷ _frameRate s))
  /\ (_frameRate s = 30 -> _started s = 0 -> _delay s = 0 ->
      _skippedFrames s = 0 ->
      map (countFrameDisplayTime s) (map Z.of_nat (seq 0 31))
      = [0; 33; 66; 100; 133; 166; 200; 233; 266; 300;
         333; 366; 400; 433; 466; 500; 533; 566; 600; 633;
         666; 700; 733; 766; 800; 833; 866; 900; 933; 966; 1000]).
Proof.
  split.
  - intros Heven E.
    assert (Hcore :
      counter s' = counter s + 1
      /\ rendered r = true
      /\ notify r = _owner s
      /\ display (pendingFrame s')
         = countFrameDisplayTime s (index (pendingFrame s'))).
    { unfold renderNextFrame in E.
      destruct (counter s) as [|c|c] eqn:Hc; try discriminate;
        [ | destruct c as [[[c|c|]|[c|c|]|]|[[c|c|]|[c|c|]|]|];
            try discriminate ].
      all: unfold present in E.
      all: repeat match goal with
           | H : bind _ _ = Ok _ |- _ =>
               apply bind_Ok in H;
               let x := fresh "x" in destruct H as (x & ? & H)
           | H : Ok _ = Ok _ |- _ => inversion H; clear H; subst
           | H : (if negb (IsRendered ?f) then _ else _) = Ok _ |- _ =>
               let R := fresh "R" in
               destruct (IsRendered f) eqn:R; cbn [negb] in H
           | H : renderNextFrameInto _ _ _ = Ok _ |- _ =>
               apply renderNextFrameInto_spec in H;
               destruct H as (? & ? & ? & ? & ? & -> & _)
           end.
      all: match goal with
           | s0 : State |- _ =>
               destruct s0
                 as [ct an ca [f0 f1 f2 f3] cn ow st de sk fi fc fr sz]
           end.
      all: unfold pendingFrame, counter, countFrameDisplayTime in *.
      all: cbn [_counter] in Hc; subst cn.
      all: cbn -[Z.mul Z.quot Z.add asTime asInt] in *.
      all: repeat match goal with
           | H : Ok _ = Ok _ |- _ => inversion H; clear H; subst
           end.
      all: cbn -[Z.mul Z.quot Z.add asTime asInt].
      all: repeat split; reflexivity. }
    destruct Hcore as (H1 & H2 & H3 & H4).
    split; [exact H1|]. split; [exact H2|]. split; [exact H3|].
    split; [exact H4|].
    intros Hno. rewrite H4. apply countFrameDisplayTime_exact. exact Hno.
  - intros Hr Hs Hd Hk. unfold countFrameDisplayTime.
    rewrite Hr, Hs, Hd, Hk. reflexivity.
Qed.

(** *** The producer step does not get stuck *)

Lemma PrepareFrameByRequest_succeeds frame use :
  isNull (original frame) = false ->
  exists r, PrepareFrameByRequest frame use = Ok r.
Proof.
  intros Hn. unfold PrepareFrameByRequest. rewrite Hn. cbn.
  unfold GoodForRequest, PrepareByRequest.
  destruct (isEmpty (box (request frame))); [eexists; reflexivity|].
  destruct (colored (request frame)); cbn.
  - destruct (isNull (prepared frame) || negb use); eexists; reflexivity.
  - destruct ((_ =? _) || (_ =? _)); [eexists; reflexivity|].
    destruct (isNull (prepared frame) || negb use); eexists; reflexivity.
Qed.

Lemma renderNextFrameInto_succeeds s i req :
  SizeContract -> CacheContract -> isValid s = true ->
  0 <= i < kFramesCount ->
  exists s', renderNextFrameInto s i req = Ok s'.
Proof.
  intros Hsize Hcache Hv Hi. unfold renderNextFrameInto.
  rewrite frameAt_getFrame by exact Hi. cbn [bind].
  pose proof Hv as Hv'. apply isValid_true in Hv'. destruct Hv' as (Hc & _).
  apply Z.ltb_lt in Hc. rewrite Hc. cbn [check bind].
  assert (Hv2 : isValid (set_frameIndex s (_frameIndex s + 1)) = true)
    by (destruct s; exact Hv).
  pose proof (renderFrame_image (set_frameIndex s (_frameIndex s + 1))
                (original (frameAt s i)) req
                (Z.rem (_frameIndex (set_frameIndex s (_frameIndex s + 1)))
                   (_framesCount (set_frameIndex s (_frameIndex s + 1))))
                Hsize Hcache Hv2) as Himg.
  cbv zeta.
  destruct (renderFrame _ _ _ _) as [s1 image]. cbn [snd] in Himg.
  destruct (PrepareFrameByRequest_succeeds
              (set_request (set_original (frameAt s i) image) req) false Himg)
    as (r & Hr).
  rewrite Hr. cbn [bind]. eexists; reflexivity.
Qed.

(** In a valid state whose counter is in range the producer step never
    stops on a check, if the collaborators keep their contracts. *)
Lemma renderNextFrame_succeeds s req :
  SizeContract -> CacheContract -> isValid s = true ->
  0 <= counter s < 2 * kFramesCount ->
  exists s' r, renderNextFrame s req = Ok (s', r).
Proof.
  intros Hsize Hcache Hv Hc.
  assert (Hinto : forall i, 0 <= i < kFramesCount ->
            exists s', renderNextFrameInto s i req = Ok s'
                       /\ exists f, getFrame s' i = Ok f).
  { intros i Hi.
    destruct (renderNextFrameInto_succeeds s i req Hsize Hcache Hv Hi)
      as (s' & Hs').
    exists s'. split; [exact Hs'|].
    exists (frameAt s' i). apply frameAt_getFrame. exact Hi. }
  unfold renderNextFrame.
  apply counter_eight in Hc.
  destruct Hc as [Hc|[Hc|[Hc|[Hc|[Hc|[Hc|[Hc|Hc]]]]]]]; rewrite Hc;
    unfold present, prerender;
    repeat match goal with
    | |- context [getFrame s ?i] =>
        rewrite (frameAt_getFrame s i) by (unfold kFramesCount; cbn; lia);
        cbn [bind]
    end;
    repeat match goal with
    | |- context [if negb (IsRendered ?f) then _ else _] =>
        destruct (IsRendered f); cbn [negb bind]
    | |- context [renderNextFrameInto s ?i req] =>
        let s1 := fresh "s1" in
        let H1 := fresh "H1" in
        let f := fresh "f" in
        let Hf := fresh "Hf" in
        destruct (Hinto i) as (s1 & H1 & f & Hf);
        [unfold kFramesCount; cbn; lia|];
        cbn in H1 |- *; rewrite H1; cbn [bind];
        try (cbn in Hf; rewrite Hf; cbn [bind])
    end;
    try (eexists; eexists; reflexivity).
Qed.

(** * More of the frame renderer *)

(** *** The consumer's marks *)

Lemma markFrameDisplayed_odd s now :
  0 <= counter s < 2 * kFramesCount -> Z.odd (counter s) = true ->
  markFrameDisplayed s now =
    if displayed (pendingFrame s) =? kTimeUnknown
    then Ok (setFrame s (nextIndex (counter s))
               (set_displayed (pendingFrame s) now))
    else Ok s.
Proof.
  intros Hc Hodd. unfold markFrameDisplayed, pendingFrame.
  eight Hc; rewrite Hc in *; try discriminate; reflexivity.
Qed.

Lemma pendingFrame_setFrame s f :
  0 <= counter s < 2 * kFramesCount ->
  pendingFrame (setFrame s (nextIndex (counter s)) f) = f.
Proof.
  intros Hc. unfold pendingFrame. rewrite counter_setFrame.
  apply frameAt_setFrame. apply nextIndex_range. exact Hc.
Qed.

(** X1.  Only the first mark sticks.  In an odd phase [markFrameDisplayed]
    with a time other than [kTimeUnknown] leaves the pending frame displayed:
    at [now] if it was not displayed before, at its earlier time otherwise.
    Any further [markFrameDisplayed] then changes nothing. *)
Theorem markFrameDisplayed_first_mark_sticks (s : State) (now : Z) :
  0 <= counter s < 2 * kFramesCount -> Z.odd (counter s) = true ->
  now <> kTimeUnknown ->
  exists s',
    markFrameDisplayed s now = Ok s'
    /\ counter s' = counter s
    /\ displayed (pendingFrame s')
       = (if displayed (pendingFrame s) =? kTimeUnknown then now
          else displayed (pendingFrame s))
    /\ displayed (pendingFrame s') <> kTimeUnknown
    /\ forall later, markFrameDisplayed s' later = Ok s'.
Proof.
  intros Hc Hodd Hnow.
  rewrite markFrameDisplayed_odd by assumption.
  destruct (Z.eqb_spec (displayed (pendingFrame s)) kTimeUnknown) as [Hw|Hw].
  - eexists. split; [reflexivity|].
    assert (Hc' : counter (setFrame s (nextIndex (counter s))
                            (set_displayed (pendingFrame s) now)) = counter s)
      by apply counter_setFrame.
    split; [exact Hc'|].
    rewrite pendingFrame_setFrame by exact Hc. cbn [displayed set_displayed].
    split; [reflexivity|]. split; [exact Hnow|].
    intros later. rewrite markFrameDisplayed_odd; rewrite Hc'; try assumption.
    rewrite <- Hc' at 1. rewrite Hc'.
    rewrite pendingFrame_setFrame by exact Hc. cbn [displayed set_displayed].
    destruct (Z.eqb_spec now kTimeUnknown); [contradiction | reflexivity].
  - exists s. split; [reflexivity|]. split; [reflexivity|].
    split; [reflexivity|]. split; [exact Hw|].
    intros later. rewrite markFrameDisplayed_odd by assumption.
    destruct (Z.eqb_spec (displayed (pendingFrame s)) kTimeUnknown);
      [contradiction | reflexivity].
Qed.

(** X2.  In an even phase the consumer has no frame to mark or to shift:
    [markFrameDisplayed] is fatal, and so is [addTimelineDelay] unless both
    its arguments are zero.  [addTimelineDelay(0, 0)] returns at once in any
    state, whatever the counter holds. *)
Theorem consumer_marks_are_fatal_in_even_phase (s : State) :
  (forall s0, addTimelineDelay s0 0 0 = Ok s0)
  /\ (0 <= counter s < 2 * kFramesCount -> Z.even (counter s) = true ->
      (forall now, markFrameDisplayed s now = Fatal UnexpectedValue)
      /\ (forall delayed skippedFrames,
            delayed <> 0 \/ skippedFrames <> 0 ->
            addTimelineDelay s delayed skippedFrames
            = Fatal UnexpectedValue)).
Proof.
  split; [reflexivity|]. intros Hc Heven. split.
  - intros now. unfold markFrameDisplayed.
    eight Hc; rewrite Hc in *; try discriminate; reflexivity.
  - intros d k Hdk. unfold addTimelineDelay.
    assert (Hz : (d =? 0) && (k =? 0) = false).
    { apply andb_false_iff. rewrite !Z.eqb_neq. exact Hdk. }
    rewrite Hz.
    eight Hc; rewrite Hc in *; try discriminate; reflexivity.
Qed.

(** *** Who writes which slot *)

Ltac open_render E :=
  unfold renderNextFrame in E;
  match type of E with
  | context [counter ?s] =>
      let Hc := fresh "Hc" in
      destruct (counter s) as [|c|c] eqn:Hc;
      [ | destruct c as [[[c|c|]|[c|c|]|]|[[c|c|]|[c|c|]|]|] | ];
      try discriminate
  end;
  unfold present, prerender in E;
  repeat match goal with
  | H : bind _ _ = Ok _ |- _ =>
      apply bind_Ok in H; let x := fresh "x" in destruct H as (x & ? & H)
  | H : Ok _ = Ok _ |- _ => inversion H; clear H; subst
  | H : (if negb (IsRendered ?f) then _ else _) = Ok _ |- _ =>
      let R := fresh "R" in
      destruct (IsRendered f) eqn:R; cbn [negb] in H
  end.

Ltac open_into :=
  repeat match goal with
  | H : renderNextFrameInto _ _ _ = Ok _ |- _ =>
      apply renderNextFrameInto_spec in H;
      let old := fresh "old" in
      let a := fresh "a" in
      let c := fresh "c" in
      let f := fresh "f" in
      destruct H as (old & a & c & f & ? & -> & ? & ? & ? & ? & ? & ?)
  end.

Ltac open_state :=
  match goal with
  | s0 : State |- _ =>
      destruct s0 as [ct an ca [f0 f1 f2 f3] cn ow st de sk fi fc fr sz]
  end.

(** X5.  The producer keeps its hands off the frame being painted: a call
    of [renderNextFrame] leaves the slot [counter / 2], the one
    [frameForPaint] returns, exactly as it was; in an odd phase it also
    leaves the pending slot alone, the one the consumer marks and polls. *)
Theorem renderNextFrame_spares_consumer_slots
    (s : State) (req : FrameRequest) (s' : State) (r : RenderResult) :
  renderNextFrame s req = Ok (s', r) ->
  frameAt s' (counter s ÷ 2) = frameAt s (counter s ÷ 2)
  /\ (Z.odd (counter s) = true ->
      frameAt s' (nextIndex (counter s)) = frameAt s (nextIndex (counter s))).
Proof.
  intros E. open_render E; open_into; open_state;
    cbn in *; subst;
    repeat match goal with
    | H : Ok _ = Ok _ |- _ => inversion H; clear H; subst
    end;
    cbn; (split; [reflexivity|]); intros Hodd;
    first [discriminate | reflexivity].
Qed.

Ltac any_slot i :=
  destruct i as [|[?|[?|?|]|]|?]; cbn.

(** X6.  The consumer never touches what the producer made: the three
    consumer calls leave [frameIndex] and, in every slot, the decoded image,
    the index, the request and the prepared image as they were.  They write
    nothing but [displayed], [display], the counter and the timeline. *)
Theorem consumer_calls_keep_the_frames_content
    (op : Op) (s s' : State) (i : Z) :
  (forall req, op <> OpRender req) ->
  exec op s = Ok s' ->
  _frameIndex s' = _frameIndex s
  /\ original (frameAt s' i) = original (frameAt s i)
  /\ index (frameAt s' i) = index (frameAt s i)
  /\ request (frameAt s' i) = request (frameAt s i)
  /\ prepared (frameAt s' i) = prepared (frameAt s i).
Proof.
  intros Hop E.
  destruct op as [req|now| |d k]; [exfalso; eapply Hop; reflexivity| | |];
    cbn [exec] in E.
  - unfold markFrameDisplayed in E.
    destruct (counter s) as [|c|c] eqn:Hc;
      [ | destruct c as [[[c|c|]|[c|c|]|]|[[c|c|]|[c|c|]|]|] | ];
      try discriminate;
      unfold mark in E; repeat run_step; split_if E; repeat run_step;
      open_state; any_slot i; repeat split; reflexivity.
  - apply bind_Ok in E. destruct E as ([s1 r] & E & E'). inversion E'; subst.
    clear E'. cbn [fst]. unfold markFrameShown in E.
    destruct (counter s) as [|c|c] eqn:Hc;
      [ | destruct c as [[[c|c|]|[c|c|]|]|[[c|c|]|[c|c|]|]|] | ];
      try discriminate;
      unfold jump in E; repeat run_step; try split_if E; repeat run_step;
      open_state; any_slot i; repeat split; reflexivity.
  - unfold addTimelineDelay in E.
    split_if E; [inversion E; subst; repeat split; reflexivity|].
    destruct (counter s) as [|c|c] eqn:Hc;
      [ | destruct c as [[[c|c|]|[c|c|]|]|[[c|c|]|[c|c|]|]|] | ];
      try discriminate;
      unfold recountCurrentFrame in E;
      repeat run_step; split_if E; repeat run_step;
      open_state; any_slot i; repeat split; reflexivity.
Qed.

(** *** Storage *)

Lemma QSize_eqb_eq a b : QSize_eqb a b = true -> a = b.
Proof.
  destruct a, b. unfold QSize_eqb. cbn. intros H.
  apply andb_true_iff in H. destruct H as [Hw Hh].
  apply Z.eqb_eq in Hw, Hh. subst. reflexivity.
Qed.

Lemma Format_eqb_eq a b : Format_eqb a b = true -> a = b.
Proof. destruct a, b; cbn; intros H; (reflexivity || discriminate). Qed.

(** Painting over a storage that is good for a size gives what painting
    over a fresh one gives. *)
Lemma paint_storage (storage : QImage) sz px :
  isEmpty sz = false ->
  paint (if GoodStorageForFrame storage sz then storage
         else CreateFrameStorage sz) px
  = Some (mkImage kImageFormat sz true px).
Proof.
  intros He.
  destruct (GoodStorageForFrame storage sz) eqn:Hgood.
  - destruct storage as [d|]; [|discriminate]. cbn in Hgood.
    apply andb_true_iff in Hgood. destruct Hgood as [Hgood Hdet].
    apply andb_true_iff in Hgood. destruct Hgood as [Hfmt Hsz].
    apply Format_eqb_eq in Hfmt. apply QSize_eqb_eq in Hsz.
    destruct d as [fmt dsz det px0]. cbn in *. subst. reflexivity.
  - unfold CreateFrameStorage. rewrite He. reflexivity.
Qed.

(** X11.  [PrepareByRequest] is fatal for an empty box.  Otherwise, when
    [FrameRequest::size] gives a non-empty size, the result does not depend
    on the storage passed in (reused or not, it is overwritten): it is an
    image of that size in [kImageFormat] holding the original drawn at that
    size, recoloured if the request says so. *)
Theorem PrepareByRequest_result
    (orig : QImage) (req : FrameRequest) (storage : QImage) :
  (isEmpty (box req) = true ->
   PrepareByRequest orig req storage = Fatal ExpectsFailed)
  /\ (isEmpty (box req) = false ->
      isEmpty (request_size req (imageSize orig)) = false ->
      PrepareByRequest orig req storage
      = let sz := request_size req (imageSize orig) in
        let drawn := Some (mkImage kImageFormat sz true
                             (px_drawImage sz orig)) in
        match colored req with
        | Some c => Ok (prepareColored c drawn)
        | None => Ok drawn
        end).
Proof.
  unfold PrepareByRequest. split.
  - intros ->. reflexivity.
  - intros -> Hsz. cbn [negb check bind]. cbv zeta.
    rewrite paint_storage by exact Hsz. reflexivity.
Qed.

(** X12.  Without a cache, [renderFrame] in a valid state does not look at
    what the target image held: the image afterwards has the size asked for
    (the animation's own size for an empty box), the format [kImageFormat],
    and the pixels rlottie renders for the frame; the animation handle is
    created from the content if it was not there. *)
Theorem renderFrame_without_cache
    (s : State) (image : QImage) (req : FrameRequest) (idx : Z) :
  isValid s = true -> _cache s = None ->
  (isEmpty (box req) = false ->
   isEmpty (request_size req (_size s)) = false) ->
  renderFrame s image req idx
  = let sz := if isEmpty (box req) then _size s
              else request_size req (_size s) in
    let animation := match _animation s with
                     | Some a => a
                     | None => CreateFromContent (_content s)
                     end in
    (set_animation s (Some animation),
     Some (mkImage kImageFormat sz true (px_renderSync animation idx sz))).
Proof.
  intros Hv Hcache Hsize. unfold renderFrame. rewrite Hv. cbn [negb].
  assert (Hsz : isEmpty (if isEmpty (box req) then _size s
                         else request_size req (_size s)) = false).
  { destruct (isEmpty (box req)) eqn:Hb; [|apply Hsize; reflexivity].
    apply isValid_true in Hv. tauto. }
  cbv zeta. rewrite Hcache.
  set (sz := if isEmpty (box req) then _size s
             else request_size req (_size s)) in *.
  replace (set_cache s None) with s
    by (destruct s; cbn in Hcache; subst; reflexivity).
  rewrite paint_storage by exact Hsz. cbn [paint imageSize size].
  reflexivity.
Qed.

(** *** Construction *)

(** X7.  A source within the limits gives a valid state.  If the handle (or
    else the cache) reports a width and a height in [(0, kMaxSize)], a frame
    rate in [[1, kMaxFrameRate]] and a frame count in [(0, kMaxFramesCount]],
    [calculateProperties] succeeds, the state is valid, and [information()]
    gives back the size and the count reported and the rate cut down to an
    integer. *)
Theorem calculateProperties_accepts_a_source_in_range (s : State) :
  (_animation s <> None \/ _cache s <> None) ->
  0 < fst (reportedSize s) < kMaxSize ->
  0 < snd (reportedSize s) < kMaxSize ->
  (1 <= reportedRate s)%Q ->
  (reportedRate s <= inject_Z kMaxFrameRate)%Q ->
  0 < reportedCount s <= kMaxFramesCount ->
  exists s',
    calculateProperties s = Ok s'
    /\ isValid s' = true
    /\ information s'
       = mkInformation
           (mkQSize (fst (reportedSize s)) (snd (reportedSize s)))
           (Qfloor (reportedRate s)) (reportedCount s)
    /\ _frames s' = _frames s /\ counter s' = counter s.
Proof.
  intros Hsrc Hw Hh Hr1 Hr2 Hcount.
  unfold calculateProperties.
  assert (Hexp : match _animation s, _cache s with
                 | None, None => false
                 | _, _ => true
                 end = true).
  { destruct (_animation s), (_cache s); try reflexivity.
    destruct Hsrc as [H|H]; exfalso; apply H; reflexivity. }
  rewrite Hexp. cbn [check bind].
  destruct (reportedSize s) as [w h]. cbn [fst snd] in *.
  eexists. split; [reflexivity|].
  assert (Hwb : (0 <? w) && (w <? kMaxSize) = true).
  { apply andb_true_iff. rewrite !Z.ltb_lt. lia. }
  assert (Hhb : (0 <? h) && (h <? kMaxSize) = true).
  { apply andb_true_iff. rewrite !Z.ltb_lt. lia. }
  assert (Hcb : (0 <? reportedCount s)
                && (reportedCount s <=? kMaxFramesCount) = true).
  { apply andb_true_iff. rewrite Z.ltb_lt, Z.leb_le. lia. }
  assert (Hrate : rateToInt (reportedRate s) = Qfloor (reportedRate s)).
  { unfold rateToInt.
    apply Qle_bool_iff in Hr1, Hr2. rewrite Hr1, Hr2. reflexivity. }
  assert (Hpos : 0 < Qfloor (reportedRate s)).
  { pose proof (Qfloor_resp_le _ _ Hr1) as Hf.
    change (Qfloor 1) with 1 in Hf. lia. }
  rewrite Hwb, Hhb, Hcb, Hrate.
  assert (Hv : isValid
                 (set_properties s (mkQSize w h) (Qfloor (reportedRate s))
                    (reportedCount s)) = true).
  { apply isValid_true. destruct s; cbn.
    repeat split; try lia.
    unfold isEmpty. cbn. apply orb_false_iff. rewrite !Z.leb_gt. lia. }
  split; [exact Hv|]. unfold information. rewrite Hv. cbn [negb].
  destruct s; repeat split; reflexivity.
Qed.

(** What [construct] does to the object: the counter and the slots 1 to 3
    stay; slot 0 gets the request and a cover if the source is valid, and
    stays too if it is not. *)
Lemma construct_shape blank req s0 :
  construct blank req = Ok s0 ->
  counter s0 = counter blank
  /\ slot1 (_frames s0) = slot1 (_frames blank)
  /\ slot2 (_frames s0) = slot2 (_frames blank)
  /\ slot3 (_frames s0) = slot3 (_frames blank)
  /\ (isValid s0 = false -> slot0 (_frames s0) = slot0 (_frames blank))
  /\ (isValid s0 = true ->
      counter blank = kCounterUninitialized
      /\ exists cover,
           slot0 (_frames s0)
           = set_original (set_request (slot0 (_frames blank)) req) cover).
Proof.
  intros H. unfold construct in H.
  apply bind_Ok in H. destruct H as (s1 & Hcalc & H).
  assert (Hs1 : _frames s1 = _frames blank /\ counter s1 = counter blank).
  { unfold calculateProperties in Hcalc.
    apply bind_Ok in Hcalc. destruct Hcalc as (? & _ & Hcalc).
    destruct (reportedSize blank). inversion Hcalc; subst.
    destruct blank; split; reflexivity. }
  destruct Hs1 as [Hf1 Hc1]. rewrite <- Hf1, <- Hc1. clear Hf1 Hc1 Hcalc blank.
  destruct (isValid s1) eqn:Hv1; cbn [negb] in H.
  2:{ inversion H; subst. repeat split; try reflexivity; congruence. }
  set (taken := match _cache s1 with
                | Some c => let '(img, c') := cache_takeFirstFrame c in
                            (img, set_cache s1 (Some c'))
                | None => (None, s1)
                end) in H.
  assert (Ht : isValid (snd taken) = true
               /\ _frames (snd taken) = _frames s1
               /\ counter (snd taken) = counter s1).
  { subst taken. destruct (_cache s1) as [c|]; [|auto].
    destruct (cache_takeFirstFrame c) as [img c'].
    destruct s1; cbn in *; auto. }
  destruct taken as [cover s2]. cbn [snd] in Ht.
  destruct Ht as (Hv2 & Hf2 & Hc2).
  rewrite <- Hf2, <- Hc2. clear Hf2 Hc2 Hv1 s1.
  assert (Hinit : forall s3 cover3,
            isValid s3 = true -> _frames s3 = _frames s2 ->
            counter s3 = counter s2 ->
            init s3 cover3 req = Ok s0 ->
            counter s0 = counter s2
            /\ slot1 (_frames s0) = slot1 (_frames s2)
            /\ slot2 (_frames s0) = slot2 (_frames s2)
            /\ slot3 (_frames s0) = slot3 (_frames s2)
            /\ (isValid s0 = false ->
                slot0 (_frames s0) = slot0 (_frames s2))
            /\ (isValid s0 = true ->
                counter s2 = kCounterUninitialized
                /\ exists cover,
                     slot0 (_frames s0)
                     = set_original (set_request (slot0 (_frames s2)) req)
                         cover)).
  { intros s3 cover3 Hv3 Hf3 Hc3 Hi. unfold init in Hi.
    apply bind_Ok in Hi. destruct Hi as ([] & Hun & Hi).
    apply check_Ok in Hun. unfold initialized in Hun.
    apply negb_true_iff, negb_false_iff, Z.eqb_eq in Hun.
    inversion Hi; subst s0; clear Hi.
    rewrite <- Hf3, <- Hc3.
    destruct s3 as [? ? ? [f0 f1 f2 f3] ? ? ? ? ? ? ? ? ?]; cbn in *.
    unfold isValid in *.
    repeat split; intros; cbn in *; try reflexivity; try congruence.
    eexists; reflexivity. }
  destruct (isNull cover) eqn:Hcover; cbn [negb] in H.
  - set (s3 := match _cache s2 with
               | Some c => set_cache s2 (Some (cache_init c (_size s2)
                             (_frameRate s2) (_framesCount s2) req))
               | None => s2
               end) in H.
    assert (Hs3 : isValid s3 = true /\ _frames s3 = _frames s2
                  /\ counter s3 = counter s2).
    { subst s3. destruct (_cache s2); [|auto]. destruct s2; cbn in *; auto. }
    destruct Hs3 as (Hv3 & Hf3 & Hc3). clearbody s3.
    destruct (renderFrame_state s3 cover req 0) as (a & c & Hst).
    destruct (renderFrame s3 cover req 0) as [s4 cover'].
    cbn [fst] in Hst. subst s4.
    eapply Hinit; [| | |exact H]; destruct s3; cbn in *; assumption.
  - eapply Hinit; [exact Hv2|reflexivity|reflexivity|exact H].
Qed.

(** X8.  [construct] needs a decode handle or a cache: with neither it is
    fatal.  When it returns it has not started the machine (the counter is
    as before) and has left the slots 1 to 3 alone; a valid source gets its
    request and a cover written into slot 0, which requires the object not
    to be initialised yet; an invalid source leaves slot 0 alone as well. *)
Theorem construct_only_fills_slot_0
    (blank : State) (req : FrameRequest) :
  (_animation blank = None -> _cache blank = None ->
   construct blank req = Fatal ExpectsFailed)
  /\ forall s0,
       construct blank req = Ok s0 ->
       counter s0 = counter blank
       /\ slot1 (_frames s0) = slot1 (_frames blank)
       /\ slot2 (_frames s0) = slot2 (_frames blank)
       /\ slot3 (_frames s0) = slot3 (_frames blank)
       /\ (isValid s0 = false ->
           slot0 (_frames s0) = slot0 (_frames blank))
       /\ (isValid s0 = true ->
           counter blank = kCounterUninitialized
           /\ request (slot0 (_frames s0)) = req
           /\ displayed (slot0 (_frames s0))
              = displayed (slot0 (_frames blank))).
Proof.
  split.
  - intros Ha Hc. unfold construct, calculateProperties.
    rewrite Ha, Hc. reflexivity.
  - intros s0 H. apply construct_shape in H.
    destruct H as (Hc & H1 & H2 & H3 & Hinv & Hval).
    repeat split; try assumption.
    + apply Hval; assumption.
    + destruct (Hval H) as (_ & cover & ->). reflexivity.
    + destruct (Hval H) as (_ & cover & ->). reflexivity.
Qed.

(** X19.  An invalid state cannot render.  After [construct] on a source
    that turned out invalid and [start], with the slots still empty as a
    fresh object has them, the first [renderNextFrame] is fatal: it stops on
    [Expects(_framesCount > 0)] or on the check that the frame has an
    image. *)
Theorem renderNextFrame_is_fatal_on_an_invalid_state
    (blank s0 : State) (req req' : FrameRequest)
    (owner : Player) (started delay skippedFrames : Z) :
  FreshSlots blank ->
  isNull (original (slot1 (_frames blank))) = true ->
  construct blank req = Ok s0 ->
  isValid s0 = false ->
  renderNextFrame (start s0 owner started delay skippedFrames) req'
  = Fatal ExpectsFailed.
Proof.
  intros (_ & F1 & _) Hnull Hc Hv.
  apply construct_shape in Hc. destruct Hc as (_ & H1 & _).
  rewrite <- H1 in F1, Hnull. clear H1 blank.
  set (s := start s0 owner started delay skippedFrames).
  assert (Hs : counter s = 0 /\ frameAt s 1 = slot1 (_frames s0)
               /\ isValid (set_frameIndex s (_frameIndex s + 1)) = false
               /\ _framesCount s = _framesCount s0).
  { subst s. destruct s0. repeat split. exact Hv. }
  destruct Hs as (Hc & Hf & Hv' & Hfc). clearbody s.
  unfold renderNextFrame. rewrite Hc. unfold present.
  rewrite frameAt_getFrame by (unfold kFramesCount; lia). cbn [bind].
  rewrite Hf. unfold IsRendered. apply Z.eqb_neq in F1. rewrite F1.
  cbn [negb]. unfold renderNextFrameInto.
  rewrite frameAt_getFrame by (unfold kFramesCount; lia). cbn [bind].
  destruct (0 <? _framesCount s); [|reflexivity]. cbn [check bind].
  cbv zeta. unfold renderFrame. rewrite Hv'. cbn [negb].
  unfold PrepareFrameByRequest. rewrite Hf. cbn. rewrite Hnull. reflexivity.
Qed.

(** *** How far the producer runs ahead *)

Lemma render_even s req s' r :
  Z.even (counter s) = true -> renderNextFrame s req = Ok (s', r) ->
  Z.odd (counter s') = true /\ rendered r = true
  /\ _frameIndex s' <= _frameIndex s + 1.
Proof.
  intros Heven E. open_render E; open_into; open_state;
    cbn in *; subst; try discriminate;
    repeat match goal with
    | H : Ok _ = Ok _ |- _ => inversion H; clear H; subst
    end; cbn; repeat split; lia.
Qed.

Lemma render_odd s req s' r :
  Z.odd (counter s) = true -> renderNextFrame s req = Ok (s', r) ->
  counter s' = counter s
  /\ 0 <= aheadFree s <= 2
  /\ _frameIndex s' <= _frameIndex s + 1
  /\ ((rendered r = false /\ s' = s /\ aheadFree s = 0)
      \/ (rendered r = true /\ aheadFree s' = aheadFree s - 1)).
Proof.
  intros Hodd E. open_render E; open_into; open_state;
    cbn in *; subst; try discriminate;
    repeat match goal with
    | H : Ok _ = Ok _ |- _ => inversion H; clear H; subst
    end;
    unfold aheadFree; cbn;
    repeat match goal with
    | H : IsRendered _ = _ |- _ => rewrite H
    | H : displayed ?f = kTimeUnknown |- _ =>
        assert (IsRendered f = true) by (apply Z.eqb_eq; exact H);
        clear H
    end;
    cbn.
  all: repeat match goal with
       | |- context [IsRendered ?f] => destruct (IsRendered f)
       end; cbn.
  all: split; [reflexivity|]; split; [lia|]; split; [lia|];
       first [ left; repeat split; reflexivity
             | right; split; reflexivity ].
Qed.

Lemma render_full s req :
  0 <= counter s < 2 * kFramesCount -> Z.odd (counter s) = true ->
  aheadFree s = 0 ->
  renderNextFrame s req = Ok (s, mkRenderResult false None).
Proof.
  intros Hc Hodd Hfull. unfold renderNextFrame, aheadFree in *.
  eight Hc; rewrite Hc in *; try discriminate; unfold prerender;
    cbn in Hfull |- *;
    repeat match goal with
    | H : context [IsRendered ?f] |- _ =>
        destruct (IsRendered f); try discriminate
    end; reflexivity.
Qed.

Lemma render_counter s req s' r :
  renderNextFrame s req = Ok (s', r) -> 0 <= counter s < 2 * kFramesCount.
Proof.
  intros E. unfold renderNextFrame, kFramesCount in *.
  destruct (counter s) as [|c|c];
    [ | destruct c as [[[c|c|]|[c|c|]|]|[[c|c|]|[c|c|]|]|] | ];
    try discriminate; lia.
Qed.

Lemma aheadFree_range s : 0 <= aheadFree s <= 2.
Proof.
  unfold aheadFree.
  destruct (IsRendered _); destruct (IsRendered _); lia.
Qed.

(** From an odd phase the producer stops after two more decodes. *)
Lemma render_odd_twice s req1 req2 s1 s2 r1 r2 :
  Z.odd (counter s) = true ->
  renderNextFrame s req1 = Ok (s1, r1) ->
  renderNextFrame s1 req2 = Ok (s2, r2) ->
  Z.odd (counter s2) = true /\ aheadFree s2 = 0
  /\ 0 <= counter s2 < 2 * kFramesCount
  /\ _frameIndex s2 <= _frameIndex s + 2.
Proof.
  intros Hodd E1 E2.
  pose proof (render_counter _ _ _ _ E1) as Hc.
  destruct (render_odd _ _ _ _ Hodd E1) as (Hc1 & Hr & Hi1 & Hcase1).
  assert (Hodd1 : Z.odd (counter s1) = true) by (rewrite Hc1; exact Hodd).
  destruct (render_odd _ _ _ _ Hodd1 E2) as (Hc2 & Hr1 & Hi2 & Hcase2).
  rewrite Hc2, Hc1. split; [exact Hodd|].
  split; [|split; [exact Hc | lia]].
  pose proof (aheadFree_range s2) as Hr2.
  destruct Hcase1 as [(_ & -> & H0)|(_ & H1)];
    destruct Hcase2 as [(_ & -> & H0')|(_ & H1')]; lia.
Qed.

(** X4.  The producer runs ahead of the consumer by a bounded number of
    frames.  Of four calls of [renderNextFrame] in a row, with no consumer
    call in between and whatever the requests, the first three decode at
    most three frames, and the fourth finds nothing to do: it returns
    [rendered = false] with no owner to notify and leaves the state as it
    is. *)
Theorem renderNextFrame_stops_after_three_in_a_row
    (s s1 s2 s3 : State) (req1 req2 req3 req4 : FrameRequest)
    (r1 r2 r3 : RenderResult) :
  renderNextFrame s req1 = Ok (s1, r1) ->
  renderNextFrame s1 req2 = Ok (s2, r2) ->
  renderNextFrame s2 req3 = Ok (s3, r3) ->
  renderNextFrame s3 req4 = Ok (s3, mkRenderResult false None)
  /\ _frameIndex s3 <= _frameIndex s + 3.
Proof.
  intros E1 E2 E3.
  destruct (Z.odd (counter s)) eqn:Hodd.
  - destruct (render_odd_twice _ _ _ _ _ _ _ Hodd E1 E2)
      as (Hodd2 & Hfull2 & Hc2 & Hi2).
    destruct (render_odd _ _ _ _ Hodd2 E3) as (Hc3 & _ & Hi3 & Hcase).
    pose proof (aheadFree_range s3) as Hr3.
    destruct Hcase as [(_ & -> & _)|(_ & H1)]; [|lia].
    split; [apply render_full; assumption | lia].
  - assert (Heven : Z.even (counter s) = true)
      by (rewrite <- Z.negb_odd, Hodd; reflexivity).
    destruct (render_even _ _ _ _ Heven E1) as (Hodd1 & _ & Hi1).
    destruct (render_odd_twice _ _ _ _ _ _ _ Hodd1 E2 E3)
      as (Hodd3 & Hfull3 & Hc3 & Hi3).
    split; [apply render_full; assumption | lia].
Qed.

(** *** Handing a frame over *)

Lemma frameForPaint_Inv s :
  Inv true s ->
  frameForPaint s = Ok (counter s ÷ 2, frameAt s (counter s ÷ 2))
  /\ isNull (original (frameAt s (counter s ÷ 2))) = false
  /\ displayed (frameAt s (counter s ÷ 2)) <> kTimeUnknown.
Proof.
  intros [_ H].
  destruct s as [ct an ca [f0 f1 f2 f3] cn ow st de sk fi fc fr sz].
  unfold frameForPaint, counter in *.
  cbn [_counter _frames slot0 slot1 slot2 slot3] in *.
  counter_cases cn; cbn;
    unfold RingInv, shown, hasImage in H;
    destruct H as (Hs & Hi & _); specialize (Hi eq_refl);
    rewrite Hi; cbn;
    match goal with
    | |- context [displayed ?f =? kTimeUnknown] =>
        destruct (Z.eqb_spec (displayed f) kTimeUnknown) as [E|E];
        [contradiction|]
    end; cbn; auto.
Qed.

Lemma markFrameShown_odd s :
  0 <= counter s < 2 * kFramesCount -> Z.odd (counter s) = true ->
  markFrameShown s =
    if displayed (pendingFrame s) =? kTimeUnknown then Ok (s, false)
    else Ok (set_counter s (Z.rem (counter s + 1) (2 * kFramesCount)), true).
Proof.
  intros Hc Hodd. unfold markFrameShown, pendingFrame.
  eight Hc; rewrite Hc in *; try discriminate; reflexivity.
Qed.

Lemma frameAt_set_counter s c i : frameAt (set_counter s c) i = frameAt s i.
Proof. destruct s; reflexivity. Qed.

(** In an odd phase the consumer can always go on: mark, then show. *)
Lemma display_then_show s now :
  0 <= counter s < 2 * kFramesCount -> Z.odd (counter s) = true ->
  now <> kTimeUnknown ->
  exists s1,
    markFrameDisplayed s now = Ok s1
    /\ counter s1 = counter s
    /\ markFrameShown s1
       = Ok (set_counter s1 (Z.rem (counter s + 1) (2 * kFramesCount)), true)
    /\ displayed (pendingFrame s1)
       = (if displayed (pendingFrame s) =? kTimeUnknown then now
          else displayed (pendingFrame s))
    /\ original (pendingFrame s1) = original (pendingFrame s)
    /\ index (pendingFrame s1) = index (pendingFrame s).
Proof.
  intros Hc Hodd Hnow.
  rewrite markFrameDisplayed_odd by assumption.
  destruct (Z.eqb_spec (displayed (pendingFrame s)) kTimeUnknown) as [Hw|Hw].
  - eexists. split; [reflexivity|].
    assert (Hc' : counter (setFrame s (nextIndex (counter s))
                            (set_displayed (pendingFrame s) now)) = counter s)
      by apply counter_setFrame.
    split; [exact Hc'|].
    rewrite markFrameShown_odd by (rewrite Hc'; assumption).
    rewrite Hc'. rewrite pendingFrame_setFrame by exact Hc.
    cbn [displayed set_displayed original index].
    destruct (Z.eqb_spec now kTimeUnknown); [contradiction|].
    repeat split; reflexivity.
  - exists s. split; [reflexivity|]. split; [reflexivity|].
    rewrite markFrameShown_odd by assumption.
    destruct (Z.eqb_spec (displayed (pendingFrame s)) kTimeUnknown);
      [contradiction|].
    repeat split; reflexivity.
Qed.

(** X3.  Marking and showing hand the pending frame to the painter.  In a
    reachable odd phase, [markFrameDisplayed(now)] followed by
    [markFrameShown()] succeeds, returns true and stores the next counter
    value; from then on [frameForPaint] returns the frame that was pending,
    with its image and index as decoded and with the display mark it got
    first. *)
Theorem marked_and_shown_frame_is_painted (s : State) (now : Z) :
  SizeContract -> CacheContract -> Reachable s ->
  Z.odd (counter s) = true -> now <> kTimeUnknown ->
  exists s1 s2 frame,
    markFrameDisplayed s now = Ok s1
    /\ markFrameShown s1 = Ok (s2, true)
    /\ counter s2 = Z.rem (counter s + 1) (2 * kFramesCount)
    /\ frameForPaint s2 = Ok (nextIndex (counter s), frame)
    /\ original frame = original (pendingFrame s)
    /\ index frame = index (pendingFrame s)
    /\ displayed frame
       = (if displayed (pendingFrame s) =? kTimeUnknown then now
          else displayed (pendingFrame s)).
Proof.
  intros Hsize Hcache Hreach Hodd Hnow.
  assert (HI : Inv true s) by (apply Inv_Reachable; auto).
  pose proof (Inv_counter true s HI) as Hc.
  destruct (display_then_show s now Hc Hodd Hnow)
    as (s1 & Hd & Hc1 & Hs & Hdisp & Horig & Hidx).
  pose proof (Inv_displayed true s now s1 HI Hd) as HI1.
  pose proof (Inv_shown true s1 _ _ HI1 Hs) as HI2.
  destruct (frameForPaint_Inv _ HI2) as (Hp & _).
  exists s1, (set_counter s1 (Z.rem (counter s + 1) (2 * kFramesCount))),
    (pendingFrame s1).
  split; [exact Hd|]. split; [exact Hs|].
  assert (Hc2 : counter (set_counter s1
                           (Z.rem (counter s + 1) (2 * kFramesCount)))
                = Z.rem (counter s + 1) (2 * kFramesCount))
    by (destruct s1; reflexivity).
  split; [exact Hc2|].
  rewrite Hc2, frameAt_set_counter in Hp.
  unfold pendingFrame at 1. rewrite Hc1.
  split; [exact Hp|]. auto.
Qed.

(** X13.  Producer and consumer never both wait.  In every reachable state
    either [renderNextFrame] does work (it returns [rendered = true]), or
    the consumer can mark the pending frame and [markFrameShown] returns
    true.  So the hand-over cannot come to a standstill. *)
Theorem producer_or_consumer_can_step
    (s : State) (req : FrameRequest) (now : Z) :
  SizeContract -> CacheContract -> Reachable s -> now <> kTimeUnknown ->
  (exists s' r, renderNextFrame s req = Ok (s', r) /\ rendered r = true)
  \/ (exists s1 s2,
        markFrameDisplayed s now = Ok s1
        /\ markFrameShown s1 = Ok (s2, true)).
Proof.
  intros Hsize Hcache Hreach Hnow.
  assert (HI : Inv true s) by (apply Inv_Reachable; auto).
  pose proof (Inv_counter true s HI) as Hc.
  destruct (Z.odd (counter s)) eqn:Hodd.
  - right. destruct (display_then_show s now Hc Hodd Hnow)
      as (s1 & Hd & _ & Hs & _).
    eauto.
  - left. destruct HI as [Hv _].
    destruct (renderNextFrame_succeeds s req Hsize Hcache Hv Hc)
      as (s' & r & E).
    exists s', r. split; [exact E|].
    assert (Heven : Z.even (counter s) = true)
      by (rewrite <- Z.negb_odd, Hodd; reflexivity).
    apply (render_even _ _ _ _ Heven E).
Qed.

(** *** From the constructor to the first frame *)

(** X9.  [append] seeds the entry with the request the state was built
    for.  For a valid state, constructed for [req] and started, [append]
    succeeds, puts the state at the end of the entries with [req] as its
    request, keeps the entries already there, and leaves a pass posted. *)
Theorem append_seeds_the_constructor_request
    (blank s0 : State) (req : FrameRequest)
    (owner : Player) (started delay skippedFrames : Z)
    (r : FrameRendererObject) :
  SizeContract -> CacheContract -> FreshSlots blank ->
  construct blank req = Ok s0 -> isValid s0 = true ->
  exists r',
    append r (start s0 owner started delay skippedFrames) = Ok r'
    /\ _entries r'
       = _entries r
         ++ [mkEntry (start s0 owner started delay skippedFrames) req]
    /\ _queued r' = true.
Proof.
  intros Hsize Hcache Hfresh Hc Hv.
  assert (HI : Inv true (start s0 owner started delay skippedFrames)).
  { apply Inv_Started; [auto|]. econstructor; eauto. }
  destruct (frameForPaint_Inv _ HI) as (Hp & _).
  apply construct_shape in Hc. destruct Hc as (_ & _ & _ & _ & _ & Hval).
  destruct (Hval Hv) as (_ & cover & Hslot).
  unfold append. rewrite Hp. cbn [bind snd].
  assert (Hreq : request (frameAt (start s0 owner started delay skippedFrames)
                            (counter (start s0 owner started delay
                                        skippedFrames) ÷ 2)) = req).
  { destruct s0. cbn in Hslot |- *. rewrite Hslot. reflexivity. }
  rewrite Hreq. eexists. split; [reflexivity|].
  unfold queueGenerateFrames. cbn.
  destruct (_queued r) eqn:Hq; cbn; auto.
Qed.

(** X10.  The first frame after [start].  On a valid state just started,
    the first [renderNextFrame] decodes into slot 1, stores counter 1 and
    reports the owner given to [start].  The frame gets the index after the
    one the object held, is not displayed, and, the arguments of [start]
    being a [crl::time], a [crl::time] and an [int] and no addition
    overflowing, is due at
    [started + delay + 1000 (skippedFrames + index) / frameRate], with the
    values given to [start]; the next poll returns that time unless it is
    [kTimeUnknown]. *)
Theorem first_frame_after_start
    (blank s0 : State) (req0 req : FrameRequest)
    (owner : Player) (started delay skippedFrames : Z) :
  SizeContract -> CacheContract -> FreshSlots blank ->
  construct blank req0 = Ok s0 -> isValid s0 = true ->
  fitsTime started -> fitsTime delay -> fitsInt skippedFrames ->
  fitsInt (skippedFrames + (_frameIndex s0 + 1)) ->
  fitsTime (started + delay) ->
  fitsTime (started + delay
            + (1000 * (skippedFrames + (_frameIndex s0 + 1)))
              ÷ _frameRate s0) ->
  exists s',
    renderNextFrame (start s0 owner started delay skippedFrames) req
    = Ok (s', mkRenderResult true (Some owner))
    /\ counter s' = 1
    /\ _frameIndex s' = _frameIndex s0 + 1
    /\ index (slot1 (_frames s')) = _frameIndex s0 + 1
    /\ displayed (slot1 (_frames s')) = kTimeUnknown
    /\ request (slot1 (_frames s')) = req
    /\ display (slot1 (_frames s'))
       = started + delay
         + (1000 * (skippedFrames + (_frameIndex s0 + 1))) ÷ _frameRate s0
    /\ (display (slot1 (_frames s')) <> kTimeUnknown ->
        nextFrameDisplayTime s' = Ok (display (slot1 (_frames s')))).
Proof.
  intros Hsize Hcache Hfresh Hc Hv Hfs Hfd Hfk Hsum Hsd Hall.
  set (s := start s0 owner started delay skippedFrames).
  assert (Hvs : isValid s = true) by (subst s; destruct s0; exact Hv).
  assert (Hcs : 0 <= counter s < 2 * kFramesCount)
    by (subst s; cbn; lia).
  destruct (renderNextFrame_succeeds s req Hsize Hcache Hvs Hcs)
    as (s' & r & E).
  exists s'.
  apply construct_shape in Hc. destruct Hc as (_ & H1 & _).
  destruct Hfresh as (_ & F1 & _). rewrite <- H1 in F1. clear H1 blank.
  assert (Hfree : IsRendered (slot1 (_frames s0)) = false)
    by (apply Z.eqb_neq; exact F1).
  pose proof E as E'.
  unfold renderNextFrame in E'. subst s.
  change (counter (start s0 owner started delay skippedFrames)) with 0 in E'.
  unfold present in E'.
  apply bind_Ok in E'. destruct E' as (x & Hx & E').
  assert (x = slot1 (_frames s0))
    by (clear - Hx; destruct s0; cbn in *; congruence).
  subst x. rewrite Hfree in E'. cbn [negb] in E'.
  apply bind_Ok in E'. destruct E' as (s1 & Hs1 & E').
  apply bind_Ok in E'. destruct E' as (y & Hy & E').
  apply renderNextFrameInto_spec in Hs1.
  destruct Hs1 as (old & a & c & f & _ & -> & _ & Hd & Hi & _ & Hq & _).
  destruct s0 as [ct an ca [f0 f1 f2 f3] cn ow st de sk fi fc fr sz].
  cbn [_frameIndex _frameRate] in Hsum, Hall.
  cbn in Hy, E', Hi. inversion Hy; subst y; clear Hy.
  inversion E'; subst s' r; clear E'.
  rewrite E. split; [reflexivity|].
  cbn -[countFrameDisplayTime].
  split; [reflexivity|]. split; [reflexivity|]. split; [exact Hi|].
  split; [exact Hd|]. split; [exact Hq|].
  assert (Htime : forall s1,
            _started s1 = asTime started -> _delay s1 = asTime delay ->
            _skippedFrames s1 = asInt skippedFrames -> _frameRate s1 = fr ->
            countFrameDisplayTime s1 (index f)
            = started + delay + (1000 * (skippedFrames + (fi + 1))) ÷ fr).
  { intros s1 H1 H2 H3 H4.
    rewrite (asTime_fits _ Hfs) in H1. rewrite (asTime_fits _ Hfd) in H2.
    rewrite (asInt_fits _ Hfk) in H3.
    rewrite countFrameDisplayTime_exact;
      unfold noOverflow; rewrite H1, H2, H3, H4, Hi;
      [reflexivity|].
    split; [exact Hsum|]. split; [exact Hsd|exact Hall]. }
  rewrite Htime by reflexivity. split; [reflexivity|].
  intros Hne. unfold nextFrameDisplayTime, frameDisplayTime, IsRendered.
  cbn -[countFrameDisplayTime]. rewrite Hd, Z.eqb_refl.
  cbn [negb check bind]. cbn in Hne.
  apply Z.eqb_neq in Hne. rewrite Hne. reflexivity.
Qed.

(** *** No frame is skipped *)

Ltac line_solve :=
  unfold RingInv, Queue, RingLine, Lined, waiting, shown, hasImage,
    countFrameDisplayTime in *;
  cbn in *;
  intuition (try congruence; try lia).

Lemma Line_exec op s s' :
  Inv false s -> Line s -> exec op s = Ok s' -> Line s'.
Proof.
  intros [Hv H] HL E.
  destruct s as [ct an ca [f0 f1 f2 f3] cn ow st de sk fi fc fr sz].
  destruct op as [req|now| |d k]; cbn [exec] in E.
  - apply bind_Ok in E. destruct E as ([s1 r] & E & E'). inversion E'; subst.
    clear E'. cbn [fst].
    unfold Inv, Line, renderNextFrame, counter in *.
    cbn [_counter _frames slot0 slot1 slot2 slot3] in *.
    counter_cases cn; unfold present, prerender in E;
      repeat run_step; rendered_facts; cbn in *; line_solve.
  - unfold Inv, Line, markFrameDisplayed, counter in *.
    cbn [_counter _frames slot0 slot1 slot2 slot3] in *.
    counter_cases cn; try discriminate; unfold mark in E;
      repeat run_step; split_if E; repeat run_step; rendered_facts;
      cbn in *; line_solve.
  - apply bind_Ok in E. destruct E as ([s1 r] & E & E'). inversion E'; subst.
    clear E'. cbn [fst].
    unfold Inv, Line, markFrameShown, counter in *.
    cbn [_counter _frames slot0 slot1 slot2 slot3] in *.
    counter_cases cn; unfold jump in E;
      repeat run_step; try split_if E; repeat run_step; rendered_facts;
      cbn in *; line_solve.
  - unfold Inv, Line, addTimelineDelay, counter in *.
    cbn [_counter _frames slot0 slot1 slot2 slot3] in *.
    split_if E; [inversion E; subst; assumption|].
    counter_cases cn; try discriminate; unfold recountCurrentFrame in E;
      repeat run_step; split_if E; repeat run_step; rendered_facts;
      cbn in *; line_solve.
Qed.

Lemma Line_run ops : forall s s',
  Inv false s -> Line s -> run ops s = Ok s' -> Line s'.
Proof.
  induction ops as [|op ops IH]; cbn; intros s s' HI HL E.
  - inversion E; subst; assumption.
  - apply bind_Ok in E. destruct E as (s1 & E1 & E).
    eapply IH; [eapply Inv_exec | eapply Line_exec |]; eassumption.
Qed.

Lemma Line_Reachable s : Reachable s -> Line s.
Proof.
  intros (s1 & ops & Hs & Hr).
  assert (HI : Inv false s1) by (apply Inv_Started; [discriminate|exact Hs]).
  eapply Line_run; [exact HI| |exact Hr].
  destruct Hs as [blank s0 req owner started delay skipped Hfresh Hc Hv ->].
  destruct (construct_spec _ _ _ Hc Hv) as (_ & H0 & H1 & H2 & H3).
  destruct Hfresh as (F0 & F1 & F2 & F3).
  rewrite <- H1 in F1. rewrite <- H2 in F2.
  destruct s0 as [? ? ? [f0 f1 f2 f3] ? ? ? ? ? ? ? ? ?].
  cbn in *. unfold RingLine, Lined, waiting. tauto.
Qed.

(** X14.  No decoded frame is skipped or shown twice.  In a reachable odd
    phase, once the pending frame is shown, the frame the producer presents
    next carries the index that follows: the running indices of the frames
    presented go up by exactly one each time, whether the next frame was
    decoded ahead or is decoded by that call. *)
Theorem presented_indices_go_up_by_one
    (s s1 s2 : State) (req : FrameRequest) (r : RenderResult) :
  Reachable s -> Z.odd (counter s) = true ->
  markFrameShown s = Ok (s1, true) ->
  renderNextFrame s1 req = Ok (s2, r) ->
  Z.odd (counter s2) = true
  /\ index (pendingFrame s2) = index (pendingFrame s) + 1.
Proof.
  intros Hreach Hodd Hshown E.
  assert (HI : Inv false s) by (apply Inv_Reachable; [discriminate|assumption]).
  pose proof (Line_Reachable s Hreach) as HL.
  destruct HI as [_ H]. clear Hreach.
  destruct s as [ct an ca [f0 f1 f2 f3] cn ow st de sk fi fc fr sz].
  unfold Line, markFrameShown, pendingFrame, counter in *.
  cbn [_counter _frames slot0 slot1 slot2 slot3] in *.
  counter_cases cn; try discriminate; unfold jump in Hshown;
    repeat run_step; split_if Hshown; repeat run_step;
    unfold renderNextFrame, counter, set_counter in E;
    cbn [_content _animation _cache _frames _counter _owner _started _delay
         _skippedFrames _frameIndex _framesCount _frameRate _size] in E;
    match type of E with
    | context [Z.rem ?a ?b] =>
        let v := eval vm_compute in (Z.rem a b) in
        change (Z.rem a b) with v in E
    end;
    cbv iota in E; unfold present in E;
    repeat run_step; rendered_facts; cbn in *;
    (split; [reflexivity|]); line_solve.
Qed.

(** *** One pass of the scheduler *)

Lemma idle_iff s :
  idle s = true <->
  0 <= counter s < 2 * kFramesCount /\ Z.odd (counter s) = true
  /\ aheadFree s = 0.
Proof.
  unfold idle.
  rewrite !andb_true_iff, Z.leb_le, Z.ltb_lt, Z.eqb_eq. tauto.
Qed.

Lemma render_notify s req s' r :
  renderNextFrame s req = Ok (s', r) ->
  notify r = (if Z.even (counter s) then _owner s else None)
  /\ (Z.even (counter s) = true -> rendered r = true)
  /\ (rendered r = false -> s' = s).
Proof.
  intros E.
  destruct (Z.even (counter s)) eqn:Heven.
  - destruct (render_even _ _ _ _ Heven E) as (_ & Hr & _).
    split; [|split; [auto | congruence]].
    clear Hr. open_render E; open_into; open_state;
      cbn in *; subst; try discriminate;
      repeat match goal with
      | H : Ok _ = Ok _ |- _ => inversion H; clear H; subst
      end; reflexivity.
  - assert (Hodd : Z.odd (counter s) = true)
      by (rewrite <- Z.negb_even, Heven; reflexivity).
    destruct (render_odd _ _ _ _ Hodd E) as (_ & _ & _ & Hcase).
    split; [|split; [discriminate|]].
    + clear Hcase. open_render E; open_into; open_state;
        cbn in *; subst; try discriminate;
        repeat match goal with
        | H : Ok _ = Ok _ |- _ => inversion H; clear H; subst
        end; reflexivity.
    + destruct Hcase as [(_ & -> & _)|(Ht & _)]; [reflexivity|congruence].
Qed.

Lemma emplace_In p x players :
  In x (emplace p players) <-> x = p \/ In x players.
Proof.
  induction players as [|q rest IH]; cbn.
  - intuition.
  - destruct (p <? q); [cbn; intuition|].
    destruct (Z.eqb_spec p q) as [->|Hne]; cbn; [intuition|].
    rewrite IH. intuition.
Qed.

Lemma increasing_cons p players :
  increasing (p :: players) <->
  (forall x, In x players -> p < x) /\ increasing players.
Proof.
  revert p. induction players as [|q rest IH]; intros p.
  - cbn. intuition.
  - change (increasing (p :: q :: rest))
      with (p < q /\ increasing (q :: rest)).
    rewrite (IH q). cbn [In]. split.
    + intros (Hpq & Hq & Hrest). split; [|split; assumption].
      intros x [<-|Hx]; [exact Hpq|]. specialize (Hq x Hx). lia.
    + intros (Hall & Hq & Hrest).
      split; [apply Hall; left; reflexivity|]. split; assumption.
Qed.

Lemma emplace_increasing p players :
  increasing players -> increasing (emplace p players).
Proof.
  induction players as [|q rest IH]; intros Hinc.
  - cbn. auto.
  - cbn [emplace].
    destruct (Z.ltb_spec p q) as [Hlt|Hge].
    + apply increasing_cons. apply increasing_cons in Hinc.
      destruct Hinc as [Hq Hrest]. split.
      * intros x [<-|Hx]; [exact Hlt|]. specialize (Hq x Hx). lia.
      * apply increasing_cons. auto.
    + destruct (Z.eqb_spec p q) as [->|Hne]; [exact Hinc|].
      apply increasing_cons in Hinc. destruct Hinc as [Hq Hrest].
      apply increasing_cons. split; [|auto].
      intros x Hx. apply emplace_In in Hx.
      destruct Hx as [->|Hx]; [lia | auto].
Qed.

(** What [renderEntries] returns, entry by entry. *)
Lemma renderEntries_spec entries : forall players entries' players' n,
  renderEntries entries players = Ok (entries', players', n) ->
  Forall2 advanced entries entries'
  /\ (increasing players -> increasing players')
  /\ (forall p,
        In p players' <->
        In p players
        \/ exists e, In e entries
                     /\ Z.even (counter (entry_state e)) = true
                     /\ _owner (entry_state e) = Some p)
  /\ 0 <= n
  /\ (n = 0 <-> forallb (fun e => idle (entry_state e)) entries = true)
  /\ (n = 0 -> entries' = entries /\ players' = players).
Proof.
  induction entries as [|e rest IH];
    intros players entries' players' n H; cbn [renderEntries] in H.
  - inversion H; subst. cbn. repeat split; auto; try lia.
    + intros [Hp|(e & [] & _)]; exact Hp.
  - apply bind_Ok in H. destruct H as ([[e1 ps1] ok] & Hone & H).
    apply bind_Ok in H. destruct H as ([[rest' ps2] m] & Hmore & H).
    cbn [fst snd] in H, Hmore. inversion H; subst entries' players' n.
    clear H.
    unfold renderOne in Hone.
    apply bind_Ok in Hone. destruct Hone as ([s1 r] & E & Hone).
    cbn [fst snd] in Hone. inversion Hone; subst e1 ps1 ok. clear Hone.
    destruct (IH _ _ _ _ Hmore) as (Hadv & Hinc & Hin & Hm & Hzero & Hsame).
    destruct (render_notify _ _ _ _ E) as (Hnot & Hev & Hfalse).
    split; [|split; [|split; [|split; [|split]]]].
    + constructor; [|exact Hadv]. split; [reflexivity|].
      exists r. exact E.
    + intros Hp. apply Hinc. destruct (notify r); [|exact Hp].
      apply emplace_increasing. exact Hp.
    + intros p. rewrite Hin. rewrite Hnot.
      destruct (Z.even (counter (entry_state e))) eqn:Heven.
      * destruct (_owner (entry_state e)) as [q|] eqn:Hown.
        -- rewrite emplace_In. split.
           ++ intros [[->|Hp]|(e2 & He2 & H2)]; auto.
              ** right. exists e. cbn. auto.
              ** right. exists e2. cbn. auto.
           ++ intros [Hp|(e2 & [<-|He2] & H2e & H2o)]; auto.
              ** left. left. congruence.
              ** right. exists e2. auto.
        -- split.
           ++ intros [Hp|(e2 & He2 & H2)]; auto.
              right. exists e2. cbn. auto.
           ++ intros [Hp|(e2 & [<-|He2] & H2e & H2o)]; auto.
              ** congruence.
              ** right. exists e2. auto.
      * split.
        -- intros [Hp|(e2 & He2 & H2)]; auto.
           right. exists e2. cbn. auto.
        -- intros [Hp|(e2 & [<-|He2] & H2e & H2o)]; auto.
           ++ congruence.
           ++ right. exists e2. auto.
    + destruct (rendered r); lia.
    + cbn [forallb]. rewrite andb_true_iff, <- Hzero.
      assert (Hidle : rendered r = false <-> idle (entry_state e) = true).
      { rewrite idle_iff. pose proof (render_counter _ _ _ _ E) as Hc.
        destruct (Z.odd (counter (entry_state e))) eqn:Hodd.
        - destruct (render_odd _ _ _ _ Hodd E) as (_ & Hr & _ & Hcase).
          split.
          + intros Hf. destruct Hcase as [(_ & _ & H0)|(Ht & _)];
              [auto | congruence].
          + intros (_ & _ & H0). pose proof (aheadFree_range s1) as Hr1.
            destruct Hcase as [(Hf & _)|(_ & H1)]; [exact Hf | lia].
        - split; [|intros (_ & Hf & _); discriminate].
          intros Hf. rewrite Hev in Hf; [discriminate|].
          rewrite <- Z.negb_odd, Hodd. reflexivity. }
      rewrite <- Hidle. destruct (rendered r); split.
      * lia.
      * intros [Hf _]. discriminate.
      * intros ->. auto.
      * intros [_ ->]. reflexivity.
    + intros Hn. destruct (rendered r) eqn:Hr; [lia|].
      destruct (Hsame Hn) as [-> Hps]. rewrite (Hfalse eq_refl).
      split; [destruct e; reflexivity|].
      rewrite Hps. rewrite Hnot.
      destruct (Z.even (counter (entry_state e))) eqn:Heven;
        [|reflexivity].
      specialize (Hev eq_refl). discriminate.
Qed.

Lemma generateFrames_spec r r' notified :
  generateFrames r = Ok (r', notified) ->
  exists players n,
    renderEntries (_entries r) [] = Ok (_entries r', players, n)
    /\ (n = 0 -> r' = r /\ notified = [])
    /\ (n <> 0 -> _queued r' = true /\ notified = players).
Proof.
  unfold generateFrames. intros H.
  apply bind_Ok in H. destruct H as ([[es ps] n] & Hpass & H).
  cbn [fst snd] in H. exists ps, n.
  destruct (Z.eqb_spec n 0) as [->|Hn]; cbn [negb] in H;
    inversion H; subst r' notified; clear H.
  - destruct (renderEntries_spec _ _ _ _ _ Hpass)
      as (_ & _ & _ & _ & _ & Hsame).
    destruct (Hsame eq_refl) as [-> ->].
    split; [exact Hpass|]. split; [|congruence].
    intros _. destruct r; split; reflexivity.
  - assert (He : _entries (queueGenerateFrames (mkRenderer es (_queued r)))
                 = es)
      by (unfold queueGenerateFrames; cbn; destruct (_queued r); reflexivity).
    rewrite He. split; [exact Hpass|]. split; [congruence|].
    intros _. split; [|reflexivity].
    unfold queueGenerateFrames. cbn. destruct (_queued r); reflexivity.
Qed.

(** X15.  One pass advances every entry once.  When [generateFrames]
    returns, the entries are the same in number and order, each keeps its
    request, and the state of each is what one [renderNextFrame] with that
    request made of it. *)
Theorem generateFrames_advances_every_entry
    (r r' : FrameRendererObject) (notified : list Player) :
  generateFrames r = Ok (r', notified) ->
  Forall2 advanced (_entries r) (_entries r')
  /\ length (_entries r') = length (_entries r)
  /\ map entry_request (_entries r') = map entry_request (_entries r).
Proof.
  intros H. destruct (generateFrames_spec _ _ _ H) as (ps & n & Hpass & _).
  destruct (renderEntries_spec _ _ _ _ _ Hpass) as (Hadv & _).
  split; [exact Hadv|].
  clear - Hadv.
  induction Hadv as [|e e' es es' Hee' _ IH]; cbn; [auto|].
  destruct Hee' as [Hreq _]. destruct IH as [Hlen Hmap].
  rewrite Hlen, Hmap, Hreq. auto.
Qed.

(** X16.  Each owner hears of a pass at most once.  The players handed over
    for [checkStep] are in strictly increasing order, hence distinct, and
    they are exactly the owners of the entries that were in an even phase,
    the ones for which the pass presented a frame. *)
Theorem generateFrames_notifies_each_owner_once
    (r r' : FrameRendererObject) (notified : list Player) :
  generateFrames r = Ok (r', notified) ->
  increasing notified
  /\ forall p,
       In p notified <->
       exists e, In e (_entries r)
                 /\ Z.even (counter (entry_state e)) = true
                 /\ _owner (entry_state e) = Some p.
Proof.
  intros H.
  destruct (generateFrames_spec _ _ _ H) as (ps & n & Hpass & Hzero & Hwork).
  destruct (renderEntries_spec _ _ _ _ _ Hpass)
    as (_ & Hinc & Hin & _ & Hidle & _).
  destruct (Z.eq_dec n 0) as [Hn|Hn].
  - destruct (Hzero Hn) as [_ ->]. split; [exact I|].
    intros p. split; [intros []|].
    intros (e & He & Heven & _). exfalso.
    apply Hidle in Hn. rewrite forallb_forall in Hn.
    specialize (Hn e He). apply idle_iff in Hn.
    destruct Hn as (_ & Hodd & _).
    rewrite <- Z.negb_even, Heven in Hodd. discriminate.
  - destruct (Hwork Hn) as [_ ->]. split; [apply Hinc; exact I|].
    intros p. rewrite Hin. cbn [In]. tauto.
Qed.

(** X17.  When the scheduler goes idle.  If the producer has nothing to do
    for any entry (each is in an odd phase with both slots ahead decoded),
    a pass changes nothing, notifies nobody and posts no further pass.
    Otherwise the pass posts another one. *)
Theorem generateFrames_requeues_only_after_work
    (r r' : FrameRendererObject) (notified : list Player) :
  generateFrames r = Ok (r', notified) ->
  (forallb (fun e => idle (entry_state e)) (_entries r) = true ->
   r' = r /\ notified = [])
  /\ (forallb (fun e => idle (entry_state e)) (_entries r) = false ->
      _queued r' = true).
Proof.
  intros H.
  destruct (generateFrames_spec _ _ _ H) as (ps & n & Hpass & Hzero & Hwork).
  destruct (renderEntries_spec _ _ _ _ _ Hpass)
    as (_ & _ & _ & _ & Hidle & _).
  split.
  - intros Hall. apply Hzero. apply Hidle. exact Hall.
  - intros Hsome. apply Hwork. intros Hn. apply Hidle in Hn. congruence.
Qed.

Lemma idle_after_three s s1 s2 s3 req1 req2 req3 r1 r2 r3 :
  renderNextFrame s req1 = Ok (s1, r1) ->
  renderNextFrame s1 req2 = Ok (s2, r2) ->
  renderNextFrame s2 req3 = Ok (s3, r3) ->
  idle s3 = true.
Proof.
  intros E1 E2 E3. apply idle_iff.
  destruct (Z.odd (counter s)) eqn:Hodd.
  - destruct (render_odd_twice _ _ _ _ _ _ _ Hodd E1 E2)
      as (Hodd2 & Hfull2 & Hc2 & Hi2).
    destruct (render_odd _ _ _ _ Hodd2 E3) as (Hc3 & _ & Hi3 & Hcase).
    pose proof (aheadFree_range s3) as Hr3.
    destruct Hcase as [(_ & -> & _)|(_ & H1)]; [auto|lia].
  - assert (Heven : Z.even (counter s) = true)
      by (rewrite <- Z.negb_odd, Hodd; reflexivity).
    destruct (render_even _ _ _ _ Heven E1) as (Hodd1 & _ & Hi1).
    destruct (render_odd_twice _ _ _ _ _ _ _ Hodd1 E2 E3)
      as (Hodd3 & Hfull3 & Hc3 & Hi3).
    auto.
Qed.

Lemma idle_entries_after_three es : forall es1 es2 es3,
  Forall2 advanced es es1 -> Forall2 advanced es1 es2 ->
  Forall2 advanced es2 es3 ->
  forallb (fun e => idle (entry_state e)) es3 = true.
Proof.
  induction es as [|e es IH]; intros es1 es2 es3 H1 H2 H3.
  - inversion H1; subst. inversion H2; subst. inversion H3; subst.
    reflexivity.
  - inversion H1 as [|? e1 ? es1' [Hq1 [x1 E1]] H1']; subst.
    inversion H2 as [|? e2 ? es2' [Hq2 [x2 E2]] H2']; subst.
    inversion H3 as [|? e3 ? es3' [Hq3 [x3 E3]] H3']; subst.
    cbn [forallb]. rewrite (IH _ _ _ H1' H2' H3').
    rewrite (idle_after_three _ _ _ _ _ _ _ _ _ _ E1 E2 E3). reflexivity.
Qed.

Lemma generateQueued_advanced r r' notified :
  generateQueued r = Ok (r', notified) ->
  Forall2 advanced (_entries r) (_entries r').
Proof.
  unfold generateQueued. intros H.
  destruct (generateFrames_spec _ _ _ H) as (ps & n & Hpass & _).
  destruct (renderEntries_spec _ _ _ _ _ Hpass) as (Hadv & _).
  exact Hadv.
Qed.

(** X18.  The busy loop is bounded.  After three passes in a row, with no
    consumer call and no change of the entries in between, the producer has
    nothing left to do for any entry: a fourth pass runs without a fatal
    check, renders nothing, notifies nobody and leaves [_queued] false, so
    the scheduler rests until [frameShown] or [append] posts a pass again. *)
Theorem scheduler_rests_after_three_passes (r r3 : FrameRendererObject) :
  passes 3 r = Ok r3 ->
  generateQueued r3 = Ok (mkRenderer (_entries r3) false, []).
Proof.
  intros H. cbn [passes] in H.
  apply bind_Ok in H. destruct H as ([r1 n1] & H1 & H).
  apply bind_Ok in H. destruct H as ([r2 n2] & H2 & H).
  apply bind_Ok in H. destruct H as ([r3' n3] & H3 & H).
  cbn [fst] in *. inversion H; subst r3'; clear H.
  apply generateQueued_advanced in H1, H2, H3.
  pose proof (idle_entries_after_three _ _ _ _ H1 H2 H3) as Hidle.
  unfold generateQueued, generateFrames. cbn [_entries _queued].
  clear H1 H2 H3.
  assert (Hpass : forall es ps,
            forallb (fun e => idle (entry_state e)) es = true ->
            renderEntries es ps = Ok (es, ps, 0)).
  { clear. induction es as [|e es IH]; intros ps Hall; [reflexivity|].
    cbn [forallb] in Hall. apply andb_true_iff in Hall.
    destruct Hall as [He Hes]. apply idle_iff in He.
    destruct He as (Hc & Hodd & Hfull).
    cbn [renderEntries]. unfold renderOne.
    rewrite (render_full _ (entry_request e) Hc Hodd Hfull).
    cbn [bind fst snd notify rendered]. rewrite (IH ps Hes).
    cbn [bind fst snd]. destruct e; reflexivity. }
  rewrite (Hpass _ _ Hidle). reflexivity.
Qed.

(** *** The timeline members stay within their types *)

Lemma Bound_some s : exists m, Bound s m.
Proof.
  unfold Bound. destruct (Z.odd (counter s)).
  - exists (index (pendingFrame s)). lia.
  - exists (Z.min (_frameIndex s + 1)
              (index (frameAt s (nextIndex (counter s + 1))))).
    cbv zeta. lia.
Qed.

Lemma recount_shape s d k c :
  0 <= c < 2 * kFramesCount ->
  recountCurrentFrame s d k c =
    let s1 := set_timeline s (asTime (_delay s + d))
                (asInt (_skippedFrames s + k)) in
    let frame := frameAt s (nextIndex c) in
    if negb (displayed frame =? kTimeUnknown) then Ok s1
    else if display frame =? kTimeUnknown then Fatal AssertFailed
    else Ok (setFrame s1 (nextIndex c)
               (set_display frame (countFrameDisplayTime s1 (index frame)))).
Proof.
  intros Hc. unfold recountCurrentFrame. cbv zeta.
  rewrite frameAt_getFrame by (apply nextIndex_range; exact Hc).
  cbn [bind]. rewrite frameAt_set_timeline.
  destruct (displayed (frameAt s (nextIndex c)) =? kTimeUnknown) eqn:Hw;
    cbn [negb]; [|reflexivity].
  unfold IsRendered. rewrite Hw. cbn [check bind].
  destruct (display (frameAt s (nextIndex c)) =? kTimeUnknown); reflexivity.
Qed.

Lemma timeline_setFrame s i f : sameTimeline s (setFrame s i f).
Proof.
  destruct s. destruct i as [|[[]|[]|]|]; repeat split; reflexivity.
Qed.

Lemma Typed_recount s d k c s' :
  0 <= c < 2 * kFramesCount ->
  recountCurrentFrame s d k c = Ok s' -> Typed s -> Typed s'.
Proof.
  intros Hc E (Hst & _ & _). rewrite recount_shape in E by exact Hc.
  cbv zeta in E.
  assert (HT : Typed (set_timeline s (asTime (_delay s + d))
                        (asInt (_skippedFrames s + k)))).
  { destruct s. split; [exact Hst|].
    split; [apply fitsTime_asTime | apply fitsInt_asInt]. }
  destruct (negb (_ =? _)); [inversion E; subst; exact HT|].
  destruct (_ =? _); [discriminate|]. inversion E; subst s'.
  destruct (timeline_setFrame
              (set_timeline s (asTime (_delay s + d))
                 (asInt (_skippedFrames s + k)))
              (nextIndex c)
              (set_display (frameAt s (nextIndex c))
                 (countFrameDisplayTime
                    (set_timeline s (asTime (_delay s + d))
                       (asInt (_skippedFrames s + k)))
                    (index (frameAt s (nextIndex c))))))
    as (H1 & H2 & H3 & _).
  unfold Typed. rewrite H1, H2, H3. exact HT.
Qed.

Lemma Typed_exec images op s s' :
  Inv images s -> exec op s = Ok s' -> Typed s -> Typed s'.
Proof.
  intros HI E HT. destruct (isDelay op) eqn:Hop.
  - destruct op as [req|now| |d k]; try discriminate. cbn [exec] in E.
    pose proof (Inv_counter _ _ HI) as Hc.
    unfold addTimelineDelay in E.
    destruct ((d =? 0) && (k =? 0)); [inversion E; subst; exact HT|].
    eight Hc; rewrite Hc in E; try discriminate;
      (eapply Typed_recount; [|exact E|exact HT]);
      unfold kFramesCount; lia.
  - destruct (Bound_some s) as [m Hm].
    destruct (Bound_exec images op s s' m HI Hop E Hm)
      as (_ & H1 & H2 & H3 & _).
    unfold Typed. rewrite H1, H2, H3. exact HT.
Qed.

Lemma Typed_run images ops : forall s s',
  Inv images s -> run ops s = Ok s' -> Typed s -> Typed s'.
Proof.
  induction ops as [|op ops IH]; cbn [run]; intros s s' HI E HT.
  - inversion E; subst. exact HT.
  - apply bind_Ok in E. destruct E as (s1 & E1 & E).
    eapply IH; [eapply Inv_exec; eassumption | exact E |].
    eapply Typed_exec; eassumption.
Qed.

Lemma Typed_Reachable s : Reachable s -> Typed s.
Proof.
  intros (s1 & ops & Hs & Hr).
  eapply (Typed_run false);
    [apply Inv_Started; [discriminate|exact Hs] | exact Hr |].
  destruct Hs as [blank s0 req owner started delay skippedFrames _ _ _ ->].
  split; [apply fitsTime_asTime|].
  split; [apply fitsTime_asTime | apply fitsInt_asInt].
Qed.

(** *** Delays add up *)

Ltac eval_next :=
  repeat match goal with
  | |- context [nextIndex ?c] =>
      let v := eval vm_compute in (nextIndex c) in
      change (nextIndex c) with v
  | H : context [nextIndex ?c] |- _ =>
      let v := eval vm_compute in (nextIndex c) in
      change (nextIndex c) with v in H
  end.

(** X20.  Delays add up.  In a reachable state two calls of
    [addTimelineDelay] in a row leave the state one call with the summed
    arguments leaves: the delay and the skipped frames accumulate, and the
    display time of a pending frame not yet displayed is the one computed
    from the sums. *)
Theorem addTimelineDelay_accumulates
    (s s1 s2 : State) (d1 k1 d2 k2 : Z) :
  Reachable s ->
  addTimelineDelay s d1 k1 = Ok s1 ->
  addTimelineDelay s1 d2 k2 = Ok s2 ->
  addTimelineDelay s (d1 + d2) (k1 + k2) = Ok s2.
Proof.
  intros Hreach E1 E2.
  assert (HI : Inv false s) by (apply Inv_Reachable; [discriminate|assumption]).
  pose proof (Inv_counter false s HI) as Hc.
  destruct (Typed_Reachable s Hreach) as (_ & Hfde & Hfsk).
  assert (Hzero : forall d k, (d =? 0) && (k =? 0) = true -> d = 0 /\ k = 0).
  { intros d k H. apply andb_true_iff in H. rewrite !Z.eqb_eq in H. exact H. }
  destruct ((d1 =? 0) && (k1 =? 0)) eqn:Z1.
  { apply Hzero in Z1. destruct Z1 as [-> ->].
    cbn in E1. inversion E1; subst s1. exact E2. }
  destruct ((d2 =? 0) && (k2 =? 0)) eqn:Z2.
  { apply Hzero in Z2. destruct Z2 as [-> ->].
    cbn in E2. inversion E2; subst s2.
    rewrite !Z.add_0_r. exact E1. }
  destruct (Z.odd (counter s)) eqn:Hodd.
  2:{ exfalso. unfold addTimelineDelay in E1. rewrite Z1 in E1.
      eight Hc; rewrite Hc in *; discriminate. }
  rewrite addTimelineDelay_odd in E1 by assumption.
  rewrite recount_shape in E1 by exact Hc. cbv zeta in E1.
  fold (pendingFrame s) in E1.
  pose proof (Inv_pending false s HI Hodd) as Hdisp.
  assert (Hs1 : counter s1 = counter s
                /\ displayed (pendingFrame s1) = displayed (pendingFrame s)).
  { destruct (displayed (pendingFrame s) =? kTimeUnknown) eqn:Hw;
      cbn [negb] in E1.
    - destruct (display (pendingFrame s) =? kTimeUnknown); [discriminate|].
      inversion E1; subst s1. clear - Hc Hodd.
      destruct s as [ct an ca [f0 f1 f2 f3] cn ow st de sk fi fc fr sz].
      unfold pendingFrame, counter in *. cbn [_counter] in *.
      eight Hc; subst cn; try discriminate;
        cbn -[Z.mul Z.quot Z.add asTime asInt]; repeat split; reflexivity.
    - inversion E1; subst s1. unfold pendingFrame.
      rewrite frameAt_set_timeline.
      destruct s; repeat split; reflexivity. }
  destruct Hs1 as (Hc1 & Hw1).
  assert (Hc1' : 0 <= counter s1 < 2 * kFramesCount) by (rewrite Hc1; exact Hc).
  rewrite addTimelineDelay_odd in E2 by (rewrite ?Hc1; assumption).
  rewrite recount_shape in E2 by exact Hc1'. cbv zeta in E2.
  fold (pendingFrame s1) in E2. rewrite Hc1 in E2.
  destruct ((d1 + d2 =? 0) && (k1 + k2 =? 0)) eqn:Z12.
  - apply Hzero in Z12. destruct Z12 as [Hd Hk].
    unfold addTimelineDelay.
    replace ((d1 + d2 =? 0) && (k1 + k2 =? 0)) with true
      by (symmetry; apply andb_true_iff; rewrite !Z.eqb_eq; auto).
    f_equal. rewrite Hw1 in E2.
    destruct (displayed (pendingFrame s) =? kTimeUnknown) eqn:Hw;
      cbn [negb] in E1, E2.
    + apply Z.eqb_eq in Hw. specialize (Hdisp Hw).
      destruct (display (pendingFrame s) =? kTimeUnknown); [discriminate|].
      destruct (display (pendingFrame s1) =? kTimeUnknown); [discriminate|].
      inversion E2; subst s2. inversion E1; subst s1. clear E1 E2.
      unfold pendingFrame in *. clear Hw1 Hc1 Hc1'.
      destruct s as [ct an ca [f0 f1 f2 f3] cn ow st de sk fi fc fr sz].
      unfold counter in *. cbn [_counter _delay _skippedFrames] in *.
      unfold countFrameDisplayTime in *.
      eight Hc; subst cn; try discriminate; eval_next;
        cbn -[Z.mul Z.quot Z.add asTime asInt] in Hdisp |- *;
        rewrite (asTime_add (de + d1) d2), (asInt_add (sk + k1) k2);
        replace (de + d1 + d2) with de by lia;
        replace (sk + k1 + k2) with sk by lia;
        rewrite (asTime_fits de Hfde), (asInt_fits sk Hfsk);
        rewrite <- Hdisp;
        match goal with
        | |- context [set_display (set_display ?f _) _] => destruct f
        end; reflexivity.
    + inversion E2; subst s2. inversion E1; subst s1.
      clear - Hd Hk Hfde Hfsk.
      destruct s as [ct an ca fs cn ow st de sk fi fc fr sz].
      cbn -[Z.add asTime asInt] in *.
      rewrite (asTime_add (de + d1) d2), (asInt_add (sk + k1) k2).
      replace (de + d1 + d2) with de by lia.
      replace (sk + k1 + k2) with sk by lia.
      rewrite (asTime_fits de Hfde), (asInt_fits sk Hfsk).
      reflexivity.
  - rewrite addTimelineDelay_odd by assumption.
    rewrite recount_shape by exact Hc. cbv zeta.
    fold (pendingFrame s). rewrite Hw1 in E2.
    destruct (displayed (pendingFrame s) =? kTimeUnknown) eqn:Hw;
      cbn [negb] in E1, E2 |- *.
    + destruct (display (pendingFrame s) =? kTimeUnknown); [discriminate|].
      destruct (display (pendingFrame s1) =? kTimeUnknown); [discriminate|].
      inversion E2; subst s2. inversion E1; subst s1. clear E1 E2.
      f_equal.
      unfold pendingFrame in *. clear Hw1 Hc1 Hc1'.
      destruct s as [ct an ca [f0 f1 f2 f3] cn ow st de sk fi fc fr sz].
      unfold counter in *. cbn [_counter] in *.
      unfold countFrameDisplayTime in *.
      eight Hc; subst cn; try discriminate; eval_next;
        cbn -[Z.mul Z.quot Z.add asTime asInt] in |- *;
        rewrite (asTime_add (de + d1) d2), (asInt_add (sk + k1) k2);
        replace (de + (d1 + d2)) with (de + d1 + d2) by lia;
        replace (sk + (k1 + k2)) with (sk + k1 + k2) by lia;
        reflexivity.
    + inversion E2; subst s2. inversion E1; subst s1. clear.
      destruct s as [ct an ca fs cn ow st de sk fi fc fr sz].
      cbn -[Z.add asTime asInt].
      rewrite (asTime_add (de + d1) d2), (asInt_add (sk + k1) k2).
      replace (de + (d1 + d2)) with (de + d1 + d2) by lia.
      replace (sk + (k1 + k2)) with (sk + k1 + k2) by lia.
      reflexivity.
Qed.

End Facts.

(** * The claims on the concrete collaborators *)

Import Reference.

Lemma Reference_SizeContract : SizeContract.
Proof. intros req sz Hbox _. exact Hbox. Qed.

Lemma Reference_CacheContract : CacheContract.
Proof. intros c image req idx H. exact H. Qed.

Lemma Reference_Started (count rate : Z) :
  isValid (constructed count rate emptyRequest) = true ->
  construct (blank (mkAnim (512, 512) (inject_Z rate) count)) emptyRequest
  = Ok (constructed count rate emptyRequest) ->
  Started (start (constructed count rate emptyRequest) 1 0 0 0).
Proof.
  intros Hv Hc.
  eapply Started_intro with (blank := blank _); [|exact Hc|exact Hv|reflexivity].
  repeat split; discriminate.
Qed.

Lemma Reference_Reachable (count rate : Z) (ops : list Op) :
  isValid (constructed count rate emptyRequest) = true ->
  construct (blank (mkAnim (512, 512) (inject_Z rate) count)) emptyRequest
  = Ok (constructed count rate emptyRequest) ->
  run ops (start (constructed count rate emptyRequest) 1 0 0 0)
  = Ok (after count rate emptyRequest ops) ->
  Reachable (after count rate emptyRequest ops).
Proof.
  intros Hv Hc Hr.
  exists (start (constructed count rate emptyRequest) 1 0 0 0), ops.
  split; [apply Reference_Started; assumption | exact Hr].
Qed.

Ltac reach :=
  apply Reference_Reachable; vm_compute; reflexivity.

Ltac in_range :=
  vm_compute; repeat split; first [reflexivity | discriminate].



Lemma present_stamps_display_time_witness :
  let s := after 30 30 emptyRequest [] in
  let s' := after 30 30 emptyRequest [OpRender emptyRequest] in
  let r := mkRenderResult true (Some 1) in
  (Z.even (counter s) = true /\ renderNextFrame s emptyRequest = Ok (s', r)
   /\ noOverflow s (index (pendingFrame s'))
   /\ _frameRate s = 30 /\ _started s = 0 /\ _delay s = 0
   /\ _skippedFrames s = 0)
  /\ (counter s' = counter s + 1
      /\ rendered r = true
      /\ notify r = _owner s
      /\ display (pendingFrame s')
         = countFrameDisplayTime s (index (pendingFrame s'))
      /\ display (pendingFrame s')
         = _started s + _delay s
           + (1000 * (_skippedFrames s + index (pendingFrame s')))
             ÷ _frameRate s)
  /\ map (countFrameDisplayTime s) (map Z.of_nat (seq 0 31))
     = [0; 33; 66; 100; 133; 166; 200; 233; 266; 300;
        333; 366; 400; 433; 466; 500; 533; 566; 600; 633;
        666; 700; 733; 766; 800; 833; 866; 900; 933; 966; 1000].
Proof.
  cbv zeta.
  assert (He : Z.even (counter (after 30 30 emptyRequest [])) = true)
    by (vm_compute; reflexivity).
  assert (H : renderNextFrame (after 30 30 emptyRequest []) emptyRequest
              = Ok (after 30 30 emptyRequest [OpRender emptyRequest],
                    mkRenderResult true (Some 1)))
    by (vm_compute; reflexivity).
  assert (Hno : noOverflow (after 30 30 emptyRequest [])
                  (index (pendingFrame
                            (after 30 30 emptyRequest
                               [OpRender emptyRequest]))))
    by in_range.
  pose proof (present_stamps_display_time
                (after 30 30 emptyRequest []) emptyRequest
                (after 30 30 emptyRequest [OpRender emptyRequest])
                (mkRenderResult true (Some 1))) as [Hp Hs].
  destruct (Hp He H) as (H1 & H2 & H3 & H4 & H5).
  split.
  { split; [exact He|]. split; [exact H|]. split; [exact Hno|].
    repeat split; vm_compute; reflexivity. }
  split.
  { split; [exact H1|]. split; [exact H2|]. split; [exact H3|].
    split; [exact H4|exact (H5 Hno)]. }
  apply Hs; vm_compute; reflexivity.
Defined.

(** C2 fails as stated.  Thirty frames at 30 frames per second, started at
    0 with no delay and an empty request, frames presented and shown one
    after the other: the frames painted carry the indices 1, 2, ... with the
    times 33, 66, ...; after index 29 (966 ms) comes index 30 at 1000 ms and
    index 31 at 1033 ms.  The index does not go back to 0, and the time does
    not go back to the start of the cycle. *)
Lemma display_time_runs_on_after_index_29 :
  let painted :=
    [(1, 33); (2, 66); (3, 100); (4, 133); (5, 166); (6, 200); (7, 233);
     (8, 266); (9, 300); (10, 333); (11, 366); (12, 400); (13, 433);
     (14, 466); (15, 500); (16, 533); (17, 566); (18, 600); (19, 633);
     (20, 666); (21, 700); (22, 733); (23, 766); (24, 800); (25, 833);
     (26, 866); (27, 900); (28, 933); (29, 966); (30, 1000); (31, 1033)] in
  (s <- playing 30 30 emptyRequest ;; pump 31 emptyRequest 0 s) = Ok painted
  /\ nth 28 painted (0, 0) = (29, 966)
  /\ nth 29 painted (0, 0) = (30, 1000)
  /\ nth 29 painted (0, 0) <> (0, 0).
Proof. vm_compute. repeat split; try reflexivity. discriminate. Qed.

Lemma counter_in_range_after_start_witness :
  let ops := [OpRender emptyRequest; OpDisplayed 40; OpShown] in
  let s0 := constructed 30 30 emptyRequest in
  let s := after 30 30 emptyRequest ops in
  run ops (start s0 1 0 0 0) = Ok s
  /\ (counter (start s0 1 0 0 0) = 0
      /\ 0 <= counter s < 2 * kFramesCount
      /\ (forall op s',
            exec op s = Ok s' ->
            counter s' = counter s
            \/ counter s' = Z.rem (counter s + 1) (2 * kFramesCount))
      /\ (forall op, exec op s <> Fatal UnexpectedCounter)
      /\ nextFrameDisplayTime s <> Fatal UnexpectedCounter).
Proof.
  cbv zeta.
  assert (H : run [OpRender emptyRequest; OpDisplayed 40; OpShown]
                (start (constructed 30 30 emptyRequest) 1 0 0 0)
              = Ok (after 30 30 emptyRequest
                      [OpRender emptyRequest; OpDisplayed 40; OpShown]))
    by (vm_compute; reflexivity).
  split; [exact H|].
  exact (counter_in_range_after_start _ _ _ _ _ _ _ H).
Defined.

Lemma frameForPaint_asserts_hold_witness :
  let s := after 30 30 emptyRequest
             [OpRender emptyRequest; OpDisplayed 40; OpShown] in
  (SizeContract /\ CacheContract /\ Reachable s)
  /\ exists i frame,
       frameForPaint s = Ok (i, frame)
       /\ isNull (original frame) = false
       /\ displayed frame <> kTimeUnknown
       /\ forall r, exists r', append r s = Ok r'.
Proof.
  cbv zeta.
  assert (H : Reachable (after 30 30 emptyRequest
                           [OpRender emptyRequest; OpDisplayed 40; OpShown]))
    by reach.
  split.
  - split; [exact Reference_SizeContract|].
    split; [exact Reference_CacheContract | exact H].
  - exact (frameForPaint_asserts_hold _
             Reference_SizeContract Reference_CacheContract H).
Defined.

Lemma markFrameShown_spec_witness :
  let s := after 30 30 emptyRequest [OpRender emptyRequest; OpDisplayed 40] in
  0 <= counter s < 2 * kFramesCount
  /\ markFrameShown s =
       if Z.odd (counter s)
          && negb (displayed (pendingFrame s) =? kTimeUnknown)
       then Ok (set_counter s (Z.rem (counter s + 1) (2 * kFramesCount)), true)
       else Ok (s, false).
Proof.
  cbv zeta.
  assert (H : 0 <= counter (after 30 30 emptyRequest
                              [OpRender emptyRequest; OpDisplayed 40])
              < 2 * kFramesCount)
    by (vm_compute; split; [discriminate | reflexivity]).
  split; [exact H|].
  exact (markFrameShown_spec _ H).
Defined.

(** C5 fails as stated.  In the even phase 2 the slot of the next phase,
    slot [((2 + 1) mod 8) / 2 = 1], is displayed (at time 40), and still
    [markFrameShown] returns false and leaves the counter at 2. *)
Lemma markFrameShown_does_not_advance_from_even_phase :
  let s := after 30 30 emptyRequest
             [OpRender emptyRequest; OpDisplayed 40; OpShown] in
  counter s = 2
  /\ nextIndex (counter s) = 1
  /\ displayed (pendingFrame s) = 40
  /\ displayed (pendingFrame s) <> kTimeUnknown
  /\ markFrameShown s = Ok (s, false).
Proof. vm_compute. repeat split; try reflexivity. discriminate. Qed.

Lemma nextFrameDisplayTime_spec_witness :
  let s := after 30 30 emptyRequest [OpRender emptyRequest] in
  (Reachable s /\ noOverflow s (index (pendingFrame s)))
  /\ nextFrameDisplayTime s
     = (if Z.even (counter s) then Ok kTimeUnknown
        else if negb (displayed (pendingFrame s) =? kTimeUnknown) then
          Ok kFrameDisplayTimeAlreadyDone
        else if countFrameDisplayTime s (index (pendingFrame s))
                =? kTimeUnknown
        then Fatal AssertFailed
        else Ok (countFrameDisplayTime s (index (pendingFrame s))))
  /\ countFrameDisplayTime s (index (pendingFrame s))
     = _started s + _delay s
       + (1000 * (_skippedFrames s + index (pendingFrame s)))
         ÷ _frameRate s.
Proof.
  cbv zeta.
  assert (H : Reachable (after 30 30 emptyRequest [OpRender emptyRequest]))
    by reach.
  assert (Hno : noOverflow
                  (after 30 30 emptyRequest [OpRender emptyRequest])
                  (index (pendingFrame
                            (after 30 30 emptyRequest
                               [OpRender emptyRequest]))))
    by in_range.
  destruct (nextFrameDisplayTime_spec _ H) as [Hpoll Hexact].
  split; [split; [exact H|exact Hno]|].
  split; [exact Hpoll|exact (Hexact Hno)].
Defined.

(** C6 fails as stated.  In phase 1, once the pending frame has been marked
    displayed, the poll returns [kFrameDisplayTimeAlreadyDone]: that is not
    [kTimeUnknown], and it is not the display time 33 scheduled for the
    frame that awaits promotion. *)
Lemma poll_of_displayed_frame_is_a_third_value :
  let s := after 30 30 emptyRequest [OpRender emptyRequest; OpDisplayed 40] in
  counter s = 1
  /\ display (pendingFrame s) = 33
  /\ nextFrameDisplayTime s = Ok kFrameDisplayTimeAlreadyDone
  /\ kFrameDisplayTimeAlreadyDone <> kTimeUnknown
  /\ kFrameDisplayTimeAlreadyDone <> display (pendingFrame s).
Proof. vm_compute. repeat split; try reflexivity; discriminate. Qed.

Lemma addTimelineDelay_then_poll_witness :
  let s := after 30 30 emptyRequest [OpRender emptyRequest] in
  (Reachable s
   /\ nextFrameDisplayTime s = Ok 33
   /\ 33 <> kTimeUnknown /\ 33 <> kFrameDisplayTimeAlreadyDone
   /\ noOverflow s (index (pendingFrame s))
   /\ fitsTime (_delay s + 10)
   /\ (fitsInt (_skippedFrames s + 3)
       /\ noOverflow (set_timeline s (_delay s + 10) (_skippedFrames s + 3))
            (index (pendingFrame s))
       /\ _started s + (_delay s + 10)
          + (1000 * (_skippedFrames s + 3 + index (pendingFrame s)))
            ÷ _frameRate s
          <> kTimeUnknown)
   /\ (fitsInt (_skippedFrames s + 0)
       /\ noOverflow (set_timeline s (_delay s + 10) (_skippedFrames s + 0))
            (index (pendingFrame s))
       /\ _started s + (_delay s + 10)
          + (1000 * (_skippedFrames s + 0 + index (pendingFrame s)))
            ÷ _frameRate s
          <> kTimeUnknown))
  /\ (exists s',
        addTimelineDelay s 10 3 = Ok s'
        /\ nextFrameDisplayTime s'
           = Ok (_started s + (_delay s + 10)
                 + (1000 * (_skippedFrames s + 3 + index (pendingFrame s)))
                   ÷ _frameRate s)
        /\ (3 = 0 ->
            _started s + (_delay s + 10)
            + (1000 * (_skippedFrames s + 3 + index (pendingFrame s)))
              ÷ _frameRate s
            = 33 + 10))
  /\ (exists s',
        addTimelineDelay s 10 0 = Ok s'
        /\ nextFrameDisplayTime s'
           = Ok (_started s + (_delay s + 10)
                 + (1000 * (_skippedFrames s + 0 + index (pendingFrame s)))
                   ÷ _frameRate s)
        /\ (0 = 0 ->
            _started s + (_delay s + 10)
            + (1000 * (_skippedFrames s + 0 + index (pendingFrame s)))
              ÷ _frameRate s
            = 33 + 10)).
Proof.
  cbv zeta.
  assert (H : Reachable (after 30 30 emptyRequest [OpRender emptyRequest]))
    by reach.
  assert (Hp : nextFrameDisplayTime
                 (after 30 30 emptyRequest [OpRender emptyRequest]) = Ok 33)
    by (vm_compute; reflexivity).
  assert (Hu : 33 <> kTimeUnknown) by (vm_compute; discriminate).
  assert (Hd : 33 <> kFrameDisplayTimeAlreadyDone)
    by (vm_compute; discriminate).
  assert (Hold : noOverflow
                   (after 30 30 emptyRequest [OpRender emptyRequest])
                   (index (pendingFrame
                             (after 30 30 emptyRequest
                                [OpRender emptyRequest]))))
    by in_range.
  assert (Hfd : fitsTime
                  (_delay (after 30 30 emptyRequest [OpRender emptyRequest])
                   + 10))
    by in_range.
  assert (Hk : forall k, k = 3 \/ k = 0 ->
    fitsInt
      (_skippedFrames (after 30 30 emptyRequest [OpRender emptyRequest]) + k)
    /\ noOverflow
         (set_timeline
            (after 30 30 emptyRequest [OpRender emptyRequest])
            (_delay (after 30 30 emptyRequest [OpRender emptyRequest]) + 10)
            (_skippedFrames
               (after 30 30 emptyRequest [OpRender emptyRequest]) + k))
         (index (pendingFrame
                   (after 30 30 emptyRequest [OpRender emptyRequest])))
    /\ _started (after 30 30 emptyRequest [OpRender emptyRequest])
       + (_delay (after 30 30 emptyRequest [OpRender emptyRequest]) + 10)
       + (1000 * (_skippedFrames
                    (after 30 30 emptyRequest [OpRender emptyRequest]) + k
                  + index (pendingFrame
                             (after 30 30 emptyRequest
                                [OpRender emptyRequest]))))
         ÷ _frameRate (after 30 30 emptyRequest [OpRender emptyRequest])
       <> kTimeUnknown).
  { intros k [-> | ->]; (split; [in_range|]); (split; [in_range|]);
      vm_compute; discriminate. }
  destruct (Hk 3 (or_introl eq_refl)) as (Hfk3 & Hnew3 & Hn3).
  destruct (Hk 0 (or_intror eq_refl)) as (Hfk0 & Hnew0 & Hn0).
  split.
  { split; [exact H|]. split; [exact Hp|]. split; [exact Hu|].
    split; [exact Hd|]. split; [exact Hold|]. split; [exact Hfd|].
    split.
    - split; [exact Hfk3|]. split; [exact Hnew3 | exact Hn3].
    - split; [exact Hfk0|]. split; [exact Hnew0 | exact Hn0]. }
  split.
  - exact (addTimelineDelay_then_poll _ 10 3 33
             H Hp Hu Hd Hold Hfd Hfk3 Hnew3 Hn3).
  - exact (addTimelineDelay_then_poll _ 10 0 33
             H Hp Hu Hd Hold Hfd Hfk0 Hnew0 Hn0).
Defined.

(** C7 fails as stated.  The pending frame has index 1 and is scheduled at
    33 ms.  After [addTimelineDelay(10, 3)] the poll returns
    [0 + 10 + 1000 (3 + 1) / 30 = 143], not [33 + 10]: the call itself
    recomputes the time with the skipped frames added. *)
Lemma addTimelineDelay_with_skipped_frames_is_no_pure_shift :
  let s := after 30 30 emptyRequest [OpRender emptyRequest] in
  let s' := after 30 30 emptyRequest [OpRender emptyRequest; OpDelay 10 3] in
  displayed (pendingFrame s) = kTimeUnknown
  /\ nextFrameDisplayTime s = Ok 33
  /\ addTimelineDelay s 10 3 = Ok s'
  /\ nextFrameDisplayTime s' = Ok 143
  /\ 143 <> 33 + 10.
Proof. vm_compute. repeat split; try reflexivity. discriminate. Qed.

Lemma PrepareFrameByRequest_spec_witness :
  let frame := slot1 (_frames (after 30 30 emptyRequest
                                 [OpRender emptyRequest])) in
  isNull (original frame) = false
  /\ (GoodForRequest (original frame) (request frame) = true <->
      isEmpty (box (request frame)) = true
      \/ (colored (request frame) = None
          /\ (width (box (request frame)) = width (imageSize (original frame))
              \/ height (box (request frame))
                 = height (imageSize (original frame)))))
  /\ (GoodForRequest (original frame) (request frame) = true ->
      PrepareFrameByRequest frame true = Ok (frame, TheOriginal)
      /\ (exists d,
            original frame = Some d
            /\ copyOf frame TheOriginal
               = Some (mkImage (format d) (size d) false (bits d))
            /\ lent frame TheOriginal
               = set_original frame (copyOf frame TheOriginal))
      /\ (forall sz,
            GoodStorageForFrame (original (lent frame TheOriginal)) sz
            = false))
  /\ (GoodForRequest (original frame) (request frame) = false ->
      if isNull (prepared frame) || negb true then
        exists p,
          PrepareByRequest (original frame) (request frame) (prepared frame)
          = Ok p
          /\ PrepareFrameByRequest frame true
             = Ok (set_prepared frame p, ThePrepared)
      else
        PrepareFrameByRequest frame true = Ok (frame, ThePrepared)).
Proof.
  cbv zeta.
  assert (H : isNull (original (slot1 (_frames (after 30 30 emptyRequest
                                 [OpRender emptyRequest])))) = false)
    by (vm_compute; reflexivity).
  split; [exact H|].
  exact (PrepareFrameByRequest_spec _ true H).
Defined.

(** C8 fails as stated.  The box has the width and the height of the
    decoded image, but the request asks for a recolouring: the image returned
    is not a handle on the original but on a new image, drawn and tinted,
    which is stored in the frame's [prepared] field, null before. *)
Lemma recoloured_request_is_not_served_from_the_original :
  let recoloured :=
    Some (mkImage kImageFormat (mkQSize 512 512) true
            (Tinted 255 (Drawn (mkQSize 512 512)
                           (Decoded 1 (mkQSize 512 512))))) in
  box (request tintedFrame) = imageSize (original tintedFrame)
  /\ isEmpty (box (request tintedFrame)) = false
  /\ GoodForRequest (original tintedFrame) (request tintedFrame) = false
  /\ prepared tintedFrame = None
  /\ PrepareFrameByRequest tintedFrame false
     = Ok (set_prepared tintedFrame recoloured, ThePrepared)
  /\ PrepareFrameByRequest tintedFrame false <> Ok (tintedFrame, TheOriginal)
  /\ copyOf (set_prepared tintedFrame recoloured) ThePrepared
     <> copyOf tintedFrame TheOriginal.
Proof.
  cbv zeta. repeat split; try (vm_compute; reflexivity);
    vm_compute; intros H; inversion H.
Qed.

Lemma scheduled_polls_never_decrease_witness :
  let s := after 30 30 emptyRequest [OpRender emptyRequest] in
  let ops := [OpDisplayed 40; OpShown; OpRender emptyRequest] in
  let s' := after 30 30 emptyRequest
              [OpRender emptyRequest; OpDisplayed 40; OpShown;
               OpRender emptyRequest] in
  (Reachable s
   /\ existsb isDelay ops = false
   /\ run ops s = Ok s'
   /\ nextFrameDisplayTime s = Ok 33
   /\ nextFrameDisplayTime s' = Ok 66
   /\ 33 <> kTimeUnknown /\ 33 <> kFrameDisplayTimeAlreadyDone
   /\ 66 <> kTimeUnknown /\ 66 <> kFrameDisplayTimeAlreadyDone
   /\ noOverflow s (index (pendingFrame s))
   /\ noOverflow s' (index (pendingFrame s')))
  /\ 33 <= 66.
Proof.
  cbv zeta.
  assert (H : Reachable (after 30 30 emptyRequest [OpRender emptyRequest]))
    by reach.
  assert (Ho : existsb isDelay
                 [OpDisplayed 40; OpShown; OpRender emptyRequest] = false)
    by reflexivity.
  assert (Hr : run [OpDisplayed 40; OpShown; OpRender emptyRequest]
                 (after 30 30 emptyRequest [OpRender emptyRequest])
               = Ok (after 30 30 emptyRequest
                       [OpRender emptyRequest; OpDisplayed 40; OpShown;
                        OpRender emptyRequest]))
    by (vm_compute; reflexivity).
  assert (Hp : nextFrameDisplayTime
                 (after 30 30 emptyRequest [OpRender emptyRequest]) = Ok 33)
    by (vm_compute; reflexivity).
  assert (Hp' : nextFrameDisplayTime
                  (after 30 30 emptyRequest
                     [OpRender emptyRequest; OpDisplayed 40; OpShown;
                      OpRender emptyRequest]) = Ok 66)
    by (vm_compute; reflexivity).
  assert (Hu : 33 <> kTimeUnknown) by (vm_compute; discriminate).
  assert (Hd : 33 <> kFrameDisplayTimeAlreadyDone)
    by (vm_compute; discriminate).
  assert (Hu' : 66 <> kTimeUnknown) by (vm_compute; discriminate).
  assert (Hd' : 66 <> kFrameDisplayTimeAlreadyDone)
    by (vm_compute; discriminate).
  assert (Hno : noOverflow
                  (after 30 30 emptyRequest [OpRender emptyRequest])
                  (index (pendingFrame
                            (after 30 30 emptyRequest
                               [OpRender emptyRequest]))))
    by in_range.
  assert (Hno' : noOverflow
                   (after 30 30 emptyRequest
                      [OpRender emptyRequest; OpDisplayed 40; OpShown;
                       OpRender emptyRequest])
                   (index (pendingFrame
                             (after 30 30 emptyRequest
                                [OpRender emptyRequest; OpDisplayed 40;
                                 OpShown; OpRender emptyRequest]))))
    by in_range.
  split.
  { split; [exact H|]. split; [exact Ho|]. split; [exact Hr|].
    split; [exact Hp|]. split; [exact Hp'|]. split; [exact Hu|].
    split; [exact Hd|]. split; [exact Hu'|]. split; [exact Hd'|].
    split; [exact Hno | exact Hno']. }
  exact (scheduled_polls_never_decrease _ _ _ 33 66
           H Ho Hr Hp Hp' Hu Hd Hu' Hd' Hno Hno').
Defined.

(** C9 fails as stated.  With no [addTimelineDelay] at all, the polls made
    between the calls [markFrameDisplayed(40)], [markFrameShown()] and
    [renderNextFrame] return 33, then [kFrameDisplayTimeAlreadyDone], then
    [kTimeUnknown], then 66: the sequence goes down twice. *)
Lemma polls_with_sentinels_go_down :
  let s1 := after 30 30 emptyRequest [OpRender emptyRequest] in
  let s2 := after 30 30 emptyRequest [OpRender emptyRequest; OpDisplayed 40] in
  let s3 := after 30 30 emptyRequest
              [OpRender emptyRequest; OpDisplayed 40; OpShown] in
  let s4 := after 30 30 emptyRequest
              [OpRender emptyRequest; OpDisplayed 40; OpShown;
               OpRender emptyRequest] in
  markFrameDisplayed s1 40 = Ok s2
  /\ markFrameShown s2 = Ok (s3, true)
  /\ renderNextFrame s3 emptyRequest = Ok (s4, mkRenderResult true (Some 1))
  /\ nextFrameDisplayTime s1 = Ok 33
  /\ nextFrameDisplayTime s2 = Ok (2 ^ 63 - 1)
  /\ nextFrameDisplayTime s3 = Ok (- 2 ^ 63)
  /\ nextFrameDisplayTime s4 = Ok 66
  /\ ~ 2 ^ 63 - 1 <= - 2 ^ 63
  /\ ~ 2 ^ 63 - 1 <= 66.
Proof.
  vm_compute. repeat split; try reflexivity; intros H; apply H; reflexivity.
Qed.

Lemma isValid_iff_and_invalid_is_inert_witness :
  let s := final broken in
  (isValid s = false
   /\ calculateProperties (blank (mkAnim (512, 512) 30%Q 0)) = Ok s
   /\ reportedCount (blank (mkAnim (512, 512) 30%Q 0)) <= 0)
  /\ (isValid s = true <->
      0 < _framesCount s /\ 0 < _frameRate s /\ isEmpty (_size s) = false)
  /\ ((forall image req idx, renderFrame s image req idx = (s, image))
      /\ information s = Information_empty)
  /\ isValid s = false.
Proof.
  cbv zeta.
  assert (Hv : isValid (final broken) = false) by (vm_compute; reflexivity).
  assert (Hc : calculateProperties (blank (mkAnim (512, 512) 30%Q 0))
               = Ok (final broken)) by (vm_compute; reflexivity).
  assert (Hn : reportedCount (blank (mkAnim (512, 512) 30%Q 0)) <= 0)
    by (vm_compute; discriminate).
  split; [split; [exact Hv|]; split; [exact Hc | exact Hn]|].
  destruct (isValid_iff_and_invalid_is_inert (final broken))
    as (Hiff & Hinert & _).
  split; [exact Hiff|]. split; [exact (Hinert Hv)|].
  destruct (isValid_iff_and_invalid_is_inert
              (blank (mkAnim (512, 512) 30%Q 0))) as (_ & _ & Hbad).
  apply (Hbad _ Hc). do 6 right. left. exact Hn.
Defined.

Lemma markFrameDisplayed_first_mark_sticks_witness :
  let s := after 30 30 emptyRequest [OpRender emptyRequest] in
  (0 <= counter s < 2 * kFramesCount /\ Z.odd (counter s) = true
   /\ 40 <> kTimeUnknown)
  /\ exists s',
       markFrameDisplayed s 40 = Ok s'
       /\ counter s' = counter s
       /\ displayed (pendingFrame s')
          = (if displayed (pendingFrame s) =? kTimeUnknown then 40
             else displayed (pendingFrame s))
       /\ displayed (pendingFrame s') <> kTimeUnknown
       /\ forall later, markFrameDisplayed s' later = Ok s'.
Proof.
  cbv zeta.
  assert (Hc : 0 <= counter (after 30 30 emptyRequest [OpRender emptyRequest])
               < 2 * kFramesCount)
    by (vm_compute; split; [discriminate|reflexivity]).
  assert (Hodd : Z.odd (counter (after 30 30 emptyRequest
                                   [OpRender emptyRequest])) = true)
    by (vm_compute; reflexivity).
  assert (Hnow : 40 <> kTimeUnknown) by (vm_compute; discriminate).
  split; [split; [exact Hc|split; [exact Hodd|exact Hnow]]|].
  exact (markFrameDisplayed_first_mark_sticks _ 40 Hc Hodd Hnow).
Defined.

Lemma consumer_marks_are_fatal_in_even_phase_witness :
  let s := after 30 30 emptyRequest [] in
  (0 <= counter s < 2 * kFramesCount /\ Z.even (counter s) = true)
  /\ (forall now, markFrameDisplayed s now = Fatal UnexpectedValue)
  /\ (forall delayed skippedFrames,
        delayed <> 0 \/ skippedFrames <> 0 ->
        addTimelineDelay s delayed skippedFrames = Fatal UnexpectedValue).
Proof.
  cbv zeta.
  assert (Hc : 0 <= counter (after 30 30 emptyRequest [])
               < 2 * kFramesCount)
    by (vm_compute; split; [discriminate|reflexivity]).
  assert (Heven : Z.even (counter (after 30 30 emptyRequest [])) = true)
    by (vm_compute; reflexivity).
  split; [split; [exact Hc|exact Heven]|].
  exact (proj2 (consumer_marks_are_fatal_in_even_phase _) Hc Heven).
Defined.

Lemma renderNextFrame_spares_consumer_slots_witness :
  let s := after 30 30 emptyRequest [OpRender emptyRequest] in
  let s' := after 30 30 emptyRequest
              [OpRender emptyRequest; OpRender emptyRequest] in
  renderNextFrame s emptyRequest = Ok (s', mkRenderResult true None)
  /\ frameAt s' (counter s ÷ 2) = frameAt s (counter s ÷ 2)
  /\ (Z.odd (counter s) = true ->
      frameAt s' (nextIndex (counter s)) = frameAt s (nextIndex (counter s))).
Proof.
  cbv zeta.
  assert (H : renderNextFrame
                (after 30 30 emptyRequest [OpRender emptyRequest])
                emptyRequest
              = Ok (after 30 30 emptyRequest
                      [OpRender emptyRequest; OpRender emptyRequest],
                    mkRenderResult true None))
    by (vm_compute; reflexivity).
  split; [exact H|].
  exact (renderNextFrame_spares_consumer_slots _ _ _ _ H).
Defined.

Lemma consumer_calls_keep_the_frames_content_witness :
  let s := after 30 30 emptyRequest [OpRender emptyRequest] in
  let s' := after 30 30 emptyRequest
              [OpRender emptyRequest; OpDisplayed 40] in
  ((forall req, OpDisplayed 40 <> OpRender req)
   /\ exec (OpDisplayed 40) s = Ok s')
  /\ _frameIndex s' = _frameIndex s
  /\ original (frameAt s' 1) = original (frameAt s 1)
  /\ index (frameAt s' 1) = index (frameAt s 1)
  /\ request (frameAt s' 1) = request (frameAt s 1)
  /\ prepared (frameAt s' 1) = prepared (frameAt s 1).
Proof.
  cbv zeta.
  assert (Hop : forall req, OpDisplayed 40 <> OpRender req)
    by (intros req Heq; discriminate Heq).
  assert (H : exec (OpDisplayed 40)
                (after 30 30 emptyRequest [OpRender emptyRequest])
              = Ok (after 30 30 emptyRequest
                      [OpRender emptyRequest; OpDisplayed 40]))
    by (vm_compute; reflexivity).
  split; [split; [exact Hop|exact H]|].
  exact (consumer_calls_keep_the_frames_content _ _ _ 1 Hop H).
Defined.

Lemma PrepareByRequest_result_witness :
  let orig := original tintedFrame in
  let req := request tintedFrame in
  (isEmpty (box req) = false
   /\ isEmpty (request_size req (imageSize orig)) = false)
  /\ PrepareByRequest orig req None
     = let sz := request_size req (imageSize orig) in
       let drawn := Some (mkImage kImageFormat sz true
                            (px_drawImage sz orig)) in
       match colored req with
       | Some c => Ok (prepareColored c drawn)
       | None => Ok drawn
       end.
Proof.
  cbv zeta.
  assert (Hbox : isEmpty (box (request tintedFrame)) = false)
    by (vm_compute; reflexivity).
  assert (Hsz : isEmpty (request_size (request tintedFrame)
                           (imageSize (original tintedFrame))) = false)
    by (vm_compute; reflexivity).
  split; [split; [exact Hbox|exact Hsz]|].
  exact (proj2 (PrepareByRequest_result _ _ None) Hbox Hsz).
Defined.

Lemma renderFrame_without_cache_witness :
  let s := after 30 30 emptyRequest [] in
  let req := mkRequest (mkQSize 100 100) None in
  (isValid s = true /\ _cache s = None
   /\ (isEmpty (box req) = false ->
       isEmpty (request_size req (_size s)) = false))
  /\ renderFrame s None req 5
     = let sz := if isEmpty (box req) then _size s
                 else request_size req (_size s) in
       let animation := match _animation s with
                        | Some a => a
                        | None => CreateFromContent (_content s)
                        end in
       (set_animation s (Some animation),
        Some (mkImage kImageFormat sz true
                (px_renderSync animation 5 sz))).
Proof.
  cbv zeta.
  assert (Hv : isValid (after 30 30 emptyRequest []) = true)
    by (vm_compute; reflexivity).
  assert (Hca : _cache (after 30 30 emptyRequest []) = None)
    by (vm_compute; reflexivity).
  assert (Hsz : isEmpty (box (mkRequest (mkQSize 100 100) None)) = false ->
                isEmpty (request_size (mkRequest (mkQSize 100 100) None)
                           (_size (after 30 30 emptyRequest []))) = false)
    by (intros _; vm_compute; reflexivity).
  split; [split; [exact Hv|split; [exact Hca|exact Hsz]]|].
  exact (renderFrame_without_cache _ None _ 5 Hv Hca Hsz).
Defined.

Lemma calculateProperties_accepts_a_source_in_range_witness :
  let s := blank (mkAnim (512, 512) 30%Q 30) in
  ((_animation s <> None \/ _cache s <> None)
   /\ 0 < fst (reportedSize s) < kMaxSize
   /\ 0 < snd (reportedSize s) < kMaxSize
   /\ (1 <= reportedRate s)%Q
   /\ (reportedRate s <= inject_Z kMaxFrameRate)%Q
   /\ 0 < reportedCount s <= kMaxFramesCount)
  /\ exists s',
       calculateProperties s = Ok s'
       /\ isValid s' = true
       /\ information s'
          = mkInformation
              (mkQSize (fst (reportedSize s)) (snd (reportedSize s)))
              (Qfloor (reportedRate s)) (reportedCount s)
       /\ _frames s' = _frames s /\ counter s' = counter s.
Proof.
  cbv zeta.
  assert (Ha : _animation (blank (mkAnim (512, 512) 30%Q 30)) <> None
               \/ _cache (blank (mkAnim (512, 512) 30%Q 30)) <> None)
    by (left; vm_compute; discriminate).
  assert (Hw : 0 < fst (reportedSize (blank (mkAnim (512, 512) 30%Q 30)))
               < kMaxSize)
    by (vm_compute; split; reflexivity).
  assert (Hh : 0 < snd (reportedSize (blank (mkAnim (512, 512) 30%Q 30)))
               < kMaxSize)
    by (vm_compute; split; reflexivity).
  assert (Hlo : Qle 1%Q (reportedRate (blank (mkAnim (512, 512) 30%Q 30))))
    by (vm_compute; discriminate).
  assert (Hhi : Qle (reportedRate (blank (mkAnim (512, 512) 30%Q 30)))
                  (inject_Z kMaxFrameRate))
    by (vm_compute; discriminate).
  assert (Hn : 0 < reportedCount (blank (mkAnim (512, 512) 30%Q 30))
               <= kMaxFramesCount)
    by (vm_compute; split; [reflexivity|discriminate]).
  split.
  { split; [exact Ha|]. split; [exact Hw|]. split; [exact Hh|].
    split; [exact Hlo|]. split; [exact Hhi|exact Hn]. }
  exact (calculateProperties_accepts_a_source_in_range _ Ha Hw Hh Hlo Hhi Hn).
Defined.

Lemma construct_only_fills_slot_0_witness :
  let blank := blank (mkAnim (512, 512) 30%Q 30) in
  let s0 := constructed 30 30 emptyRequest in
  construct blank emptyRequest = Ok s0
  /\ counter s0 = counter blank
  /\ slot1 (_frames s0) = slot1 (_frames blank)
  /\ slot2 (_frames s0) = slot2 (_frames blank)
  /\ slot3 (_frames s0) = slot3 (_frames blank)
  /\ (isValid s0 = false ->
      slot0 (_frames s0) = slot0 (_frames blank))
  /\ (isValid s0 = true ->
      counter blank = kCounterUninitialized
      /\ request (slot0 (_frames s0)) = emptyRequest
      /\ displayed (slot0 (_frames s0))
         = displayed (slot0 (_frames blank))).
Proof.
  cbv zeta.
  assert (H : construct (blank (mkAnim (512, 512) 30%Q 30)) emptyRequest
              = Ok (constructed 30 30 emptyRequest))
    by (vm_compute; reflexivity).
  split; [exact H|].
  exact (proj2 (construct_only_fills_slot_0 _ _) _ H).
Defined.

Lemma renderNextFrame_is_fatal_on_an_invalid_state_witness :
  let blank := blank (mkAnim (512, 512) 30%Q 0) in
  let s0 := final broken in
  (FreshSlots blank
   /\ isNull (original (slot1 (_frames blank))) = true
   /\ construct blank emptyRequest = Ok s0
   /\ isValid s0 = false)
  /\ renderNextFrame (start s0 1 0 0 0) emptyRequest = Fatal ExpectsFailed.
Proof.
  cbv zeta.
  assert (Hf : FreshSlots (blank (mkAnim (512, 512) 30%Q 0)))
    by (repeat split; discriminate).
  assert (Hn : isNull (original (slot1 (_frames
                 (blank (mkAnim (512, 512) 30%Q 0))))) = true)
    by (vm_compute; reflexivity).
  assert (Hc : construct (blank (mkAnim (512, 512) 30%Q 0)) emptyRequest
               = Ok (final broken))
    by (vm_compute; reflexivity).
  assert (Hv : isValid (final broken) = false)
    by (vm_compute; reflexivity).
  split; [split; [exact Hf|split; [exact Hn|split; [exact Hc|exact Hv]]]|].
  exact (renderNextFrame_is_fatal_on_an_invalid_state
           _ _ _ emptyRequest 1 0 0 0 Hf Hn Hc Hv).
Defined.

Lemma renderNextFrame_stops_after_three_in_a_row_witness :
  let s := after 30 30 emptyRequest [] in
  let s1 := after 30 30 emptyRequest [OpRender emptyRequest] in
  let s2 := after 30 30 emptyRequest
              [OpRender emptyRequest; OpRender emptyRequest] in
  let s3 := after 30 30 emptyRequest
              [OpRender emptyRequest; OpRender emptyRequest;
               OpRender emptyRequest] in
  (renderNextFrame s emptyRequest = Ok (s1, mkRenderResult true (Some 1))
   /\ renderNextFrame s1 emptyRequest = Ok (s2, mkRenderResult true None)
   /\ renderNextFrame s2 emptyRequest = Ok (s3, mkRenderResult true None))
  /\ renderNextFrame s3 emptyRequest = Ok (s3, mkRenderResult false None)
  /\ _frameIndex s3 <= _frameIndex s + 3.
Proof.
  cbv zeta.
  assert (H1 : renderNextFrame (after 30 30 emptyRequest []) emptyRequest
               = Ok (after 30 30 emptyRequest [OpRender emptyRequest],
                     mkRenderResult true (Some 1)))
    by (vm_compute; reflexivity).
  assert (H2 : renderNextFrame
                 (after 30 30 emptyRequest [OpRender emptyRequest])
                 emptyRequest
               = Ok (after 30 30 emptyRequest
                       [OpRender emptyRequest; OpRender emptyRequest],
                     mkRenderResult true None))
    by (vm_compute; reflexivity).
  assert (H3 : renderNextFrame
                 (after 30 30 emptyRequest
                    [OpRender emptyRequest; OpRender emptyRequest])
                 emptyRequest
               = Ok (after 30 30 emptyRequest
                       [OpRender emptyRequest; OpRender emptyRequest;
                        OpRender emptyRequest],
                     mkRenderResult true None))
    by (vm_compute; reflexivity).
  split; [split; [exact H1|split; [exact H2|exact H3]]|].
  exact (renderNextFrame_stops_after_three_in_a_row
           _ _ _ _ _ _ _ emptyRequest _ _ _ H1 H2 H3).
Defined.

Lemma marked_and_shown_frame_is_painted_witness :
  let s := after 30 30 emptyRequest [OpRender emptyRequest] in
  (SizeContract /\ CacheContract /\ Reachable s
   /\ Z.odd (counter s) = true /\ 40 <> kTimeUnknown)
  /\ exists s1 s2 frame,
       markFrameDisplayed s 40 = Ok s1
       /\ markFrameShown s1 = Ok (s2, true)
       /\ counter s2 = Z.rem (counter s + 1) (2 * kFramesCount)
       /\ frameForPaint s2 = Ok (nextIndex (counter s), frame)
       /\ original frame = original (pendingFrame s)
       /\ index frame = index (pendingFrame s)
       /\ displayed frame
          = (if displayed (pendingFrame s) =? kTimeUnknown then 40
             else displayed (pendingFrame s)).
Proof.
  cbv zeta.
  assert (Hr : Reachable (after 30 30 emptyRequest [OpRender emptyRequest]))
    by reach.
  assert (Hodd : Z.odd (counter (after 30 30 emptyRequest
                                   [OpRender emptyRequest])) = true)
    by (vm_compute; reflexivity).
  assert (Hnow : 40 <> kTimeUnknown) by (vm_compute; discriminate).
  split.
  { split; [exact Reference_SizeContract|].
    split; [exact Reference_CacheContract|].
    split; [exact Hr|]. split; [exact Hodd|exact Hnow]. }
  exact (marked_and_shown_frame_is_painted _ 40
           Reference_SizeContract Reference_CacheContract Hr Hodd Hnow).
Defined.

Lemma producer_or_consumer_can_step_witness :
  let s := after 30 30 emptyRequest
             [OpRender emptyRequest; OpRender emptyRequest;
              OpRender emptyRequest] in
  (SizeContract /\ CacheContract /\ Reachable s /\ 40 <> kTimeUnknown)
  /\ ((exists s' r,
         renderNextFrame s emptyRequest = Ok (s', r) /\ rendered r = true)
      \/ (exists s1 s2,
            markFrameDisplayed s 40 = Ok s1
            /\ markFrameShown s1 = Ok (s2, true))).
Proof.
  cbv zeta.
  assert (Hr : Reachable (after 30 30 emptyRequest
                            [OpRender emptyRequest; OpRender emptyRequest;
                             OpRender emptyRequest]))
    by reach.
  assert (Hnow : 40 <> kTimeUnknown) by (vm_compute; discriminate).
  split.
  { split; [exact Reference_SizeContract|].
    split; [exact Reference_CacheContract|]. split; [exact Hr|exact Hnow]. }
  exact (producer_or_consumer_can_step _ emptyRequest 40
           Reference_SizeContract Reference_CacheContract Hr Hnow).
Defined.

Lemma append_seeds_the_constructor_request_witness :
  let blank := blank (mkAnim (512, 512) 30%Q 30) in
  let s0 := constructed 30 30 emptyRequest in
  let r := mkRenderer [] false in
  (SizeContract /\ CacheContract /\ FreshSlots blank
   /\ construct blank emptyRequest = Ok s0 /\ isValid s0 = true)
  /\ exists r',
       append r (start s0 1 0 0 0) = Ok r'
       /\ _entries r'
          = _entries r ++ [mkEntry (start s0 1 0 0 0) emptyRequest]
       /\ _queued r' = true.
Proof.
  cbv zeta.
  assert (Hf : FreshSlots (blank (mkAnim (512, 512) 30%Q 30)))
    by (repeat split; discriminate).
  assert (Hc : construct (blank (mkAnim (512, 512) 30%Q 30)) emptyRequest
               = Ok (constructed 30 30 emptyRequest))
    by (vm_compute; reflexivity).
  assert (Hv : isValid (constructed 30 30 emptyRequest) = true)
    by (vm_compute; reflexivity).
  split.
  { split; [exact Reference_SizeContract|].
    split; [exact Reference_CacheContract|].
    split; [exact Hf|]. split; [exact Hc|exact Hv]. }
  exact (append_seeds_the_constructor_request _ _ _ 1 0 0 0
           (mkRenderer [] false)
           Reference_SizeContract Reference_CacheContract Hf Hc Hv).
Defined.

Lemma first_frame_after_start_witness :
  let blank := blank (mkAnim (512, 512) 30%Q 30) in
  let s0 := constructed 30 30 emptyRequest in
  let req := mkRequest (mkQSize 100 100) None in
  (SizeContract /\ CacheContract /\ FreshSlots blank
   /\ construct blank emptyRequest = Ok s0 /\ isValid s0 = true
   /\ fitsTime 1000 /\ fitsTime 50 /\ fitsInt 2
   /\ fitsInt (2 + (_frameIndex s0 + 1))
   /\ fitsTime (1000 + 50)
   /\ fitsTime (1000 + 50
                + (1000 * (2 + (_frameIndex s0 + 1))) ÷ _frameRate s0))
  /\ exists s',
       renderNextFrame (start s0 1 1000 50 2) req
       = Ok (s', mkRenderResult true (Some 1))
       /\ counter s' = 1
       /\ _frameIndex s' = _frameIndex s0 + 1
       /\ index (slot1 (_frames s')) = _frameIndex s0 + 1
       /\ displayed (slot1 (_frames s')) = kTimeUnknown
       /\ request (slot1 (_frames s')) = req
       /\ display (slot1 (_frames s'))
          = 1000 + 50 + (1000 * (2 + (_frameIndex s0 + 1))) ÷ _frameRate s0
       /\ (display (slot1 (_frames s')) <> kTimeUnknown ->
           nextFrameDisplayTime s' = Ok (display (slot1 (_frames s')))).
Proof.
  cbv zeta.
  assert (Hf : FreshSlots (blank (mkAnim (512, 512) 30%Q 30)))
    by (repeat split; discriminate).
  assert (Hc : construct (blank (mkAnim (512, 512) 30%Q 30)) emptyRequest
               = Ok (constructed 30 30 emptyRequest))
    by (vm_compute; reflexivity).
  assert (Hv : isValid (constructed 30 30 emptyRequest) = true)
    by (vm_compute; reflexivity).
  assert (Hs : fitsTime 1000) by in_range.
  assert (Hd : fitsTime 50) by in_range.
  assert (Hk : fitsInt 2) by in_range.
  assert (Hsum : fitsInt (2 + (_frameIndex (constructed 30 30 emptyRequest)
                               + 1)))
    by in_range.
  assert (Hsd : fitsTime (1000 + 50)) by in_range.
  assert (Hall : fitsTime
                   (1000 + 50
                    + (1000 * (2 + (_frameIndex
                                      (constructed 30 30 emptyRequest) + 1)))
                      ÷ _frameRate (constructed 30 30 emptyRequest)))
    by in_range.
  split.
  { split; [exact Reference_SizeContract|].
    split; [exact Reference_CacheContract|].
    split; [exact Hf|]. split; [exact Hc|]. split; [exact Hv|].
    split; [exact Hs|]. split; [exact Hd|]. split; [exact Hk|].
    split; [exact Hsum|]. split; [exact Hsd|exact Hall]. }
  exact (first_frame_after_start _ _ _ (mkRequest (mkQSize 100 100) None)
           1 1000 50 2
           Reference_SizeContract Reference_CacheContract Hf Hc Hv
           Hs Hd Hk Hsum Hsd Hall).
Defined.

(** Why the hypotheses on overflow are there.  Started with
    [skippedFrames = 2^31 - 1], the first frame (index 1) makes the [int]
    sum [skippedFrames + index] overflow: the frame is stamped, and the poll
    returns, -71582788266, where the formula over the integers gives
    71582788266. *)
Lemma int_sum_of_countFrameDisplayTime_wraps :
  let s := start (constructed 30 30 emptyRequest) 1 0 0 (2 ^ 31 - 1) in
  match renderNextFrame s emptyRequest with
  | Ok (s', _) =>
      index (pendingFrame s') = 1
      /\ display (pendingFrame s') = - 71582788266
      /\ nextFrameDisplayTime s' = Ok (- 71582788266)
      /\ _started s + _delay s
         + (1000 * (_skippedFrames s + index (pendingFrame s')))
           ÷ _frameRate s
         = 71582788266
      /\ ~ noOverflow s (index (pendingFrame s'))
  | Fatal _ => False
  end.
Proof.
  vm_compute. repeat split; try reflexivity.
  intros [[_ H] _]. discriminate H.
Qed.

(** With [skippedFrames = 2^31 - 2] the first scheduled poll is exact and
    the second one overflows: it is lower than the first, with no
    [addTimelineDelay] in between. *)
Lemma overflowing_poll_goes_down :
  let s := start (constructed 30 30 emptyRequest) 1 0 0 (2 ^ 31 - 2) in
  match run [OpRender emptyRequest] s with
  | Ok s1 =>
      match run [OpDisplayed 40; OpShown; OpRender emptyRequest] s1 with
      | Ok s2 =>
          nextFrameDisplayTime s1 = Ok 71582788233
          /\ nextFrameDisplayTime s2 = Ok (- 71582788266)
          /\ noOverflow s1 (index (pendingFrame s1))
          /\ ~ noOverflow s2 (index (pendingFrame s2))
      | Fatal _ => False
      end
  | Fatal _ => False
  end.
Proof.
  vm_compute. repeat split; try reflexivity; try discriminate.
  intros [[_ H] _]. discriminate H.
Qed.

Lemma presented_indices_go_up_by_one_witness :
  let s := after 30 30 emptyRequest
             [OpRender emptyRequest; OpDisplayed 40] in
  let s1 := after 30 30 emptyRequest
              [OpRender emptyRequest; OpDisplayed 40; OpShown] in
  let s2 := after 30 30 emptyRequest
              [OpRender emptyRequest; OpDisplayed 40; OpShown;
               OpRender emptyRequest] in
  (Reachable s /\ Z.odd (counter s) = true
   /\ markFrameShown s = Ok (s1, true)
   /\ renderNextFrame s1 emptyRequest
      = Ok (s2, mkRenderResult true (Some 1)))
  /\ Z.odd (counter s2) = true
  /\ index (pendingFrame s2) = index (pendingFrame s) + 1.
Proof.
  cbv zeta.
  assert (Hr : Reachable (after 30 30 emptyRequest
                            [OpRender emptyRequest; OpDisplayed 40]))
    by reach.
  assert (Hodd : Z.odd (counter (after 30 30 emptyRequest
                                   [OpRender emptyRequest; OpDisplayed 40]))
                 = true)
    by (vm_compute; reflexivity).
  assert (Hs : markFrameShown
                 (after 30 30 emptyRequest
                    [OpRender emptyRequest; OpDisplayed 40])
               = Ok (after 30 30 emptyRequest
                       [OpRender emptyRequest; OpDisplayed 40; OpShown],
                     true))
    by (vm_compute; reflexivity).
  assert (Hn : renderNextFrame
                 (after 30 30 emptyRequest
                    [OpRender emptyRequest; OpDisplayed 40; OpShown])
                 emptyRequest
               = Ok (after 30 30 emptyRequest
                       [OpRender emptyRequest; OpDisplayed 40; OpShown;
                        OpRender emptyRequest],
                     mkRenderResult true (Some 1)))
    by (vm_compute; reflexivity).
  split; [split; [exact Hr|split; [exact Hodd|split; [exact Hs|exact Hn]]]|].
  exact (presented_indices_go_up_by_one _ _ _ _ _ Hr Hodd Hs Hn).
Defined.

Lemma addTimelineDelay_accumulates_witness :
  let s := after 30 30 emptyRequest [OpRender emptyRequest] in
  let s1 := after 30 30 emptyRequest
              [OpRender emptyRequest; OpDelay 10 1] in
  let s2 := after 30 30 emptyRequest
              [OpRender emptyRequest; OpDelay 10 1; OpDelay 5 2] in
  (Reachable s
   /\ addTimelineDelay s 10 1 = Ok s1
   /\ addTimelineDelay s1 5 2 = Ok s2)
  /\ addTimelineDelay s (10 + 5) (1 + 2) = Ok s2.
Proof.
  cbv zeta.
  assert (Hr : Reachable (after 30 30 emptyRequest [OpRender emptyRequest]))
    by reach.
  assert (H1 : addTimelineDelay
                 (after 30 30 emptyRequest [OpRender emptyRequest]) 10 1
               = Ok (after 30 30 emptyRequest
                       [OpRender emptyRequest; OpDelay 10 1]))
    by (vm_compute; reflexivity).
  assert (H2 : addTimelineDelay
                 (after 30 30 emptyRequest
                    [OpRender emptyRequest; OpDelay 10 1]) 5 2
               = Ok (after 30 30 emptyRequest
                       [OpRender emptyRequest; OpDelay 10 1; OpDelay 5 2]))
    by (vm_compute; reflexivity).
  split; [split; [exact Hr|split; [exact H1|exact H2]]|].
  exact (addTimelineDelay_accumulates _ _ _ 10 1 5 2 Hr H1 H2).
Defined.

Lemma generateFrames_advances_every_entry_witness :
  let r := mkRenderer
             [mkEntry (after 30 30 emptyRequest []) emptyRequest;
              mkEntry (after 30 30 emptyRequest [OpRender emptyRequest])
                emptyRequest] false in
  let r' := mkRenderer
              [mkEntry (after 30 30 emptyRequest [OpRender emptyRequest])
                 emptyRequest;
               mkEntry (after 30 30 emptyRequest
                          [OpRender emptyRequest; OpRender emptyRequest])
                 emptyRequest] true in
  generateFrames r = Ok (r', [1])
  /\ Forall2 advanced (_entries r) (_entries r')
  /\ length (_entries r') = length (_entries r)
  /\ map entry_request (_entries r') = map entry_request (_entries r).
Proof.
  cbv zeta.
  assert (H : generateFrames
                (mkRenderer
                   [mkEntry (after 30 30 emptyRequest []) emptyRequest;
                    mkEntry (after 30 30 emptyRequest [OpRender emptyRequest])
                      emptyRequest] false)
              = Ok (mkRenderer
                      [mkEntry
                         (after 30 30 emptyRequest [OpRender emptyRequest])
                         emptyRequest;
                       mkEntry
                         (after 30 30 emptyRequest
                            [OpRender emptyRequest; OpRender emptyRequest])
                         emptyRequest] true, [1]))
    by (vm_compute; reflexivity).
  split; [exact H|].
  exact (generateFrames_advances_every_entry _ _ _ H).
Defined.

Lemma generateFrames_notifies_each_owner_once_witness :
  let r := mkRenderer
             [mkEntry (after 30 30 emptyRequest []) emptyRequest;
              mkEntry (after 30 30 emptyRequest []) emptyRequest;
              mkEntry (after 30 30 emptyRequest [OpRender emptyRequest])
                emptyRequest] false in
  let r' := mkRenderer
              [mkEntry (after 30 30 emptyRequest [OpRender emptyRequest])
                 emptyRequest;
               mkEntry (after 30 30 emptyRequest [OpRender emptyRequest])
                 emptyRequest;
               mkEntry (after 30 30 emptyRequest
                          [OpRender emptyRequest; OpRender emptyRequest])
                 emptyRequest] true in
  generateFrames r = Ok (r', [1])
  /\ increasing [1]
  /\ forall p,
       In p [1] <->
       exists e, In e (_entries r)
                 /\ Z.even (counter (entry_state e)) = true
                 /\ _owner (entry_state e) = Some p.
Proof.
  cbv zeta.
  assert (H : generateFrames
                (mkRenderer
                   [mkEntry (after 30 30 emptyRequest []) emptyRequest;
                    mkEntry (after 30 30 emptyRequest []) emptyRequest;
                    mkEntry (after 30 30 emptyRequest [OpRender emptyRequest])
                      emptyRequest] false)
              = Ok (mkRenderer
                      [mkEntry
                         (after 30 30 emptyRequest [OpRender emptyRequest])
                         emptyRequest;
                       mkEntry
                         (after 30 30 emptyRequest [OpRender emptyRequest])
                         emptyRequest;
                       mkEntry
                         (after 30 30 emptyRequest
                            [OpRender emptyRequest; OpRender emptyRequest])
                         emptyRequest] true, [1]))
    by (vm_compute; reflexivity).
  split; [exact H|].
  exact (generateFrames_notifies_each_owner_once _ _ _ H).
Defined.

Lemma generateFrames_requeues_only_after_work_witness :
  let idleState := after 30 30 emptyRequest
                     [OpRender emptyRequest; OpRender emptyRequest;
                      OpRender emptyRequest] in
  let r := mkRenderer [mkEntry idleState emptyRequest] false in
  (generateFrames r = Ok (r, [])
   /\ forallb (fun e => idle (entry_state e)) (_entries r) = true)
  /\ (forallb (fun e => idle (entry_state e)) (_entries r) = true ->
      r = r /\ @nil Player = [])
  /\ (forallb (fun e => idle (entry_state e)) (_entries r) = false ->
      _queued r = true).
Proof.
  cbv zeta.
  assert (H : generateFrames
                (mkRenderer
                   [mkEntry
                      (after 30 30 emptyRequest
                         [OpRender emptyRequest; OpRender emptyRequest;
                          OpRender emptyRequest]) emptyRequest] false)
              = Ok (mkRenderer
                      [mkEntry
                         (after 30 30 emptyRequest
                            [OpRender emptyRequest; OpRender emptyRequest;
                             OpRender emptyRequest]) emptyRequest] false,
                    []))
    by (vm_compute; reflexivity).
  assert (Hi : forallb (fun e => idle (entry_state e))
                 (_entries
                    (mkRenderer
                       [mkEntry
                          (after 30 30 emptyRequest
                             [OpRender emptyRequest; OpRender emptyRequest;
                              OpRender emptyRequest]) emptyRequest] false))
               = true)
    by (vm_compute; reflexivity).
  split; [split; [exact H|exact Hi]|].
  exact (generateFrames_requeues_only_after_work _ _ _ H).
Defined.

Lemma scheduler_rests_after_three_passes_witness :
  let three := after 30 30 emptyRequest
                 [OpRender emptyRequest; OpRender emptyRequest;
                  OpRender emptyRequest] in
  let r := mkRenderer
             [mkEntry (after 30 30 emptyRequest []) emptyRequest;
              mkEntry (after 30 30 emptyRequest [OpRender emptyRequest])
                emptyRequest] false in
  let r3 := mkRenderer
              [mkEntry three emptyRequest; mkEntry three emptyRequest]
              true in
  passes 3 r = Ok r3
  /\ generateQueued r3 = Ok (mkRenderer (_entries r3) false, []).
Proof.
  cbv zeta.
  assert (H : passes 3
                (mkRenderer
                   [mkEntry (after 30 30 emptyRequest []) emptyRequest;
                    mkEntry (after 30 30 emptyRequest [OpRender emptyRequest])
                      emptyRequest] false)
              = Ok (mkRenderer
                      [mkEntry
                         (after 30 30 emptyRequest
                            [OpRender emptyRequest; OpRender emptyRequest;
                             OpRender emptyRequest]) emptyRequest;
                       mkEntry
                         (after 30 30 emptyRequest
                            [OpRender emptyRequest; OpRender emptyRequest;
                             OpRender emptyRequest]) emptyRequest] true))
    by (vm_compute; reflexivity).
  split; [exact H|].
  exact (scheduler_rests_after_three_passes _ _ H).
Defined.
